(** * Monad testnet trading bot: the conversation state machine

    A shallow embedding of [src/bot.js] (the Telegram dispatcher and its
    handlers) together with the helpers it calls from [utils/walletUtils.js],
    [utils/uniswapUtils.js], [utils/monadScanUtils.js] and
    [utils/errorHandler.js], followed by the properties of the session
    protocol.

    Conventions of the embedding.
    - JavaScript numbers are IEEE-754 binary64 values, represented by
      [spec_float] with [prec = 53] and [emax = 1024]; [parseFloat],
      [Number.prototype.toFixed] and [Number.prototype.toString] follow
      ECMA-262 on exact integer arithmetic.
    - Strings are sequences of ASCII characters; white space is the ASCII part
      of ECMAScript's WhiteSpace and LineTerminator.
    - [userWallets] and [userSessions] are JavaScript objects keyed by
      [from.id.toString()]; the decimal numeral of an integer is injective and
      never names a property of [Object.prototype], so the maps are keyed by
      the integer id itself.
    - Every handler is an [async] function.  One invocation is modelled as one
      atomic step: the interleaving of two handlers at an [await] is not
      represented.
    - The chain, the exchange router and the explorer API are an oracle
      ([Env]) that is chosen afresh for every step.
    - Calls to the Telegram API ([sendMessage], [editMessageText], ...) are
      recorded in a log of effects and always return. *)

From Stdlib Require Import ZArith Lia Bool List Ascii String.
From Stdlib Require Import Floats.SpecFloat.
From stdpp Require Import base tactics option strings gmap.
Import ListNotations.

Local Open Scope Z_scope.

(** ** Characters and strings *)

Module Chars.

Definition code (c : ascii) : N := N_of_ascii c.

Definition is_digit (c : ascii) : bool :=
  (48 <=? code c)%N && (code c <=? 57)%N.

Definition digit_val (c : ascii) : N := (code c - 48)%N.

Definition digit_char (d : N) : ascii := ascii_of_N (48 + d).

(** [0-9a-fA-F] *)
Definition is_hex (c : ascii) : bool :=
  is_digit c
  || ((97 <=? code c)%N && (code c <=? 102)%N)
  || ((65 <=? code c)%N && (code c <=? 70)%N).

Definition hex_val (c : ascii) : N :=
  if is_digit c then digit_val c
  else if (97 <=? code c)%N then (code c - 87)%N
  else (code c - 55)%N.

(** TAB, LF, VT, FF, CR and SP. *)
Definition is_space (c : ascii) : bool :=
  ((9 <=? code c)%N && (code c <=? 13)%N) || (code c =? 32)%N.

Fixpoint take_digits (s : list ascii) : list ascii * list ascii :=
  match s with
  | c :: r =>
      if is_digit c then let '(d, r') := take_digits r in (c :: d, r')
      else ([], s)
  | [] => ([], [])
  end.

Fixpoint take_hex (s : list ascii) : list ascii * list ascii :=
  match s with
  | c :: r =>
      if is_hex c then let '(d, r') := take_hex r in (c :: d, r')
      else ([], s)
  | [] => ([], [])
  end.

(** The number a digit sequence denotes, most significant digit first. *)
Definition digits_value (ds : list ascii) : N :=
  fold_left (fun acc c => (10 * acc + digit_val c)%N) ds 0%N.

Definition hex_value (ds : list ascii) : N :=
  fold_left (fun acc c => (16 * acc + hex_val c)%N) ds 0%N.

(** Decimal digits of a natural number, most significant first; ["0"] for 0.
    The fuel is the binary size of the number, which bounds the decimal one. *)
Fixpoint digits_aux (fuel : nat) (n : N) (acc : list ascii) : list ascii :=
  let acc' := digit_char (n mod 10) :: acc in
  match fuel with
  | O => acc'
  | S fuel' => if (n / 10 =? 0)%N then acc' else digits_aux fuel' (n / 10) acc'
  end.

Definition digits_of (n : N) : list ascii :=
  digits_aux (N.to_nat (N.log2 n)) n [].

Fixpoint starts_with (p s : list ascii) : bool :=
  match p, s with
  | [], _ => true
  | a :: p', b :: s' => Ascii.eqb a b && starts_with p' s'
  | _ :: _, [] => false
  end.

Fixpoint trim_start (s : list ascii) : list ascii :=
  match s with
  | c :: r => if is_space c then trim_start r else s
  | [] => []
  end.

Fixpoint trim_end (s : list ascii) : list ascii :=
  match s with
  | c :: r =>
      match trim_end r with
      | [] => if is_space c then [] else [c]
      | t => c :: t
      end
  | [] => []
  end.

End Chars.

(** [String.prototype.trim], [startsWith], and [split]. *)
Definition trim (s : string) : string :=
  string_of_list_ascii (Chars.trim_end (Chars.trim_start (list_ascii_of_string s))).

Definition startsWith (s p : string) : bool :=
  Chars.starts_with (list_ascii_of_string p) (list_ascii_of_string s).

(** [s.replace(p, '')] at a call site guarded by [s.startsWith(p)]: the first
    occurrence of [p] is the prefix, which is dropped. *)
Definition replace_prefix (s p : string) : string :=
  String.substring (String.length p) (String.length s - String.length p) s.

Fixpoint split_on (sep : ascii) (s : list ascii) (cur : list ascii)
  : list (list ascii) :=
  match s with
  | [] => [rev cur]
  | c :: r =>
      if Ascii.eqb c sep then rev cur :: split_on sep r []
      else split_on sep r (c :: cur)
  end.

(** [s.split('_')] *)
Definition split_underscore (s : string) : list string :=
  map string_of_list_ascii
      (split_on "_"%char (list_ascii_of_string s) []).

(** ** JavaScript numbers *)

Module JsNumber.

Definition prec : Z := 53.
Definition emax : Z := 1024.

Definition number : Type := spec_float.

Definition NaN : number := S754_nan.
Definition zero : number := S754_zero false.

Definition isNaN (x : number) : bool :=
  match x with S754_nan => true | _ => false end.

Definition is_finite (x : number) : bool :=
  match x with S754_zero _ | S754_finite _ _ _ => true | _ => false end.

Definition mul : number -> number -> number := SFmul prec emax.
Definition div : number -> number -> number := SFdiv prec emax.
Definition ltb : number -> number -> bool := SFltb.
Definition leb : number -> number -> bool := SFleb.
Definition gtb (x y : number) : bool := SFltb y x.

(** The Number value for the real [(-1)^neg * m * 10^e], rounded to nearest,
    ties to even.  For a negative exponent the quotient of the two integers
    is rounded once, by the division of [SpecFloat]. *)
Definition of_decimal (neg : bool) (m : N) (e : Z) : number :=
  match m with
  | N0 => S754_zero neg
  | Npos p =>
      if 0 <=? e then binary_round prec emax neg (p * Z.to_pos (10 ^ e)) 0
      else SFdiv prec emax (S754_finite neg p 0)
                           (S754_finite false (Z.to_pos (10 ^ (- e))) 0)
  end.

Definition of_Z (z : Z) : number :=
  of_decimal (z <? 0) (Z.to_N (Z.abs z)) 0.

(** A numeric literal as read from a string, before rounding. *)
Inductive numeral :=
  | NumInfinity (neg : bool)
  | NumDecimal (neg : bool) (m : N) (e : Z).

Definition Infinity_chars : list ascii := list_ascii_of_string "Infinity".

(** The optional ExponentPart; a dangling [e] or [e+] is not part of the
    literal. *)
Definition read_exponent (s : list ascii) : Z :=
  match s with
  | c :: r =>
      if Ascii.eqb c "e"%char || Ascii.eqb c "E"%char then
        let '(neg, r1) :=
          match r with
          | s1 :: r' =>
              if Ascii.eqb s1 "-"%char then (true, r')
              else if Ascii.eqb s1 "+"%char then (false, r')
              else (false, r)
          | [] => (false, r)
          end in
        let '(ds, _) := Chars.take_digits r1 in
        match ds with
        | [] => 0
        | _ => let v := Z.of_N (Chars.digits_value ds) in if neg then - v else v
        end
      else 0
  | [] => 0
  end.

(** An optional sign. *)
Definition read_sign (s : list ascii) : bool * list ascii :=
  match s with
  | c :: r =>
      if Ascii.eqb c "-"%char then (true, r)
      else if Ascii.eqb c "+"%char then (false, r)
      else (false, s)
  | [] => (false, s)
  end.

(** The longest prefix that is a StrUnsignedDecimalLiteral. *)
Definition read_unsigned (neg : bool) (s : list ascii) : option numeral :=
  if Chars.starts_with Infinity_chars s then Some (NumInfinity neg)
  else
    let '(ip, r1) := Chars.take_digits s in
    let '(fp, r2) :=
      match r1 with
      | c :: r =>
          if Ascii.eqb c "."%char then Chars.take_digits r else ([], r1)
      | [] => ([], r1)
      end in
    match ip ++ fp with
    | [] => None
    | ds =>
        Some (NumDecimal neg (Chars.digits_value ds)
                (read_exponent r2 - Z.of_nat (List.length fp)))
    end.

(** The longest prefix that is a StrDecimalLiteral. *)
Definition read_numeral (s : list ascii) : option numeral :=
  let '(neg, s1) := read_sign s in read_unsigned neg s1.

Definition of_numeral (n : option numeral) : number :=
  match n with
  | None => NaN
  | Some (NumInfinity neg) => S754_infinity neg
  | Some (NumDecimal neg m e) => of_decimal neg m e
  end.

(** [parseFloat(string)] *)
Definition parseFloat (s : string) : number :=
  of_numeral (read_numeral (Chars.trim_start (list_ascii_of_string s))).

(** [parseInt(string)] with no radix: an optional sign, then hexadecimal
    digits after [0x] and decimal digits otherwise. *)
Definition parseInt (s : string) : number :=
  let '(neg, s1) :=
    read_sign (Chars.trim_start (list_ascii_of_string s)) in
  if Chars.starts_with (list_ascii_of_string "0x") s1
     || Chars.starts_with (list_ascii_of_string "0X") s1 then
    match fst (Chars.take_hex (skipn 2 s1)) with
    | [] => NaN
    | ds => of_decimal neg (Chars.hex_value ds) 0
    end
  else
    match fst (Chars.take_digits s1) with
    | [] => NaN
    | ds => of_decimal neg (Chars.digits_value ds) 0
    end.

(** *** Printing

    A positive finite number [m * 2^e] is the fraction [num / den] of two
    positive integers. *)
Definition num_of (m : positive) (e : Z) : Z :=
  if 0 <=? e then Zpos m * 2 ^ e else Zpos m.
Definition den_of (e : Z) : Z :=
  if 0 <=? e then 1 else 2 ^ (- e).

(** [floor (p / q * 10^t)] *)
Definition scaled_floor (p q t : Z) : Z :=
  if 0 <=? t then (p * 10 ^ t) / q else p / (q * 10 ^ (- t)).

(** The least [j >= 1] with [q <= p * 10^j], for [0 < p < q]. *)
Fixpoint leading_zeros (fuel : nat) (p q j : Z) : Z :=
  match fuel with
  | O => j
  | S fuel' => if q <=? p * 10 ^ j then j else leading_zeros fuel' p q (j + 1)
  end.

(** The [n] with [10^(n-1) <= p / q < 10^n]. *)
Definition magnitude (p q : Z) : Z :=
  if q <=? p then Z.of_nat (List.length (Chars.digits_of (Z.to_N (p / q))))
  else 1 - leading_zeros (S (Z.to_nat (Z.log2 q))) p q 1.

Definition same_number (x y : number) : bool :=
  match x, y with
  | S754_finite s m e, S754_finite s' m' e' =>
      Bool.eqb s s' && Pos.eqb m m' && Z.eqb e e'
  | S754_zero s, S754_zero s' => Bool.eqb s s'
  | S754_infinity s, S754_infinity s' => Bool.eqb s s'
  | S754_nan, S754_nan => true
  | _, _ => false
  end.

(** The [k]-digit decimals [s * 10^(n-k)] next to [x = p / q] whose Number
    value is [x]; of two, the closer one, and the even one on a tie. *)
Definition shortest_at (x : number) (p q n k : Z) : option (N * Z) :=
  let t := n - k in
  let lo := scaled_floor p q (- t) in
  let hi := lo + 1 in
  let ok_lo := same_number (of_decimal false (Z.to_N lo) t) x in
  let ok_hi := same_number (of_decimal false (Z.to_N hi) t) x in
  let up := if hi =? 10 ^ k then (Z.to_N (10 ^ (k - 1)), n + 1) else (Z.to_N hi, n) in
  let down := (Z.to_N lo, n) in
  (* 2 * x against the midpoint (2 * lo + 1) * 10^t *)
  let c :=
    if 0 <=? t then (2 * p) ?= ((2 * lo + 1) * 10 ^ t * q)
    else (2 * p * 10 ^ (- t)) ?= ((2 * lo + 1) * q) in
  match ok_lo, ok_hi with
  | true, true =>
      Some match c with
           | Lt => down
           | Gt => up
           | Eq => if Z.even lo then down else up
           end
  | true, false => Some down
  | false, true => Some up
  | false, false => None
  end.

(** Seventeen significant digits always identify a binary64 value. *)
Fixpoint shortest_from (fuel : nat) (x : number) (p q n k : Z) : N * Z :=
  match fuel with
  | O => (Z.to_N (scaled_floor p q (k - n)), n)
  | S fuel' =>
      match shortest_at x p q n k with
      | Some r => r
      | None => shortest_from fuel' x p q n (k + 1)
      end
  end.

Definition zeros (n : Z) : list ascii := repeat "0"%char (Z.to_nat n).

(** Number::toString, steps 6 to 10: the digits of [s] laid out by [n]. *)
Definition layout (ds : list ascii) (n : Z) : list ascii :=
  let k := Z.of_nat (List.length ds) in
  if (k <=? n) && (n <=? 21) then ds ++ zeros (n - k)
  else if (0 <? n) && (n <=? 21) then
    firstn (Z.to_nat n) ds ++ "."%char :: skipn (Z.to_nat n) ds
  else if (-6 <? n) && (n <=? 0) then
    "0"%char :: "."%char :: zeros (- n) ++ ds
  else
    let e := n - 1 in
    let tail :=
      "e"%char :: (if e <? 0 then "-"%char else "+"%char)
               :: Chars.digits_of (Z.to_N (Z.abs e)) in
    match ds with
    | [] => []
    | [d] => d :: tail
    | d :: rest => d :: "."%char :: rest ++ tail
    end.

Definition toString_pos (m : positive) (e : Z) : list ascii :=
  let p := num_of m e in
  let q := den_of e in
  let '(s, n) :=
    shortest_from 17 (S754_finite false m e) p q (magnitude p q) 1 in
  layout (Chars.digits_of s) n.

(** [Number.prototype.toString()], radix 10. *)
Definition toString_chars (x : number) : list ascii :=
  match x with
  | S754_nan => list_ascii_of_string "NaN"
  | S754_zero _ => ["0"%char]
  | S754_infinity false => list_ascii_of_string "Infinity"
  | S754_infinity true => list_ascii_of_string "-Infinity"
  | S754_finite false m e => toString_pos m e
  | S754_finite true m e => "-"%char :: toString_pos m e
  end.

Definition toString (x : number) : string :=
  string_of_list_ascii (toString_chars x).

(** The integer [n] for which [n / 10^f - m * 2^e] is closest to zero, the
    larger one of two. *)
Definition nearest_scaled (f : nat) (m : positive) (e : Z) : Z :=
  let p := num_of m e * 10 ^ Z.of_nat f in
  let q := den_of e in
  (2 * p + q) / (2 * q).

(** [toFixed], steps 9 to 11: the digits of [n] with a point before the last
    [f] of them, zeros prepended up to [f + 1] digits. *)
Definition fixed_point (f : nat) (n : Z) : list ascii :=
  let ds := Chars.digits_of (Z.to_N n) in
  match f with
  | O => ds
  | _ =>
      let ds' := repeat "0"%char (S f - List.length ds) ++ ds in
      let k := List.length ds' in
      firstn (k - f) ds' ++ "."%char :: skipn (k - f) ds'
  end.

Definition at_least_1e21 (m : positive) (e : Z) : bool :=
  10 ^ 21 * den_of e <=? num_of m e.

(** [Number.prototype.toFixed(f)] *)
Definition toFixed_chars (f : nat) (x : number) : list ascii :=
  match x with
  | S754_nan | S754_infinity _ => toString_chars x
  | S754_zero _ => fixed_point f 0
  | S754_finite s m e =>
      (if s then ["-"%char] else [])
        ++ (if at_least_1e21 m e then toString_pos m e
            else fixed_point f (nearest_scaled f m e))
  end.

Definition toFixed (f : nat) (x : number) : string :=
  string_of_list_ascii (toFixed_chars f x).

End JsNumber.

(** ** ethers.utils.formatUnits

    [formatFixed] of ethers v5 on a non-negative BigNumber: the whole part, a
    point, and the fraction padded to [decimals] digits and cut after its last
    non-zero digit (one ["0"] when there is none); the whole part alone when
    [decimals] is 0. *)
Fixpoint strip_zeros_end (s : list ascii) : list ascii :=
  match s with
  | [] => []
  | c :: r =>
      match strip_zeros_end r with
      | [] => if Ascii.eqb c "0"%char then [] else [c]
      | t => c :: t
      end
  end.

Definition formatUnits_chars (value decimals : N) : list ascii :=
  let multiplier := (10 ^ decimals)%N in
  let fraction := Chars.digits_of (value mod multiplier) in
  let fraction :=
    repeat "0"%char (N.to_nat decimals - List.length fraction) ++ fraction in
  let fraction :=
    match strip_zeros_end fraction with
    | [] => ["0"%char]
    | t => t
    end in
  let whole := Chars.digits_of (value / multiplier) in
  if (decimals =? 0)%N then whole else whole ++ "."%char :: fraction.

Definition formatUnits (value decimals : N) : string :=
  string_of_list_ascii (formatUnits_chars value decimals).

(** ** Data model *)

(** The tags assigned to [session.state]. *)
Inductive State :=
  | WALLET_MENU
  | IMPORT_PRIVATE_KEY
  | IMPORT_MNEMONIC
  | BUY_TOKEN
  | BUY_AMOUNT
  | BUY_CUSTOM_AMOUNT
  | SELL_TOKEN
  | SELL_AMOUNT
  | SELL_CUSTOM_AMOUNT.

Global Instance State_eq_dec : EqDecision State.
Proof. solve_decision. Defined.

Definition State_eqb (a b : State) : bool :=
  match a, b with
  | WALLET_MENU, WALLET_MENU
  | IMPORT_PRIVATE_KEY, IMPORT_PRIVATE_KEY
  | IMPORT_MNEMONIC, IMPORT_MNEMONIC
  | BUY_TOKEN, BUY_TOKEN
  | BUY_AMOUNT, BUY_AMOUNT
  | BUY_CUSTOM_AMOUNT, BUY_CUSTOM_AMOUNT
  | SELL_TOKEN, SELL_TOKEN
  | SELL_AMOUNT, SELL_AMOUNT
  | SELL_CUSTOM_AMOUNT, SELL_CUSTOM_AMOUNT => true
  | _, _ => false
  end.

(** What [uniswapUtils.getTokenInfo] returns. *)
Record TokenInfo := {
  ti_address : string;
  ti_decimals : N;
  ti_symbol : string;
  ti_name : string
}.

(** What [walletUtils.getTokenBalance] returns. *)
Record TokenBalance := {
  tb_address : string;
  tb_balance : string;
  tb_decimals : N;
  tb_symbol : string;
  tb_name : string
}.

(** The fields of the explorer's answers that the bot prints. *)
Record TokenDetails := {
  marketCap : option string;
  price : option string
}.

Record WalletToken := {
  wt_symbol : string;
  wt_balance : string;
  wt_name : string
}.

Record Wallet := {
  address : string;
  privateKey : string;
  mnemonic : option string
}.

(** A session object; an absent property is [None]. *)
Record Session := {
  state : option State;
  tokenAddress : option string;
  tokenInfo : option TokenInfo;
  tokenBalance : option string;
  monAmount : option string;
  tokenAmount : option string
}.

Definition new_session (q : State) : Session :=
  {| state := Some q; tokenAddress := None; tokenInfo := None;
     tokenBalance := None; monAmount := None; tokenAmount := None |}.

Definition set_state (q : State) (s : Session) : Session :=
  {| state := Some q; tokenAddress := tokenAddress s;
     tokenInfo := tokenInfo s; tokenBalance := tokenBalance s;
     monAmount := monAmount s; tokenAmount := tokenAmount s |}.

Definition set_monAmount (a : option string) (s : Session) : Session :=
  {| state := state s; tokenAddress := tokenAddress s;
     tokenInfo := tokenInfo s; tokenBalance := tokenBalance s;
     monAmount := a; tokenAmount := tokenAmount s |}.

Definition set_tokenAmount (a : option string) (s : Session) : Session :=
  {| state := state s; tokenAddress := tokenAddress s;
     tokenInfo := tokenInfo s; tokenBalance := tokenBalance s;
     monAmount := monAmount s; tokenAmount := a |}.

(** [let userWallets = {}; let userSessions = {};] *)
Record BotState := {
  userWallets : gmap Z Wallet;
  userSessions : gmap Z Session
}.

(** ** The outside world *)

(** A call that returns or throws [new Error(message)]. *)
Inductive Result (A : Type) :=
  | Ok (a : A)
  | Error (message : string).
Arguments Ok {A} a.
Arguments Error {A} message.

Record Env := {
  (* the JSON-RPC provider and the ERC-20 contracts *)
  provider_getBalance : string -> Result N;
  erc20_balanceOf : string -> string -> Result N;
  erc20_decimals : string -> Result N;
  erc20_symbol : string -> Result string;
  erc20_name : string -> Result string;
  (* the router transaction of [buyToken] and [sellToken], from
     [new ethers.Wallet] to [tx.wait()]: the hash, or what was thrown *)
  router_swapExactETHForTokens : string -> string -> string -> Result string;
  router_swapExactTokensForETH : string -> string -> string -> Result string;
  (* ethers.Wallet *)
  Wallet_createRandom : Wallet;
  Wallet_fromPrivateKey : string -> Result Wallet;
  Wallet_fromMnemonic : string -> Result Wallet;
  (* the MonadScan API, [[]] and [{}] on failure *)
  monadScan_tokens : string -> list WalletToken;
  monadScan_token : string -> TokenDetails
}.

(** *** utils/uniswapUtils.js and utils/walletUtils.js *)

Definition getTokenInfo (env : Env) (tokenAddress : string) : Result TokenInfo :=
  match erc20_decimals env tokenAddress,
        erc20_symbol env tokenAddress,
        erc20_name env tokenAddress with
  | Ok decimals, Ok symbol, Ok name =>
      Ok {| ti_address := tokenAddress; ti_decimals := decimals;
            ti_symbol := symbol; ti_name := name |}
  | Error m, _, _ | _, Error m, _ | _, _, Error m =>
      Error ("Failed to get token info: " +:+ m)
  end.

(** [buyToken] and [sellToken]: anything thrown inside is rethrown with a
    prefix.  [parseEther] and [parseUnits] reject a value that is not a string,
    and a contract cannot be addressed at [undefined], so an absent amount or
    token address throws before any transaction is sent. *)
Definition buyToken (env : Env) (privateKey : string)
    (tokenAddr monAmount : option string) : Result string :=
  match monAmount, tokenAddr with
  | Some amount, Some token =>
      match router_swapExactETHForTokens env privateKey token amount with
      | Ok hash => Ok hash
      | Error m => Error ("Failed to buy token: " +:+ m)
      end
  | None, _ => Error "Failed to buy token: value must be a string"
  | _, None => Error "Failed to buy token: invalid address"
  end.

Definition sellToken (env : Env) (privateKey : string)
    (tokenAddr tokenAmount : option string) : Result string :=
  match tokenAddr, tokenAmount with
  | Some token, Some amount =>
      match router_swapExactTokensForETH env privateKey token amount with
      | Ok hash => Ok hash
      | Error m => Error ("Failed to sell token: " +:+ m)
      end
  | None, _ => Error "Failed to sell token: invalid address"
  | _, None => Error "Failed to sell token: value must be a string"
  end.

Definition createWallet (env : Env) : Wallet := Wallet_createRandom env.

Definition importWalletFromPrivateKey (env : Env) (key : string) : Result Wallet :=
  match Wallet_fromPrivateKey env key with
  | Ok w =>
      Ok {| address := address w; privateKey := privateKey w; mnemonic := None |}
  | Error m => Error ("Invalid private key: " +:+ m)
  end.

Definition importWalletFromMnemonic (env : Env) (phrase : string) : Result Wallet :=
  match Wallet_fromMnemonic env phrase with
  | Ok w => Ok w
  | Error m => Error ("Invalid mnemonic phrase: " +:+ m)
  end.

(** [getBalance]: [formatEther] is [formatUnits] with 18 decimals. *)
Definition getBalance (env : Env) (addr : string) : Result string :=
  match provider_getBalance env addr with
  | Ok balance => Ok (formatUnits balance 18)
  | Error m => Error ("Failed to get balance: " +:+ m)
  end.

(** [getTokenBalance]; [formatUnits] accepts at most 256 decimals. *)
Definition getTokenBalance (env : Env) (addr tokenAddress : string)
  : Result TokenBalance :=
  match erc20_balanceOf env tokenAddress addr,
        erc20_decimals env tokenAddress,
        erc20_symbol env tokenAddress,
        erc20_name env tokenAddress with
  | Ok balance, Ok decimals, Ok symbol, Ok name =>
      if (256 <? decimals)%N then
        Error "Failed to get token balance: invalid decimal size"
      else
        Ok {| tb_address := tokenAddress;
              tb_balance := formatUnits balance decimals;
              tb_decimals := decimals; tb_symbol := symbol; tb_name := name |}
  | Error m, _, _, _ | _, Error m, _, _ | _, _, Error m, _ | _, _, _, Error m =>
      Error ("Failed to get token balance: " +:+ m)
  end.

Definition getWalletTokens (env : Env) (addr : string) : list WalletToken :=
  monadScan_tokens env addr.

Definition getTokenDetails (env : Env) (tokenAddress : string) : TokenDetails :=
  monadScan_token env tokenAddress.

(** ** What the bot sends *)

(** The message templates of [bot.js] and the [ERROR_MESSAGES] table, each with
    the values interpolated into it.  An interpolated [undefined] is [None]. *)
Inductive Text :=
  (* ERROR_MESSAGES *)
  | WALLET_NOT_FOUND
  | INVALID_ADDRESS
  | INVALID_PRIVATE_KEY
  | INVALID_MNEMONIC
  | INVALID_AMOUNT
  | INSUFFICIENT_BALANCE_MON (monBalance : string)
  | INSUFFICIENT_BALANCE_TOKEN (totalBalance : JsNumber.number) (symbol : string)
  (* asyncErrorHandler *)
  | ErrorNotice (message : string)
  (* commands *)
  | Welcome
  | HelpText
  | SelectWalletOption
  | NewWalletCreated (w : Wallet)
  | WalletImported (addr : string)
  | FetchingBalance
  | WalletBalance (addr monBalance : string) (tokens : list WalletToken)
  | ErrorFetchingBalance (message : string)
  | FetchingWalletInfo
  | YourWallet (addr monBalance : string) (noTokensLine : bool)
  | ErrorFetchingWalletInfo (message : string)
  | YourPrivateKey (key : string)
  | WalletDeleted
  | EnterPrivateKey
  | EnterMnemonic
  | OperationCancelled
  (* token lookup *)
  | FetchingTokenInfo
  | RefreshingTokenInfo
  | TokenFound (info : TokenInfo) (details : TokenDetails)
               (formattedBalance monBalance : string)
  | TokenDetailsCard (info : TokenInfo) (details : TokenDetails)
                     (formattedBalance : string)
  | ErrorFetchingTokenInfo (message : string)
  | ErrorRefreshingTokenInfo (message : string)
  (* buy flow *)
  | EnterBuyTokenAddress (monBalance : string)
  | HowMuchMON (info : TokenInfo) (tokenAddr : string)
  | EnterCustomMON
  | AboutToBuy (symbol : string) (amount : option string)
  | ProcessingPurchase (symbol : string) (amount : option string)
  | PurchaseSuccessful (symbol : string) (amount : option string) (txHash : string)
  (* sell flow *)
  | EnterSellTokenAddress
  | NoTokensToSell (symbol : string)
  | HowMuchToSell (info : TokenInfo) (balance : string)
  | EnterCustomSell (symbol : string) (max : option string)
  | AboutToSellPercent (amount symbol : string) (percentage : JsNumber.number)
  | AboutToSell (amount : JsNumber.number) (symbol : string)
  | ProcessingSale (amount : option string) (symbol : string)
  | SaleSuccessful (amount : option string) (symbol : string) (txHash : string)
  (* both *)
  | TransactionFailed (message : string).

(** An inline keyboard: the rows of [callback_data] of its buttons. *)
Definition Keyboard : Type := list (list string).

Definition no_keyboard : Keyboard := [].
Definition walletMenuKeyboard : Keyboard :=
  [["create_wallet"]; ["import_private_key"]; ["import_mnemonic"]; ["cancel"]].
Definition buyAmountKeyboard : Keyboard :=
  [["buy_1"; "buy_2"; "buy_5"]; ["buy_10"; "buy_50"; "buy_custom"]; ["cancel"]].
Definition sellAmountKeyboard : Keyboard :=
  [["sell_25"; "sell_50"; "sell_75"]; ["sell_100"; "sell_custom"]; ["cancel"]].
Definition confirmBuyKeyboard : Keyboard := [["confirm_buy"; "cancel"]].
Definition confirmSellKeyboard : Keyboard := [["confirm_sell"; "cancel"]].
Definition tokenKeyboard (tokenAddr : string) : Keyboard :=
  [["buy_token_" +:+ tokenAddr; "sell_token_" +:+ tokenAddr; "cancel"]].
Definition refreshKeyboard (tokenAddr : string) : Keyboard :=
  [["refresh_" +:+ tokenAddr; "sell_" +:+ tokenAddr]].
Definition myWalletKeyboard : Keyboard :=
  [["show_private_key"]; ["delete_wallet"]].

(** The effects of a handler besides the two maps.  [editMessageText] and
    [deleteMessage] address the message the handler sent just before. *)
Inductive Action :=
  | answerCallbackQuery
  | sendMessage (chatId : Z) (text : Text) (reply_markup : Keyboard)
  | editMessageText (chatId : Z) (text : Text) (reply_markup : Keyboard)
  | deleteMessage (chatId : Z)
  | saveWallets
  | logger_error (message : string)
  (* the [setTimeout] of [handleConfirmBuy]: a token card one second later *)
  | setTimeout_tokenDetails (chatId : Z) (tokenAddr : option string)
                            (info : TokenInfo).

(** Inbound updates. *)
Record Message := {
  chat_id : Z;
  from_id : Z;
  text : option string
}.

Record Query := {
  q_chat_id : Z;
  q_from_id : Z;
  data : string
}.

(** ** Handlers as state-and-exception computations *)

Inductive Completion (A : Type) :=
  | Normal (a : A)
  | Throw (message : string).
Arguments Normal {A} a.
Arguments Throw {A} message.

(** A computation reads and updates the two maps, appends to the log of
    effects, and returns or throws.  Updates made before a throw persist. *)
Definition Bot (A : Type) : Type :=
  BotState -> Completion A * BotState * list Action.

Global Instance Bot_ret : MRet Bot := fun A a st => (Normal a, st, []).

Global Instance Bot_bind : MBind Bot := fun A B f m st =>
  match m st with
  | (Normal a, st1, out1) =>
      let '(r, st2, out2) := f a st1 in (r, st2, out1 ++ out2)
  | (Throw e, st1, out1) => (Throw e, st1, out1)
  end.

Definition throw {A} (e : string) : Bot A := fun st => (Throw e, st, []).

(** [try { m } catch (error) { h error.message }] *)
Definition try_catch {A} (m : Bot A) (h : string -> Bot A) : Bot A := fun st =>
  match m st with
  | (Normal a, st1, out1) => (Normal a, st1, out1)
  | (Throw e, st1, out1) =>
      let '(r, st2, out2) := h e st1 in (r, st2, out1 ++ out2)
  end.

Definition emit (a : Action) : Bot unit := fun st => (Normal tt, st, [a]).

Definition await {A} (r : Result A) : Bot A :=
  match r with
  | Ok a => mret a
  | Error m => throw m
  end.

Definition read : Bot BotState := fun st => (Normal st, st, []).

Definition update_sessions (f : gmap Z Session -> gmap Z Session) : Bot unit :=
  fun st =>
    (Normal tt,
     {| userWallets := userWallets st; userSessions := f (userSessions st) |},
     []).

Definition update_wallets (f : gmap Z Wallet -> gmap Z Wallet) : Bot unit :=
  fun st =>
    (Normal tt,
     {| userWallets := f (userWallets st); userSessions := userSessions st |},
     []).

(** [o.p] on a possibly [undefined] object [o]: a TypeError when it is. *)
Definition property {A B} (o : option A) (p : A -> B) (name : string) : Bot B :=
  match o with
  | Some a => mret (p a)
  | None =>
      throw ("Cannot read properties of undefined (reading '" +:+ name +:+ "')")
  end.

(** [userSessions[userId].p = v] *)
Definition assign (userId : Z) (f : Session -> Session) (name : string) : Bot unit :=
  st ← read;
  match userSessions st !! userId with
  | Some s => update_sessions (insert userId (f s))
  | None =>
      throw ("Cannot set properties of undefined (setting '" +:+ name +:+ "')")
  end.

(** [errorHandler.asyncErrorHandler]: log, tell the chat when the first
    argument has a [chat.id] (a message has one, a callback query has none),
    and return [null]. *)
Definition asyncErrorHandler (chat : option Z) (fn : Bot unit) : Bot unit :=
  try_catch fn (fun e =>
    emit (logger_error e);;
    match chat with
    | Some c => emit (sendMessage c (ErrorNotice e) no_keyboard)
    | None => mret tt
    end).

(** [/^0x[a-fA-F0-9]{40}$/] *)
Definition is_address (s : string) : bool :=
  match list_ascii_of_string s with
  | z :: x :: r =>
      Ascii.eqb z "0"%char && Ascii.eqb x "x"%char
      && (List.length r =? 40)%nat && forallb Chars.is_hex r
  | _ => false
  end.

(** [parseFloat(v)] of a possibly absent property: ["undefined"] is no
    numeral. *)
Definition parseFloat_property (v : option string) : JsNumber.number :=
  match v with
  | Some s => JsNumber.parseFloat s
  | None => JsNumber.NaN
  end.

(** [tokenBalance && tokenBalance.balance ? tokenBalance.balance : '0'] *)
Definition formattedBalance_of (tb : TokenBalance) : string :=
  if String.eqb (tb_balance tb) "" then "0" else tb_balance tb.

Section Handlers.

Variable env : Env.

Definition handleStart (msg : Message) : Bot unit :=
  asyncErrorHandler (Some (chat_id msg))
    (emit (sendMessage (chat_id msg) Welcome no_keyboard)).

Definition handleHelp (msg : Message) : Bot unit :=
  asyncErrorHandler (Some (chat_id msg))
    (emit (sendMessage (chat_id msg) HelpText no_keyboard)).

Definition handleCreateWallet (msg : Message) : Bot unit :=
  asyncErrorHandler (Some (chat_id msg))
    (update_sessions (insert (from_id msg) (new_session WALLET_MENU));;
     emit (sendMessage (chat_id msg) SelectWalletOption walletMenuKeyboard)).

Definition handleCreateNewWallet (msg : Message) : Bot unit :=
  asyncErrorHandler (Some (chat_id msg))
    (let wallet := createWallet env in
     update_wallets (insert (from_id msg) wallet);;
     emit saveWallets;;
     emit (sendMessage (chat_id msg) (NewWalletCreated wallet) no_keyboard)).

Definition handleBalance (msg : Message) : Bot unit :=
  asyncErrorHandler (Some (chat_id msg))
    (st ← read;
     match userWallets st !! from_id msg with
     | None => emit (sendMessage (chat_id msg) WALLET_NOT_FOUND no_keyboard)
     | Some w =>
         emit (sendMessage (chat_id msg) FetchingBalance no_keyboard);;
         try_catch
           (monBalance ← await (getBalance env (address w));
            let tokens := getWalletTokens env (address w) in
            emit (editMessageText (chat_id msg)
                    (WalletBalance (address w) monBalance tokens) no_keyboard))
           (fun e =>
              emit (editMessageText (chat_id msg) (ErrorFetchingBalance e)
                      no_keyboard))
     end).

Definition handleBuy (msg : Message) : Bot unit :=
  asyncErrorHandler (Some (chat_id msg))
    (st ← read;
     match userWallets st !! from_id msg with
     | None => emit (sendMessage (chat_id msg) WALLET_NOT_FOUND no_keyboard)
     | Some w =>
         monBalance ← await (getBalance env (address w));
         if JsNumber.leb (JsNumber.parseFloat monBalance) JsNumber.zero then
           emit (sendMessage (chat_id msg) (INSUFFICIENT_BALANCE_MON monBalance)
                   no_keyboard)
         else
           update_sessions (insert (from_id msg) (new_session BUY_TOKEN));;
           emit (sendMessage (chat_id msg) (EnterBuyTokenAddress monBalance)
                   no_keyboard)
     end).

Definition handleSell (msg : Message) : Bot unit :=
  asyncErrorHandler (Some (chat_id msg))
    (st ← read;
     match userWallets st !! from_id msg with
     | None => emit (sendMessage (chat_id msg) WALLET_NOT_FOUND no_keyboard)
     | Some w =>
         update_sessions (insert (from_id msg) (new_session SELL_TOKEN));;
         emit (sendMessage (chat_id msg) EnterSellTokenAddress no_keyboard)
     end).

Definition handleContractAddressInput (msg : Message) (tokenAddr : string)
  : Bot unit :=
  asyncErrorHandler (Some (chat_id msg))
    (st ← read;
     match userWallets st !! from_id msg with
     | None => emit (sendMessage (chat_id msg) WALLET_NOT_FOUND no_keyboard)
     | Some w =>
         emit (sendMessage (chat_id msg) FetchingTokenInfo no_keyboard);;
         try_catch
           (info ← await (getTokenInfo env tokenAddr);
            let details := getTokenDetails env tokenAddr in
            balance ← await (getTokenBalance env (address w) tokenAddr);
            monBalance ← await (getBalance env (address w));
            emit (editMessageText (chat_id msg)
                    (TokenFound info details (formattedBalance_of balance)
                       monBalance)
                    (tokenKeyboard tokenAddr)))
           (fun e =>
              emit (editMessageText (chat_id msg) (ErrorFetchingTokenInfo e)
                      no_keyboard))
     end).

Definition msg_text_trim (msg : Message) : Bot string :=
  property (text msg) trim "trim".

Definition handleImportPrivateKey (msg : Message) : Bot unit :=
  asyncErrorHandler (Some (chat_id msg))
    (key ← msg_text_trim msg;
     try_catch
       (wallet ← await (importWalletFromPrivateKey env key);
        update_wallets (insert (from_id msg) wallet);;
        emit saveWallets;;
        update_sessions (delete (from_id msg));;
        emit (sendMessage (chat_id msg) (WalletImported (address wallet))
                no_keyboard))
       (fun _ =>
          emit (sendMessage (chat_id msg) INVALID_PRIVATE_KEY no_keyboard))).

Definition handleImportMnemonic (msg : Message) : Bot unit :=
  asyncErrorHandler (Some (chat_id msg))
    (phrase ← msg_text_trim msg;
     try_catch
       (wallet ← await (importWalletFromMnemonic env phrase);
        update_wallets (insert (from_id msg) wallet);;
        emit saveWallets;;
        update_sessions (delete (from_id msg));;
        emit (sendMessage (chat_id msg) (WalletImported (address wallet))
                no_keyboard))
       (fun _ =>
          emit (sendMessage (chat_id msg) INVALID_MNEMONIC no_keyboard))).

(** [session.state === q] *)
Definition state_is (s : Session) (q : State) : bool :=
  match state s with
  | Some q' => State_eqb q' q
  | None => false
  end.

(** [userSessions[userId] && userSessions[userId].state === q] *)
Definition in_state (o : option Session) (q : State) : bool :=
  match o with
  | Some s => state_is s q
  | None => false
  end.

Definition handleBuyTokenAddress (msg : Message) : Bot unit :=
  asyncErrorHandler (Some (chat_id msg))
    (tokenAddr ← msg_text_trim msg;
     if negb (is_address tokenAddr) then
       emit (sendMessage (chat_id msg) INVALID_ADDRESS no_keyboard)
     else
       st ← read;
       if in_state (userSessions st !! from_id msg) BUY_TOKEN then
         emit (sendMessage (chat_id msg) FetchingTokenInfo no_keyboard);;
         try_catch
           (info ← await (getTokenInfo env tokenAddr);
            update_sessions (insert (from_id msg)
              {| state := Some BUY_AMOUNT; tokenAddress := Some tokenAddr;
                 tokenInfo := Some info; tokenBalance := None;
                 monAmount := None; tokenAmount := None |});;
            emit (editMessageText (chat_id msg) (HowMuchMON info tokenAddr)
                    buyAmountKeyboard))
           (fun e =>
              emit (editMessageText (chat_id msg) (ErrorFetchingTokenInfo e)
                      no_keyboard))
       else handleContractAddressInput msg tokenAddr).

(** [data.split('_')[1]] *)
Definition data_suffix (d : string) : option string :=
  nth_error (split_underscore d) 1.

Definition handleBuyAmountChoice (query : Query) : Bot unit :=
  asyncErrorHandler None
    (st ← read;
     match userSessions st !! q_from_id query with
     | None => mret tt
     | Some session =>
         if negb (state_is session BUY_AMOUNT) then mret tt
         else if String.eqb (data query) "buy_custom" then
           assign (q_from_id query) (set_state BUY_CUSTOM_AMOUNT) "state";;
           emit (sendMessage (q_chat_id query) EnterCustomMON no_keyboard)
         else
           let amount := data_suffix (data query) in
           assign (q_from_id query) (set_monAmount amount) "monAmount";;
           symbol ← property (tokenInfo session) ti_symbol "symbol";
           emit (sendMessage (q_chat_id query) (AboutToBuy symbol amount)
                   confirmBuyKeyboard)
     end).

Definition handleBuyCustomAmount (msg : Message) : Bot unit :=
  asyncErrorHandler (Some (chat_id msg))
    (txt ← msg_text_trim msg;
     let amount := JsNumber.parseFloat txt in
     if JsNumber.isNaN amount || JsNumber.leb amount JsNumber.zero then
       emit (sendMessage (chat_id msg) INVALID_AMOUNT no_keyboard)
     else
       st ← read;
       match userSessions st !! from_id msg with
       | None => mret tt
       | Some session =>
           if negb (state_is session BUY_CUSTOM_AMOUNT) then mret tt
           else
             addr ← property (userWallets st !! from_id msg) address "address";
             monBalance ← await (getBalance env addr);
             if JsNumber.ltb (JsNumber.parseFloat monBalance) amount then
               emit (sendMessage (chat_id msg)
                       (INSUFFICIENT_BALANCE_MON monBalance) no_keyboard)
             else
               assign (from_id msg) (set_state BUY_AMOUNT) "state";;
               assign (from_id msg)
                 (set_monAmount (Some (JsNumber.toString amount))) "monAmount";;
               symbol ← property (tokenInfo session) ti_symbol "symbol";
               emit (sendMessage (chat_id msg)
                       (AboutToBuy symbol (Some (JsNumber.toString amount)))
                       confirmBuyKeyboard)
       end).

Definition handleConfirmBuy (query : Query) : Bot unit :=
  asyncErrorHandler None
    (st ← read;
     match userSessions st !! q_from_id query with
     | None => mret tt
     | Some session =>
         key ← property (userWallets st !! q_from_id query) privateKey
                 "privateKey";
         info ← property (tokenInfo session) id "symbol";
         emit (sendMessage (q_chat_id query)
                 (ProcessingPurchase (ti_symbol info) (monAmount session))
                 no_keyboard);;
         try_catch
           (txHash ← await (buyToken env key (tokenAddress session)
                              (monAmount session));
            emit (editMessageText (q_chat_id query)
                    (PurchaseSuccessful (ti_symbol info) (monAmount session)
                       txHash)
                    no_keyboard);;
            emit (setTimeout_tokenDetails (q_chat_id query)
                    (tokenAddress session) info))
           (fun e =>
              emit (editMessageText (q_chat_id query) (TransactionFailed e)
                      no_keyboard));;
         update_sessions (delete (q_from_id query))
     end).

Definition handleSellTokenAddress (msg : Message) : Bot unit :=
  asyncErrorHandler (Some (chat_id msg))
    (tokenAddr ← msg_text_trim msg;
     if negb (is_address tokenAddr) then
       emit (sendMessage (chat_id msg) INVALID_ADDRESS no_keyboard)
     else
       st ← read;
       if in_state (userSessions st !! from_id msg) SELL_TOKEN then
         emit (sendMessage (chat_id msg) FetchingTokenInfo no_keyboard);;
         try_catch
           (addr ← property (userWallets st !! from_id msg) address "address";
            info ← await (getTokenInfo env tokenAddr);
            balance ← await (getTokenBalance env addr tokenAddr);
            if JsNumber.leb (JsNumber.parseFloat (tb_balance balance))
                 JsNumber.zero then
              emit (editMessageText (chat_id msg)
                      (NoTokensToSell (ti_symbol info)) no_keyboard)
            else
              update_sessions (insert (from_id msg)
                {| state := Some SELL_AMOUNT; tokenAddress := Some tokenAddr;
                   tokenInfo := Some info;
                   tokenBalance := Some (tb_balance balance);
                   monAmount := None; tokenAmount := None |});;
              emit (editMessageText (chat_id msg)
                      (HowMuchToSell info (tb_balance balance))
                      sellAmountKeyboard))
           (fun e =>
              emit (editMessageText (chat_id msg) (ErrorFetchingTokenInfo e)
                      no_keyboard))
       else handleContractAddressInput msg tokenAddr).

(** [parseInt(data.split('_')[1])] *)
Definition percentage_of (d : string) : JsNumber.number :=
  match data_suffix d with
  | Some s => JsNumber.parseInt s
  | None => JsNumber.NaN
  end.

(** [(totalBalance * percentage / 100).toFixed(6)] *)
Definition percent_amount (totalBalance percentage : JsNumber.number) : string :=
  JsNumber.toFixed 6
    (JsNumber.div (JsNumber.mul totalBalance percentage) (JsNumber.of_Z 100)).

Definition handleSellAmountChoice (query : Query) : Bot unit :=
  asyncErrorHandler None
    (st ← read;
     match userSessions st !! q_from_id query with
     | None => mret tt
     | Some session =>
         if negb (state_is session SELL_AMOUNT) then mret tt
         else if String.eqb (data query) "sell_custom" then
           assign (q_from_id query) (set_state SELL_CUSTOM_AMOUNT) "state";;
           symbol ← property (tokenInfo session) ti_symbol "symbol";
           emit (sendMessage (q_chat_id query)
                   (EnterCustomSell symbol (tokenBalance session)) no_keyboard)
         else
           let percentage := percentage_of (data query) in
           let totalBalance := parseFloat_property (tokenBalance session) in
           let amount := percent_amount totalBalance percentage in
           assign (q_from_id query) (set_tokenAmount (Some amount))
             "tokenAmount";;
           symbol ← property (tokenInfo session) ti_symbol "symbol";
           emit (sendMessage (q_chat_id query)
                   (AboutToSellPercent amount symbol percentage)
                   confirmSellKeyboard)
     end).

Definition handleSellCustomAmount (msg : Message) : Bot unit :=
  asyncErrorHandler (Some (chat_id msg))
    (txt ← msg_text_trim msg;
     let amount := JsNumber.parseFloat txt in
     if JsNumber.isNaN amount || JsNumber.leb amount JsNumber.zero then
       emit (sendMessage (chat_id msg) INVALID_AMOUNT no_keyboard)
     else
       st ← read;
       match userSessions st !! from_id msg with
       | None => mret tt
       | Some session =>
           if negb (state_is session SELL_CUSTOM_AMOUNT) then mret tt
           else
             let totalBalance := parseFloat_property (tokenBalance session) in
             if JsNumber.gtb amount totalBalance then
               symbol ← property (tokenInfo session) ti_symbol "symbol";
               emit (sendMessage (chat_id msg)
                       (INSUFFICIENT_BALANCE_TOKEN totalBalance symbol)
                       no_keyboard)
             else
               assign (from_id msg) (set_state SELL_AMOUNT) "state";;
               assign (from_id msg)
                 (set_tokenAmount (Some (JsNumber.toString amount)))
                 "tokenAmount";;
               symbol ← property (tokenInfo session) ti_symbol "symbol";
               emit (sendMessage (chat_id msg) (AboutToSell amount symbol)
                       confirmSellKeyboard)
       end).

Definition handleConfirmSell (query : Query) : Bot unit :=
  asyncErrorHandler None
    (st ← read;
     match userSessions st !! q_from_id query with
     | None => mret tt
     | Some session =>
         key ← property (userWallets st !! q_from_id query) privateKey
                 "privateKey";
         symbol ← property (tokenInfo session) ti_symbol "symbol";
         emit (sendMessage (q_chat_id query)
                 (ProcessingSale (tokenAmount session) symbol) no_keyboard);;
         try_catch
           (txHash ← await (sellToken env key (tokenAddress session)
                              (tokenAmount session));
            emit (editMessageText (q_chat_id query)
                    (SaleSuccessful (tokenAmount session) symbol txHash)
                    no_keyboard))
           (fun e =>
              emit (editMessageText (q_chat_id query) (TransactionFailed e)
                      no_keyboard));;
         update_sessions (delete (q_from_id query))
     end).

(** [handleMyWallet] ([/mywallet]) and [handleMyWalletImplementation] (the
    [mywallet] button) differ in one line of the card. *)
Definition myWallet (noTokensLine : bool) (msg : Message) : Bot unit :=
  asyncErrorHandler (Some (chat_id msg))
    (st ← read;
     match userWallets st !! from_id msg with
     | None => emit (sendMessage (chat_id msg) WALLET_NOT_FOUND no_keyboard)
     | Some w =>
         emit (sendMessage (chat_id msg) FetchingWalletInfo no_keyboard);;
         try_catch
           (monBalance ← await (getBalance env (address w));
            emit (editMessageText (chat_id msg)
                    (YourWallet (address w) monBalance noTokensLine)
                    myWalletKeyboard))
           (fun e =>
              emit (editMessageText (chat_id msg) (ErrorFetchingWalletInfo e)
                      no_keyboard))
     end).

Definition handleMyWallet : Message -> Bot unit := myWallet true.
Definition handleMyWalletImplementation : Message -> Bot unit := myWallet false.

Definition handleRefreshToken (query : Query) (tokenAddr : string) : Bot unit :=
  asyncErrorHandler None
    (st ← read;
     match userWallets st !! q_from_id query with
     | None => emit (sendMessage (q_chat_id query) WALLET_NOT_FOUND no_keyboard)
     | Some w =>
         emit (sendMessage (q_chat_id query) RefreshingTokenInfo no_keyboard);;
         try_catch
           (info ← await (getTokenInfo env tokenAddr);
            balance ← await (getTokenBalance env (address w) tokenAddr);
            let details := getTokenDetails env tokenAddr in
            emit (deleteMessage (q_chat_id query));;
            emit (sendMessage (q_chat_id query)
                    (TokenDetailsCard info details (formattedBalance_of balance))
                    (refreshKeyboard tokenAddr)))
           (fun e =>
              emit (editMessageText (q_chat_id query)
                      (ErrorRefreshingTokenInfo e) no_keyboard))
     end).

Definition handleSellToken (query : Query) (tokenAddr : string) : Bot unit :=
  asyncErrorHandler None
    (st ← read;
     match userWallets st !! q_from_id query with
     | None => emit (sendMessage (q_chat_id query) WALLET_NOT_FOUND no_keyboard)
     | Some w =>
         try_catch
           (info ← await (getTokenInfo env tokenAddr);
            balance ← await (getTokenBalance env (address w) tokenAddr);
            if JsNumber.leb (JsNumber.parseFloat (tb_balance balance))
                 JsNumber.zero then
              emit (sendMessage (q_chat_id query)
                      (NoTokensToSell (ti_symbol info)) no_keyboard)
            else
              update_sessions (insert (q_from_id query)
                {| state := Some SELL_AMOUNT; tokenAddress := Some tokenAddr;
                   tokenInfo := Some info;
                   tokenBalance := Some (tb_balance balance);
                   monAmount := None; tokenAmount := None |});;
              emit (sendMessage (q_chat_id query)
                      (HowMuchToSell info (tb_balance balance))
                      sellAmountKeyboard))
           (fun e =>
              emit (sendMessage (q_chat_id query) (ErrorFetchingTokenInfo e)
                      no_keyboard))
     end).

(** The message the button cases build: [{ chat: { id }, from: { id } }]. *)
Definition message_of (query : Query) : Message :=
  {| chat_id := q_chat_id query; from_id := q_from_id query; text := None |}.

(** [bot.on('callback_query', ...)].  The second [sell_token_] block of the
    source follows a [return] on the same test and is never entered. *)
Definition on_callback_query (query : Query) : Bot unit :=
  asyncErrorHandler None
    (emit answerCallbackQuery;;
     let d := data query in
     let chatId := q_chat_id query in
     let userId := q_from_id query in
     if startsWith d "refresh_" then
       handleRefreshToken query (replace_prefix d "refresh_")
     else if startsWith d "sell_token_" then
       handleSellToken query (replace_prefix d "sell_token_")
     else if startsWith d "buy_token_" then
       let tokenAddr := replace_prefix d "buy_token_" in
       info ← await (getTokenInfo env tokenAddr);
       update_sessions (insert userId
         {| state := Some BUY_AMOUNT; tokenAddress := Some tokenAddr;
            tokenInfo := Some info; tokenBalance := None;
            monAmount := None; tokenAmount := None |});;
       emit (sendMessage chatId (HowMuchMON info tokenAddr) buyAmountKeyboard)
     else if String.eqb d "wallet" then handleCreateWallet (message_of query)
     else if String.eqb d "mywallet" then
       handleMyWalletImplementation (message_of query)
     else if String.eqb d "balance" then handleBalance (message_of query)
     else if String.eqb d "buy" then handleBuy (message_of query)
     else if String.eqb d "sell" then handleSell (message_of query)
     else if String.eqb d "help" then handleHelp (message_of query)
     else if String.eqb d "create_wallet" then
       handleCreateNewWallet (message_of query)
     else if String.eqb d "show_private_key" then
       st ← read;
       match userWallets st !! userId with
       | Some w => emit (sendMessage chatId (YourPrivateKey (privateKey w))
                           no_keyboard)
       | None => mret tt
       end
     else if String.eqb d "delete_wallet" then
       st ← read;
       match userWallets st !! userId with
       | Some _ =>
           update_wallets (delete userId);;
           emit saveWallets;;
           emit (sendMessage chatId WalletDeleted no_keyboard)
       | None => mret tt
       end
     else if String.eqb d "import_private_key" then
       update_sessions (insert userId (new_session IMPORT_PRIVATE_KEY));;
       emit (sendMessage chatId EnterPrivateKey no_keyboard)
     else if String.eqb d "import_mnemonic" then
       update_sessions (insert userId (new_session IMPORT_MNEMONIC));;
       emit (sendMessage chatId EnterMnemonic no_keyboard)
     else if String.eqb d "cancel" then
       update_sessions (delete userId);;
       emit (sendMessage chatId OperationCancelled no_keyboard)
     else if String.eqb d "buy_1" || String.eqb d "buy_2"
             || String.eqb d "buy_5" || String.eqb d "buy_10"
             || String.eqb d "buy_50" || String.eqb d "buy_custom" then
       handleBuyAmountChoice query
     else if String.eqb d "sell_25" || String.eqb d "sell_50"
             || String.eqb d "sell_75" || String.eqb d "sell_100"
             || String.eqb d "sell_custom" then
       handleSellAmountChoice query
     else if String.eqb d "confirm_buy" then handleConfirmBuy query
     else if String.eqb d "confirm_sell" then handleConfirmSell query
     else mret tt).

(** [bot.on('message', ...)] *)
Definition on_message (msg : Message) : Bot unit :=
  asyncErrorHandler (Some (chat_id msg))
    (match text msg with
     | None => mret tt
     | Some t =>
         if String.eqb t "" || startsWith t "/" then mret tt
         else
           let txt := trim t in
           st ← read;
           if is_address txt then
             match userWallets st !! from_id msg with
             | None =>
                 emit (sendMessage (chat_id msg) WALLET_NOT_FOUND no_keyboard)
             | Some _ =>
                 match userSessions st !! from_id msg with
                 | None => handleContractAddressInput msg txt
                 | Some session =>
                     match state session with
                     | None => handleContractAddressInput msg txt
                     | Some BUY_TOKEN => handleBuyTokenAddress msg
                     | Some SELL_TOKEN => handleSellTokenAddress msg
                     | Some _ => handleContractAddressInput msg txt
                     end
                 end
             end
           else
             match userSessions st !! from_id msg with
             | None => mret tt
             | Some session =>
                 match state session with
                 | Some IMPORT_PRIVATE_KEY => handleImportPrivateKey msg
                 | Some IMPORT_MNEMONIC => handleImportMnemonic msg
                 | Some BUY_TOKEN => handleBuyTokenAddress msg
                 | Some BUY_CUSTOM_AMOUNT => handleBuyCustomAmount msg
                 | Some SELL_TOKEN => handleSellTokenAddress msg
                 | Some SELL_CUSTOM_AMOUNT => handleSellCustomAmount msg
                 | _ => mret tt
                 end
             end
     end).

End Handlers.

(** ** The bot as a transition system *)

(** The patterns registered with [bot.onText]. *)
Inductive Command :=
  | cmd_start | cmd_help | cmd_createwallet | cmd_create_wallet
  | cmd_mywallet | cmd_balance | cmd_buy | cmd_sell.

(** One handler invocation.  A text update fires the [message] listener and
    the handler of every pattern the text matches, each as a step. *)
Inductive Event :=
  | TextMatches (c : Command) (msg : Message)
  | MessageEvent (msg : Message)
  | CallbackQuery (query : Query).

Definition handler (env : Env) (ev : Event) : Bot unit :=
  match ev with
  | TextMatches cmd_start msg => handleStart msg
  | TextMatches cmd_help msg => handleHelp msg
  | TextMatches cmd_createwallet msg => handleCreateWallet msg
  | TextMatches cmd_create_wallet msg => handleCreateNewWallet env msg
  | TextMatches cmd_mywallet msg => handleMyWallet env msg
  | TextMatches cmd_balance msg => handleBalance env msg
  | TextMatches cmd_buy msg => handleBuy env msg
  | TextMatches cmd_sell msg => handleSell msg
  | MessageEvent msg => on_message env msg
  | CallbackQuery query => on_callback_query env query
  end.

Definition run (m : Bot unit) (st : BotState) : BotState * list Action :=
  let '(_, st', out) := m st in (st', out).

Definition step (env : Env) (ev : Event) (st : BotState) : BotState :=
  fst (run (handler env ev) st).

Definition output (env : Env) (ev : Event) (st : BotState) : list Action :=
  snd (run (handler env ev) st).

(** The wallets come from [data/wallets.json]; no session survives a restart. *)
Definition initial (wallets : gmap Z Wallet) : BotState :=
  {| userWallets := wallets; userSessions := ∅ |}.

Inductive reachable : BotState -> Prop :=
  | reachable_initial wallets : reachable (initial wallets)
  | reachable_step env ev st : reachable st -> reachable (step env ev st).

(** A button press and a text message, as events. *)
Definition press (chat user : Z) (d : string) : Event :=
  CallbackQuery {| q_chat_id := chat; q_from_id := user; data := d |}.

Definition says (chat user : Z) (t : string) : Message :=
  {| chat_id := chat; from_id := user; text := Some t |}.

(** ** Properties of sessions *)

(** An amount is staged for confirmation. *)
Definition staged (s : Session) : Prop :=
  is_Some (monAmount s) \/ is_Some (tokenAmount s).

(** [parseFloat(session.tokenBalance) > 0] *)
Definition positive_balance (b : option string) : Prop :=
  match b with
  | Some b => JsNumber.gtb (JsNumber.parseFloat b) JsNumber.zero = true
  | None => False
  end.

(** The fields each state comes with: token data from the amount states on,
    a positive balance snapshot in the sell states, nothing staged before. *)
Definition session_ok (s : Session) : Prop :=
  match state s with
  | Some (BUY_AMOUNT | BUY_CUSTOM_AMOUNT) => is_Some (tokenInfo s)
  | Some (SELL_AMOUNT | SELL_CUSTOM_AMOUNT) =>
      is_Some (tokenInfo s) /\ positive_balance (tokenBalance s)
  | Some _ => tokenInfo s = None /\ monAmount s = None /\ tokenAmount s = None
  | None => False
  end.

Definition sessions_ok (st : BotState) : Prop :=
  map_Forall (fun _ s => session_ok s) (userSessions st).

Definition state_after {A} (m : Bot A) (st : BotState) : BotState := (m st).1.2.

Definition preserves {A} (m : Bot A) : Prop :=
  forall st, sessions_ok st -> sessions_ok (state_after m st).

(** *** Rounding to a number of decimal places

    Follows the specification's wording, "round(balance x pct / 100, 6 decimal
    places)": [amount] is a numeral with [f] fractional digits whose value
    [n / 10^f] is nearest to [x], the larger one of two. *)
Definition rounds_to (f : nat) (x : JsNumber.number) (amount : string) : Prop :=
  match x with
  | S754_zero _ =>
      JsNumber.read_numeral (list_ascii_of_string amount)
      = Some (JsNumber.NumDecimal false 0 (- Z.of_nat f))
  | S754_finite sg m e =>
      exists n : Z,
        JsNumber.read_numeral (list_ascii_of_string amount)
        = Some (JsNumber.NumDecimal sg (Z.to_N n) (- Z.of_nat f))
        /\ 0 <= n
        /\ 2 * (JsNumber.num_of m e * 10 ^ Z.of_nat f) - JsNumber.den_of e
           < 2 * n * JsNumber.den_of e
           <= 2 * (JsNumber.num_of m e * 10 ^ Z.of_nat f) + JsNumber.den_of e
  | _ => False
  end.

(** [|x| < 10^21], the range in which [toFixed] writes fixed notation. *)
Definition below_1e21 (x : JsNumber.number) : bool :=
  match x with
  | S754_zero _ => true
  | S754_finite _ m e => negb (JsNumber.at_least_1e21 m e)
  | _ => false
  end.

(** ** A small world for examples *)

Module Example.

Definition token : string := "0x00000000000000000000000000000000000000a1".

Definition alice : Z := 7.
Definition chat : Z := 70.

Definition alice_wallet : Wallet :=
  {| address := "0x00000000000000000000000000000000000000b2";
     privateKey := "0xkey"; mnemonic := None |}.

Definition wallets : gmap Z Wallet := {[ alice := alice_wallet ]}.

(** Alice holds [mon] wei of MON and [tokens] base units of an 18-decimal
    token; the router accepts every swap. *)
Definition world (mon tokens : N) : Env :=
  {| provider_getBalance := fun _ => Ok mon;
     erc20_balanceOf := fun _ _ => Ok tokens;
     erc20_decimals := fun _ => Ok 18%N;
     erc20_symbol := fun _ => Ok "TKN";
     erc20_name := fun _ => Ok "Token";
     router_swapExactETHForTokens := fun _ _ _ => Ok "0xhash";
     router_swapExactTokensForETH := fun _ _ _ => Ok "0xhash";
     Wallet_createRandom := alice_wallet;
     Wallet_fromPrivateKey := fun _ => Ok alice_wallet;
     Wallet_fromMnemonic := fun _ => Ok alice_wallet;
     monadScan_tokens := fun _ => [];
     monadScan_token := fun _ => {| marketCap := None; price := None |} |}.

(** Ten MON and ten tokens. *)
Definition env : Env := world (10 * 10 ^ 18) (10 * 10 ^ 18).

(** The same world with a router that rejects every swap. *)
Definition failing_env : Env :=
  {| provider_getBalance := provider_getBalance env;
     erc20_balanceOf := erc20_balanceOf env;
     erc20_decimals := erc20_decimals env;
     erc20_symbol := erc20_symbol env;
     erc20_name := erc20_name env;
     router_swapExactETHForTokens := fun _ _ _ => Error "execution reverted";
     router_swapExactTokensForETH := fun _ _ _ => Error "execution reverted";
     Wallet_createRandom := Wallet_createRandom env;
     Wallet_fromPrivateKey := Wallet_fromPrivateKey env;
     Wallet_fromMnemonic := Wallet_fromMnemonic env;
     monadScan_tokens := monadScan_tokens env;
     monadScan_token := monadScan_token env |}.

Definition info : TokenInfo :=
  {| ti_address := token; ti_decimals := 18; ti_symbol := "TKN";
     ti_name := "Token" |}.

(** Alice after [/buy] and the token address: choosing an amount. *)
Definition buying : BotState :=
  step env (MessageEvent (says chat alice token))
    (step env (TextMatches cmd_buy (says chat alice "/buy")) (initial wallets)).

(** ... after the [buy_5] button: 5 MON staged. *)
Definition buying_5 : BotState := step env (press chat alice "buy_5") buying.

(** ... after the [buy_custom] button: typing an amount. *)
Definition buying_custom : BotState :=
  step env (press chat alice "buy_custom") buying.

(** Alice after [/sell] and the token address: choosing a share of 10.0. *)
Definition selling : BotState :=
  step env (MessageEvent (says chat alice token))
    (step env (TextMatches cmd_sell (says chat alice "/sell")) (initial wallets)).

Definition selling_custom : BotState :=
  step env (press chat alice "sell_custom") selling.

(** The sessions of these states. *)
Definition buy_session : Session :=
  {| state := Some BUY_AMOUNT; tokenAddress := Some token;
     tokenInfo := Some info; tokenBalance := None;
     monAmount := None; tokenAmount := None |}.

Definition sell_session : Session :=
  {| state := Some SELL_AMOUNT; tokenAddress := Some token;
     tokenInfo := Some info; tokenBalance := Some "10.0";
     monAmount := None; tokenAmount := None |}.

(** A holder of 2^70 whole tokens: the product is 2^70, above 10^21. *)
Definition whale_env : Env := world 0 (2 ^ 70 * 10 ^ 18).

Definition whale_selling : BotState :=
  step whale_env (MessageEvent (says chat alice token))
    (step whale_env
       (TextMatches cmd_sell (says chat alice "/sell"))
       (initial wallets)).

End Example.

(** Text the message listener hands to the flow of the session's state: not
    empty, not a command, not address-shaped. *)
Definition flow_input (t : string) : bool :=
  negb (String.eqb t "") && negb (startsWith t "/") && negb (is_address (trim t)).

(** ** Notions for the properties of the handlers as a whole *)

(** The user an update comes from. *)
Definition event_user (ev : Event) : Z :=
  match ev with
  | TextMatches _ msg | MessageEvent msg => from_id msg
  | CallbackQuery query => q_from_id query
  end.

(** A computation relates the state it starts in to the state it leaves. *)
Definition respects (R : BotState -> BotState -> Prop) {A} (m : Bot A) : Prop :=
  forall st, R st (state_after m st).

(** The two stores hold for every user but [u] what they held before. *)
Definition same_elsewhere (u : Z) (st st' : BotState) : Prop :=
  forall v, v <> u ->
    userSessions st' !! v = userSessions st !! v
    /\ userWallets st' !! v = userWallets st !! v.

Definition same_wallets (st st' : BotState) : Prop :=
  userWallets st' = userWallets st.

Definition same_state (st st' : BotState) : Prop := st' = st.

(** The updates that can write [userWallets]: the [/create_wallet] command,
    the [create_wallet] and [delete_wallet] buttons, and text typed while the
    session awaits a private key or a mnemonic phrase. *)
Definition wallet_event (st : BotState) (ev : Event) : bool :=
  match ev with
  | TextMatches cmd_create_wallet _ => true
  | TextMatches _ _ => false
  | MessageEvent msg =>
      in_state (userSessions st !! from_id msg) IMPORT_PRIVATE_KEY
      || in_state (userSessions st !! from_id msg) IMPORT_MNEMONIC
  | CallbackQuery query =>
      String.eqb (data query) "create_wallet"
      || String.eqb (data query) "delete_wallet"
  end.

(** The updates that only look things up. *)
Definition read_only (ev : Event) : bool :=
  match ev with
  | TextMatches (cmd_start | cmd_help | cmd_mywallet | cmd_balance) _ => true
  | TextMatches _ _ => false
  | MessageEvent _ => false
  | CallbackQuery query =>
      startsWith (data query) "refresh_"
      || String.eqb (data query) "mywallet"
      || String.eqb (data query) "balance"
      || String.eqb (data query) "help"
      || String.eqb (data query) "show_private_key"
  end.

(** The session states in which the message listener hands text to a flow. *)
Definition expects_text (q : State) : bool :=
  match q with
  | IMPORT_PRIVATE_KEY | IMPORT_MNEMONIC | BUY_TOKEN | BUY_CUSTOM_AMOUNT
  | SELL_TOKEN | SELL_CUSTOM_AMOUNT => true
  | WALLET_MENU | BUY_AMOUNT | SELL_AMOUNT => false
  end.

(** A message the listener passes over: no text, a command, or text that is
    not address-shaped while the sender's session, if any, awaits no text. *)
Definition passed_over (st : BotState) (msg : Message) : bool :=
  match text msg with
  | None => true
  | Some t =>
      String.eqb t "" || startsWith t "/"
      || negb (is_address (trim t))
         && match userSessions st !! from_id msg with
            | None => true
            | Some s =>
                match state s with
                | Some q => negb (expects_text q)
                | None => true
                end
            end
  end.

(** Started in [st], the computation sends or logs something, or throws. *)
Definition answered {A} (m : Bot A) (st : BotState) : Prop :=
  (m st).2 <> [] \/ exists e, (m st).1.1 = Throw e.

(** *** Staged amounts

    What [session.monAmount] can hold: an amount of the menu, or the decimal
    rendering of a positive number. *)
Definition valid_monAmount (a : string) : Prop :=
  In a ["1"; "2"; "5"; "10"; "50"]
  \/ exists x, JsNumber.gtb x JsNumber.zero = true /\ a = JsNumber.toString x.

(** What [session.tokenAmount] can hold, given the session's balance
    snapshot: a percentage of the snapshot, or the rendering of a positive
    number that is not greater than the snapshot. *)
Definition valid_tokenAmount (snapshot : option string) (a : string) : Prop :=
  (exists pct,
     In pct [25; 50; 75; 100]
     /\ a = percent_amount (parseFloat_property snapshot) (JsNumber.of_Z pct))
  \/ exists x,
       JsNumber.gtb x JsNumber.zero = true
       /\ JsNumber.gtb x (parseFloat_property snapshot) = false
       /\ a = JsNumber.toString x.

Definition amounts_ok (s : Session) : Prop :=
  (forall a, monAmount s = Some a -> valid_monAmount a)
  /\ (forall a, tokenAmount s = Some a -> valid_tokenAmount (tokenBalance s) a).

(** Every session of the resulting state has [P] if every session of the
    starting state has. *)
Definition keeps (P : Session -> Prop) (st st' : BotState) : Prop :=
  map_Forall (fun _ s => P s) (userSessions st) ->
  map_Forall (fun _ s => P s) (userSessions st').

(** The token data of a session was fetched for the session's token. *)
Definition token_matches (s : Session) : Prop :=
  forall info, tokenInfo s = Some info -> tokenAddress s = Some (ti_address info).

(** The session awaits a typed amount. *)
Definition awaits_amount (s : Session) : Prop :=
  state s = Some BUY_CUSTOM_AMOUNT \/ state s = Some SELL_CUSTOM_AMOUNT.

(** Two sessions for the same token and balance snapshot. *)
Definition same_token (s s' : Session) : Prop :=
  tokenAddress s' = tokenAddress s
  /\ tokenInfo s' = tokenInfo s
  /\ tokenBalance s' = tokenBalance s.

(** Every session that awaits a typed amount in [st'] awaited it in [st]
    already, for the same token. *)
Definition still_awaiting (st st' : BotState) : Prop :=
  forall u s',
    userSessions st' !! u = Some s' -> awaits_amount s' ->
    exists s,
      userSessions st !! u = Some s /\ state s = state s' /\ same_token s s'.

(** The handlers run one after the other on a list of updates, in one world:
    the state they leave and everything they send. *)
Fixpoint trace (env : Env) (evs : list Event) (st : BotState)
  : BotState * list Action :=
  match evs with
  | [] => (st, [])
  | ev :: evs' =>
      let '(st1, out1) := run (handler env ev) st in
      let '(st2, out2) := trace env evs' st1 in
      (st2, out1 ++ out2)
  end.

(** Whether an error was logged. *)
Definition logs_error (out : list Action) : bool :=
  existsb (fun a => match a with logger_error _ => true | _ => false end) out.

(** The numeral [s] stands for exactly [v / 10^d]: it reads as [m * 10^-k]
    with [k <= d] and [m * 10^(d-k) = v]. *)
Definition denotes (s : string) (v d : N) : Prop :=
  exists m k : N,
    JsNumber.read_numeral (list_ascii_of_string s)
    = Some (JsNumber.NumDecimal false m (- Z.of_N k))
    /\ (k <= d)%N /\ (m * 10 ^ (d - k) = v)%N.

(** * Lemmas *)

(** ** Digit strings *)

Module CharsFacts.
Import Chars.

Lemma code_digit_char d : (d < 10)%N -> code (digit_char d) = (48 + d)%N.
Proof.
  intros H. unfold code, digit_char. apply N_ascii_embedding. lia.
Qed.

Lemma is_digit_digit_char d : (d < 10)%N -> is_digit (digit_char d) = true.
Proof.
  intros H. unfold is_digit. rewrite code_digit_char by done.
  apply andb_true_iff; split; apply N.leb_le; lia.
Qed.

Lemma digit_val_digit_char d : (d < 10)%N -> digit_val (digit_char d) = d.
Proof. intros H. unfold digit_val. rewrite code_digit_char by done. lia. Qed.

Lemma digits_value_app a b :
  digits_value (a ++ b)
  = (digits_value a * 10 ^ N.of_nat (List.length b) + digits_value b)%N.
Proof.
  unfold digits_value. rewrite fold_left_app.
  generalize (fold_left (fun acc c => (10 * acc + digit_val c)%N) a 0%N) as v.
  induction b as [|c b IH]; intros v; cbn [fold_left List.length].
  - cbn. lia.
  - rewrite IH, (IH (10 * 0 + digit_val c)%N).
    rewrite Nat2N.inj_succ, N.pow_succ_r'. lia.
Qed.

Lemma digits_aux_spec fuel : forall n acc,
  (n < 2 ^ N.of_nat (S fuel))%N ->
  exists c ds,
    digits_aux fuel n acc = (c :: ds) ++ acc
    /\ forallb is_digit (c :: ds) = true
    /\ digits_value (c :: ds) = n.
Proof.
  induction fuel as [|fuel IH]; intros n acc Hn.
  - exists (digit_char (n mod 10)), []. cbn in Hn.
    assert (n mod 10 = n)%N as E by (apply N.mod_small; lia).
    cbn [digits_aux app forallb]. rewrite E.
    rewrite is_digit_digit_char by lia. split; [done|split; [done|]].
    unfold digits_value; cbn [fold_left]. rewrite digit_val_digit_char by lia. lia.
  - cbn [digits_aux]. destruct (N.eqb_spec (n / 10) 0) as [E|E].
    + exists (digit_char (n mod 10)), [].
      assert (n mod 10 = n)%N as E'.
      { apply N.mod_small. apply N.div_small_iff in E; lia. }
      cbn [app forallb]. rewrite E'.
      assert (n < 10)%N by (rewrite <- E'; apply N.mod_lt; lia).
      rewrite is_digit_digit_char by lia. split; [done|split; [done|]].
      unfold digits_value; cbn [fold_left]. rewrite digit_val_digit_char by lia. lia.
    + destruct (IH (n / 10)%N (digit_char (n mod 10) :: acc)) as (c & ds & E1 & E2 & E3).
      { rewrite Nat2N.inj_succ, N.pow_succ_r' in Hn.
        apply N.Div0.div_lt_upper_bound. lia. }
      exists c, (ds ++ [digit_char (n mod 10)]). split; [|split].
      * rewrite E1. cbn [app]. by rewrite <- app_assoc.
      * change (c :: ds ++ [digit_char (n mod 10)])
          with ((c :: ds) ++ [digit_char (n mod 10)]).
        rewrite forallb_app, E2. cbn [forallb].
        rewrite is_digit_digit_char; [done|]. apply N.mod_lt; lia.
      * change (c :: ds ++ [digit_char (n mod 10)])
          with ((c :: ds) ++ [digit_char (n mod 10)]).
        rewrite digits_value_app, E3. unfold digits_value at 1. cbn [fold_left List.length].
        rewrite digit_val_digit_char by (apply N.mod_lt; lia).
        pose proof (N.div_mod n 10). change (N.of_nat 1) with 1%N. lia.
Qed.

Lemma digits_of_spec n :
  exists c ds,
    digits_of n = c :: ds
    /\ forallb is_digit (c :: ds) = true
    /\ digits_value (c :: ds) = n.
Proof.
  destruct (digits_aux_spec (N.to_nat (N.log2 n)) n []) as (c & ds & E1 & E2 & E3).
  - rewrite Nat2N.inj_succ, N2Nat.id.
    destruct n as [|p]; [done|]. apply N.log2_spec. lia.
  - exists c, ds. unfold digits_of. rewrite E1, app_nil_r. done.
Qed.

Lemma take_digits_app ds rest :
  forallb is_digit ds = true ->
  match rest with [] => True | c :: _ => is_digit c = false end ->
  take_digits (ds ++ rest) = (ds, rest).
Proof.
  intros Hds Hrest. induction ds as [|c ds IH]; cbn [app].
  - destruct rest as [|c r]; [done|]. cbn. by rewrite Hrest.
  - cbn [forallb] in Hds. apply andb_true_iff in Hds as [Hc Hds].
    cbn [take_digits]. rewrite Hc, IH by done. done.
Qed.

Lemma is_digit_range c : is_digit c = true -> (48 <= code c <= 57)%N.
Proof.
  unfold is_digit. intros [H1 H2]%andb_true_iff.
  apply N.leb_le in H1, H2. lia.
Qed.

End CharsFacts.

(** ** Numbers *)

Module NumberFacts.
Import JsNumber.

Lemma shr_1_nonneg mrs : 0 <= shr_m mrs -> 0 <= shr_m (shr_1 mrs).
Proof.
  destruct mrs as [m r s]. cbn [shr_m]. intros H.
  destruct m as [|p|p]; [done| |lia].
  destruct p; cbn; lia.
Qed.

Lemma iter_pos_shr_1_nonneg p : forall mrs,
  0 <= shr_m mrs -> 0 <= shr_m (SpecFloat.iter_pos shr_1 p mrs).
Proof.
  induction p as [p IH|p IH|]; intros mrs H; cbn [SpecFloat.iter_pos].
  - apply IH, IH, shr_1_nonneg, H.
  - apply IH, IH, H.
  - apply shr_1_nonneg, H.
Qed.

Lemma shr_fexp_nonneg m e l :
  0 <= m -> 0 <= shr_m (fst (shr_fexp prec emax m e l)).
Proof.
  intros H. unfold shr_fexp, shr.
  assert (0 <= shr_m (shr_record_of_loc m l)) as H0.
  { destruct l as [|[]]; cbn; done. }
  destruct (_ - e); cbn [fst]; try done.
  by apply iter_pos_shr_1_nonneg.
Qed.

Lemma round_nearest_even_nonneg m l : 0 <= m -> 0 <= round_nearest_even m l.
Proof.
  intros H. unfold round_nearest_even.
  destruct l as [|[]]; try done; [destruct (Z.even m)|]; lia.
Qed.

Lemma binary_round_aux_not_nan s m e l :
  0 <= m -> isNaN (binary_round_aux prec emax s m e l) = false.
Proof.
  intros H. unfold binary_round_aux.
  pose proof (shr_fexp_nonneg m e l H) as H1.
  destruct (shr_fexp prec emax m e l) as [mrs' e'] eqn:E1. cbn [fst] in H1.
  pose proof (shr_fexp_nonneg _ e' loc_Exact
                (round_nearest_even_nonneg _ (loc_of_shr_record mrs') H1)) as H2.
  destruct (shr_fexp prec emax (round_nearest_even _ _) e' loc_Exact)
    as [mrs'' e''] eqn:E2. cbn [fst] in H2.
  destruct (shr_m mrs'') as [|p|p]; [done| |lia].
  by destruct (e'' <=? _).
Qed.

Lemma of_decimal_not_nan neg m e : isNaN (of_decimal neg m e) = false.
Proof.
  unfold of_decimal. destruct m as [|p]; [done|].
  destruct (0 <=? e).
  - unfold binary_round. destruct (shl_align _ _ _) as [mz ez].
    by apply binary_round_aux_not_nan.
  - unfold SFdiv.
    destruct (SFdiv_core_binary prec emax (Z.pos p) 0 _ 0) as [[mz ez] lz] eqn:E.
    apply binary_round_aux_not_nan.
    unfold SFdiv_core_binary in E.
    set (m' := match _ - _ with Z0 => _ | Zpos _ => _ | Zneg _ => _ end) in E.
    assert (0 <= m') as Hm'.
    { subst m'. destruct (_ - _); [lia| |lia]. apply Z.shiftl_nonneg. lia. }
    pose proof (Z.div_pos m' (Z.pos (Z.to_pos (10 ^ (- e)))) Hm' ltac:(lia)) as Hq.
    unfold Z.div in Hq.
    destruct (Z.div_eucl m' _) as [q r]. by inversion E; subst.
Qed.

Lemma not_leb_zero_gtb x :
  isNaN x = false -> leb x zero = false -> gtb x zero = true.
Proof.
  unfold leb, gtb, SFleb, SFltb, zero.
  destruct x as [s|s| |s m e]; cbn; try done; by destruct s.
Qed.

Lemma compare_cont_flip m m' :
  PosDef.Pos.compare_cont Eq m' m = CompOpp (PosDef.Pos.compare_cont Eq m m').
Proof. symmetry. exact (Pos.compare_cont_antisym m m' Eq). Qed.

Lemma SFcompare_antisym x y :
  SFcompare y x = CompOpp <$> SFcompare x y.
Proof.
  destruct x as [s|s| |s m e], y as [s'|s'| |s' m' e']; cbn;
    try done; try (by destruct s); try (by destruct s'); try (by destruct s, s').
  destruct s, s'; try done; f_equal;
    rewrite (Z.compare_antisym e' e); destruct (e' ?= e); cbn; try done;
    rewrite (compare_cont_flip m m');
    by destruct (PosDef.Pos.compare_cont Eq m m').
Qed.

Lemma leb_not_gtb x y : leb x y = true -> gtb x y = false.
Proof.
  unfold leb, gtb, SFleb, SFltb. rewrite (SFcompare_antisym x y).
  destruct (SFcompare x y) as [[]|]; cbn; done.
Qed.

Lemma read_sign_digit c r :
  Chars.is_digit c = true -> read_sign (c :: r) = (false, c :: r).
Proof.
  intros Hc. unfold read_sign.
  assert (Ascii.eqb c "-" = false /\ Ascii.eqb c "+" = false) as (E1 & E2).
  { split; apply Ascii.eqb_neq; intros ?; subst c; done. }
  by rewrite E1, E2.
Qed.

Lemma not_Infinity_digit c r :
  Chars.is_digit c = true -> Chars.starts_with Infinity_chars (c :: r) = false.
Proof.
  intros Hc. unfold Infinity_chars. cbn [list_ascii_of_string Chars.starts_with].
  assert (Ascii.eqb "I" c = false) as ->; [|done].
  apply Ascii.eqb_neq; intros ?; subst c; done.
Qed.

Lemma read_unsigned_leading_digit neg c r :
  Chars.is_digit c = true ->
  exists m e, read_unsigned neg (c :: r) = Some (NumDecimal neg m e).
Proof.
  intros Hc. unfold read_unsigned. rewrite not_Infinity_digit by done.
  cbn [Chars.take_digits]. rewrite Hc.
  destruct (Chars.take_digits r) as [d r1].
  destruct (match r1 with [] => _ | _ => _ end) as [fp r2].
  cbn [app]. eauto.
Qed.

Lemma read_numeral_leading_digit c r :
  Chars.is_digit c = true ->
  exists m e, read_numeral (c :: r) = Some (NumDecimal false m e).
Proof.
  intros Hc. unfold read_numeral. rewrite read_sign_digit by done.
  by apply read_unsigned_leading_digit.
Qed.

Lemma digit_not_space c : Chars.is_digit c = true -> Chars.is_space c = false.
Proof.
  unfold Chars.is_digit, Chars.is_space. intros [H1 H2]%andb_true_iff.
  apply N.leb_le in H1, H2.
  apply orb_false_iff; split; [apply andb_false_iff; right; apply N.leb_gt|apply N.eqb_neq]; lia.
Qed.

Lemma parseFloat_leading_digit c r :
  Chars.is_digit c = true ->
  isNaN (parseFloat (string_of_list_ascii (c :: r))) = false.
Proof.
  intros Hc. unfold parseFloat. rewrite list_ascii_of_string_of_list_ascii.
  cbn [Chars.trim_start]. rewrite (digit_not_space c Hc).
  destruct (read_numeral_leading_digit c r Hc) as (m & e & ->).
  apply of_decimal_not_nan.
Qed.

End NumberFacts.

(** ** Reading back [toFixed], and balances written by [formatUnits] *)

Module FixedFacts.
Import JsNumber CharsFacts NumberFacts.

Lemma formatUnits_leading_digit v d :
  exists c r, formatUnits_chars v d = c :: r /\ Chars.is_digit c = true.
Proof.
  unfold formatUnits_chars.
  destruct (CharsFacts.digits_of_spec (v / 10 ^ d)%N) as (c & ds & -> & Hd & _).
  cbn [forallb] in Hd. apply andb_true_iff in Hd as [Hc _].
  destruct (d =? 0)%N; cbn [app]; eauto.
Qed.

Lemma parseFloat_formatUnits v d : isNaN (parseFloat (formatUnits v d)) = false.
Proof.
  unfold formatUnits.
  destruct (formatUnits_leading_digit v d) as (c & r & -> & Hc).
  by apply parseFloat_leading_digit.
Qed.

Lemma digits_value_zeros k : Chars.digits_value (repeat "0"%char k) = 0%N.
Proof.
  unfold Chars.digits_value.
  induction k as [|k IH]; [done|]. cbn [repeat fold_left]. exact IH.
Qed.

Lemma forallb_digit_zeros k : forallb Chars.is_digit (repeat "0"%char k) = true.
Proof. induction k as [|k IH]; [done|]. cbn [repeat forallb]. by rewrite IH. Qed.

(** Reading back what [toFixed] wrote. *)
Lemma read_unsigned_fixed neg a b :
  a <> [] ->
  forallb Chars.is_digit a = true -> forallb Chars.is_digit b = true ->
  read_unsigned neg (a ++ "."%char :: b)
  = Some (NumDecimal neg (Chars.digits_value (a ++ b)) (- Z.of_nat (List.length b))).
Proof.
  intros Ha Hda Hdb. destruct a as [|c a]; [done|]. clear Ha.
  pose proof Hda as Hc. cbn [forallb] in Hc. apply andb_true_iff in Hc as [Hc _].
  unfold read_unsigned. cbn [app]. rewrite not_Infinity_digit by done.
  change (c :: a ++ "."%char :: b) with ((c :: a) ++ "."%char :: b).
  rewrite (take_digits_app (c :: a) ("."%char :: b)) by done.
  cbn [Ascii.eqb Bool.eqb]. cbn match.
  rewrite <- (app_nil_r b) at 1. rewrite (take_digits_app b []) by done.
  cbn [app read_exponent]. done.
Qed.

Lemma fixed_point_shape f n :
  0 <= n ->
  exists a b,
    fixed_point (S f) n = a ++ "."%char :: b
    /\ a <> [] /\ List.length b = S f
    /\ forallb Chars.is_digit a = true /\ forallb Chars.is_digit b = true
    /\ Chars.digits_value (a ++ b) = Z.to_N n.
Proof.
  intros Hn. unfold fixed_point.
  destruct (CharsFacts.digits_of_spec (Z.to_N n)) as (c & ds & -> & Hd & Hv).
  set (l := repeat "0"%char (S (S f) - List.length (c :: ds)) ++ c :: ds).
  assert (S (S f) <= List.length l)%nat as Hl.
  { subst l. rewrite length_app, repeat_length. lia. }
  assert (forallb Chars.is_digit l = true) as Hdl.
  { subst l. by rewrite forallb_app, forallb_digit_zeros, Hd. }
  assert (Chars.digits_value l = Z.to_N n) as Hvl.
  { subst l. rewrite digits_value_app, digits_value_zeros, Hv. lia. }
  clearbody l.
  exists (firstn (List.length l - S f) l), (skipn (List.length l - S f) l).
  rewrite <- (firstn_skipn (List.length l - S f) l) in Hdl.
  rewrite forallb_app in Hdl. apply andb_true_iff in Hdl as [H1 H2].
  repeat split; try done.
  - intros E. apply (f_equal (@List.length _)) in E.
    rewrite length_firstn in E. change (List.length (@nil ascii)) with 0%nat in E. lia.
  - rewrite length_skipn. lia.
  - by rewrite firstn_skipn.
Qed.

Lemma nearest_scaled_spec f m e :
  let p := num_of m e * 10 ^ Z.of_nat f in
  let q := den_of e in
  let n := nearest_scaled f m e in
  0 <= n /\ 2 * p - q < 2 * n * q <= 2 * p + q.
Proof.
  intros p q n.
  assert (0 < q) as Hq.
  { subst q. unfold den_of. destruct (0 <=? e) eqn:E; [lia|].
    apply Z.pow_pos_nonneg; lia. }
  assert (0 <= p) as Hp.
  { subst p. unfold num_of. destruct (0 <=? e) eqn:E.
    - apply Z.leb_le in E. apply Z.mul_nonneg_nonneg; [|lia].
      apply Z.mul_nonneg_nonneg; lia.
    - apply Z.mul_nonneg_nonneg; lia. }
  subst n. unfold nearest_scaled. fold p q.
  pose proof (Z.div_mod (2 * p + q) (2 * q) ltac:(lia)) as Hdm.
  pose proof (Z.mod_pos_bound (2 * p + q) (2 * q) ltac:(lia)) as Hb.
  split; [apply Z.div_pos; lia|]. lia.
Qed.

Lemma toFixed_rounds f x :
  is_finite x = true -> below_1e21 x = true ->
  rounds_to (S f) x (toFixed (S f) x).
Proof.
  intros Hfin Hlt. unfold toFixed.
  destruct x as [s|s| |s m e]; try done.
  - unfold rounds_to. rewrite list_ascii_of_string_of_list_ascii.
    cbn [toFixed_chars].
    destruct (fixed_point_shape f 0 ltac:(lia)) as (a & b & -> & Ha & Hb & Hda & Hdb & Hv).
    assert (exists c a', a = c :: a') as (c & a' & ->) by (destruct a; [done|eauto]).
    pose proof Hda as Hc. cbn [forallb] in Hc. apply andb_true_iff in Hc as [Hc _].
    unfold read_numeral. cbn [app]. rewrite read_sign_digit by done.
    change (c :: a' ++ "."%char :: b) with ((c :: a') ++ "."%char :: b).
    rewrite read_unsigned_fixed by done. rewrite Hv, Hb. done.
  - cbn [below_1e21] in Hlt. apply negb_true_iff in Hlt.
    unfold rounds_to. rewrite list_ascii_of_string_of_list_ascii.
    cbn [toFixed_chars]. rewrite Hlt.
    pose proof (nearest_scaled_spec (S f) m e) as (Hn & Hr).
    exists (nearest_scaled (S f) m e). split; [|done].
    destruct (fixed_point_shape f _ Hn) as (a & b & -> & Ha & Hb & Hda & Hdb & Hv).
    assert (exists c a', a = c :: a') as (c & a' & ->) by (destruct a; [done|eauto]).
    pose proof Hda as Hc. cbn [forallb] in Hc. apply andb_true_iff in Hc as [Hc _].
    unfold read_numeral. destruct s.
    + cbn [app read_sign Ascii.eqb Bool.eqb]. cbn match.
      change (c :: a' ++ "."%char :: b) with ((c :: a') ++ "."%char :: b).
      rewrite read_unsigned_fixed by done. by rewrite Hv, Hb.
    + cbn [app]. rewrite read_sign_digit by done.
      change (c :: a' ++ "."%char :: b) with ((c :: a') ++ "."%char :: b).
      rewrite read_unsigned_fixed by done. by rewrite Hv, Hb.
Qed.

End FixedFacts.

(** ** The number model on known values *)

Module NumberExamples.
Import JsNumber.

Example parseFloat_tenth :
  parseFloat "0.1" = S754_finite false 7205759403792794 (-56).
Proof. vm_compute. reflexivity. Qed.

Example parseFloat_prefix : parseFloat "  12.5xyz" = parseFloat "12.5".
Proof. vm_compute. reflexivity. Qed.

Example parseFloat_hex_is_zero : parseFloat "0x10" = zero.
Proof. vm_compute. reflexivity. Qed.

Example parseFloat_dangling_exponent : parseFloat "1e" = parseFloat "1".
Proof. vm_compute. reflexivity. Qed.

Example parseFloat_no_digits : parseFloat "." = NaN /\ parseFloat "" = NaN.
Proof. split; vm_compute; reflexivity. Qed.

Example parseFloat_overflow : parseFloat "1e400" = S754_infinity false.
Proof. vm_compute. reflexivity. Qed.

Example parseFloat_underflow : parseFloat "2e-324" = zero.
Proof. vm_compute. reflexivity. Qed.

Example toString_shortest :
  toString (parseFloat "0.1") = "0.1"
  /\ toString (parseFloat "0.30000000000000004") = "0.30000000000000004"
  /\ toString (div (of_Z 1) (of_Z 3)) = "0.3333333333333333"
  /\ toString (parseFloat "9007199254740993") = "9007199254740992".
Proof. repeat split; vm_compute; reflexivity. Qed.

Example toString_exponent :
  toString (parseFloat "1e21") = "1e+21"
  /\ toString (parseFloat "123456789012345678901") = "123456789012345680000"
  /\ toString (parseFloat "0.000001") = "0.000001"
  /\ toString (parseFloat "0.0000001") = "1e-7"
  /\ toString (parseFloat "1e23") = "1e+23".
Proof. repeat split; vm_compute; reflexivity. Qed.

Example toFixed_ties :
  toFixed 2 (parseFloat "1.005") = "1.00"
  /\ toFixed 2 (parseFloat "8.345") = "8.35"
  /\ toFixed 0 (parseFloat "2.5") = "3"
  /\ toFixed 6 (parseFloat "-0.0000001") = "-0.000000".
Proof. repeat split; vm_compute; reflexivity. Qed.

Example toFixed_large : toFixed 6 (parseFloat "1e21") = "1e+21".
Proof. vm_compute. reflexivity. Qed.

Example formatUnits_values :
  formatUnits 1234500000000000000000 18 = "1234.5"
  /\ formatUnits 0 18 = "0.0"
  /\ formatUnits 1 18 = "0.000000000000000001"
  /\ formatUnits 5 0 = "5".
Proof. repeat split; vm_compute; reflexivity. Qed.

End NumberExamples.

(** ** The session invariant *)

Ltac bot_unfold :=
  unfold preserves, state_after, step, output, run, handler,
    handleStart, handleHelp, handleCreateWallet, handleCreateNewWallet,
    handleBalance, handleBuy, handleSell, handleContractAddressInput,
    handleImportPrivateKey, handleImportMnemonic, handleBuyTokenAddress,
    handleBuyAmountChoice, handleBuyCustomAmount, handleConfirmBuy,
    handleSellTokenAddress, handleSellAmountChoice, handleSellCustomAmount,
    handleConfirmSell, handleMyWallet, handleMyWalletImplementation, myWallet,
    handleRefreshToken, handleSellToken, msg_text_trim, in_state, state_is,
    asyncErrorHandler, try_catch, assign, property, await, emit, read,
    update_sessions, update_wallets, throw, mbind, mret, Bot_bind, Bot_ret.

Section Preserves.

Context {A B : Type}.

Lemma preserves_ret (a : A) : preserves (mret a : Bot A).
Proof. by intros st H. Qed.

Lemma preserves_throw e : preserves (throw e : Bot A).
Proof. by intros st H. Qed.

Lemma preserves_await (r : Result A) : preserves (await r).
Proof. destruct r; by intros st H. Qed.

Lemma preserves_property (o : option A) (p : A -> B) name :
  preserves (property o p name).
Proof. destruct o; by intros st H. Qed.

Lemma preserves_bind (m : Bot A) (f : A -> Bot B) :
  preserves m -> (forall a, preserves (f a)) -> preserves (m ≫= f).
Proof.
  intros Hm Hf st H. specialize (Hm st H).
  unfold state_after, mbind, Bot_bind in *.
  destruct (m st) as [[[a|e] st1] out1]; cbn in *; [|done].
  specialize (Hf a st1 Hm). unfold state_after in Hf.
  by destruct (f a st1) as [[r st2] out2].
Qed.

Lemma preserves_await_bind (r : Result A) (f : A -> Bot B) :
  (forall a, r = Ok a -> preserves (f a)) -> preserves (await r ≫= f).
Proof.
  intros Hf. destruct r as [a|e]; [|by intros st H].
  intros st H. specialize (Hf a eq_refl st H).
  unfold state_after, mbind, Bot_bind, await, mret, Bot_ret in *. cbn.
  by destruct (f a st) as [[r st2] out2].
Qed.

Lemma preserves_try_catch (m : Bot A) (h : string -> Bot A) :
  preserves m -> (forall e, preserves (h e)) -> preserves (try_catch m h).
Proof.
  intros Hm Hh st H. specialize (Hm st H).
  unfold state_after, try_catch in *.
  destruct (m st) as [[[a|e] st1] out1]; cbn in *; [done|].
  specialize (Hh e st1 Hm). unfold state_after in Hh.
  by destruct (h e st1) as [[r st2] out2].
Qed.

End Preserves.

Lemma preserves_emit a : preserves (emit a).
Proof. by intros st H. Qed.

Lemma preserves_read : preserves read.
Proof. by intros st H. Qed.

Lemma preserves_update_wallets f : preserves (update_wallets f).
Proof. by intros st H. Qed.

Lemma preserves_insert u s :
  session_ok s -> preserves (update_sessions (insert u s)).
Proof. intros Hs st H. by apply map_Forall_insert_2. Qed.

Lemma preserves_delete u : preserves (update_sessions (delete u)).
Proof. intros st H. by apply map_Forall_delete. Qed.

Lemma preserves_asyncErrorHandler chat fn :
  preserves fn -> preserves (asyncErrorHandler chat fn).
Proof.
  intros H. apply preserves_try_catch; [done|]. intros e.
  apply preserves_bind; [apply preserves_emit|]. intros _.
  destruct chat; [apply preserves_emit|apply preserves_ret].
Qed.

Lemma session_ok_new q :
  q <> BUY_AMOUNT -> q <> BUY_CUSTOM_AMOUNT ->
  q <> SELL_AMOUNT -> q <> SELL_CUSTOM_AMOUNT ->
  session_ok (new_session q).
Proof. destruct q; done. Qed.

(** A balance the wallet provider reports is a numeral, so a balance that is
    not [<= 0] is positive. *)
Lemma getTokenBalance_positive env addr token balance :
  getTokenBalance env addr token = Ok balance ->
  JsNumber.leb (JsNumber.parseFloat (tb_balance balance)) JsNumber.zero = false ->
  positive_balance (Some (tb_balance balance)).
Proof.
  unfold getTokenBalance. intros E Hle.
  repeat case_match; simplify_eq/=.
  apply NumberFacts.not_leb_zero_gtb; [|done].
  apply FixedFacts.parseFloat_formatUnits.
Qed.

Ltac preserves_step :=
  lazymatch goal with
  | |- preserves (asyncErrorHandler _ _) => apply preserves_asyncErrorHandler
  | |- preserves (try_catch _ _) => apply preserves_try_catch; [|intros ?]
  | |- preserves (await _ ≫= _) => apply preserves_await_bind; intros ? ?
  | |- preserves (_ ≫= _) => apply preserves_bind; [|intros ?]
  | |- preserves (emit _) => apply preserves_emit
  | |- preserves (mret _) => apply preserves_ret
  | |- preserves (throw _) => apply preserves_throw
  | |- preserves (await _) => apply preserves_await
  | |- preserves (property _ _ _) => apply preserves_property
  | |- preserves read => apply preserves_read
  | |- preserves (update_wallets _) => apply preserves_update_wallets
  | |- preserves (update_sessions (delete _)) => apply preserves_delete
  | |- preserves (update_sessions (insert _ _)) => apply preserves_insert
  | |- preserves (match ?x with _ => _ end) => destruct x eqn:?
  | |- preserves (let _ := _ in _) => cbv zeta
  end.

Ltac preserves_auto := repeat preserves_step.

Section HandlersPreserve.

Variable env : Env.

Lemma preserves_handleStart msg : preserves (handleStart msg).
Proof. unfold handleStart. preserves_auto. Qed.

Lemma preserves_handleHelp msg : preserves (handleHelp msg).
Proof. unfold handleHelp. preserves_auto. Qed.

Lemma preserves_handleCreateWallet msg : preserves (handleCreateWallet msg).
Proof. unfold handleCreateWallet. preserves_auto. by apply session_ok_new. Qed.

Lemma preserves_handleCreateNewWallet msg :
  preserves (handleCreateNewWallet env msg).
Proof. unfold handleCreateNewWallet. preserves_auto. Qed.

Lemma preserves_handleBalance msg : preserves (handleBalance env msg).
Proof. unfold handleBalance. preserves_auto. Qed.

Lemma preserves_handleBuy msg : preserves (handleBuy env msg).
Proof. unfold handleBuy. preserves_auto. by apply session_ok_new. Qed.

Lemma preserves_handleSell msg : preserves (handleSell msg).
Proof. unfold handleSell. preserves_auto. by apply session_ok_new. Qed.

Lemma preserves_handleContractAddressInput msg token :
  preserves (handleContractAddressInput env msg token).
Proof. unfold handleContractAddressInput. preserves_auto. Qed.

Lemma preserves_handleImportPrivateKey msg :
  preserves (handleImportPrivateKey env msg).
Proof. unfold handleImportPrivateKey, msg_text_trim. preserves_auto. Qed.

Lemma preserves_handleImportMnemonic msg :
  preserves (handleImportMnemonic env msg).
Proof. unfold handleImportMnemonic, msg_text_trim. preserves_auto. Qed.

Lemma preserves_handleBuyTokenAddress msg :
  preserves (handleBuyTokenAddress env msg).
Proof.
  unfold handleBuyTokenAddress, msg_text_trim. preserves_auto.
  - by cbn.
  - apply preserves_handleContractAddressInput.
Qed.

Lemma preserves_handleSellTokenAddress msg :
  preserves (handleSellTokenAddress env msg).
Proof.
  unfold handleSellTokenAddress, msg_text_trim. preserves_auto.
  - split; [by eexists|]. by eapply getTokenBalance_positive.
  - apply preserves_handleContractAddressInput.
Qed.

Lemma preserves_handleSellToken query token :
  preserves (handleSellToken env query token).
Proof.
  unfold handleSellToken. preserves_auto.
  split; [by eexists|]. by eapply getTokenBalance_positive.
Qed.

Lemma preserves_handleRefreshToken query token :
  preserves (handleRefreshToken env query token).
Proof. unfold handleRefreshToken. preserves_auto. Qed.

Lemma preserves_myWallet b msg : preserves (myWallet env b msg).
Proof. unfold myWallet. preserves_auto. Qed.

Lemma preserves_handleConfirmBuy query : preserves (handleConfirmBuy env query).
Proof. unfold handleConfirmBuy. preserves_auto. Qed.

Lemma preserves_handleConfirmSell query : preserves (handleConfirmSell env query).
Proof. unfold handleConfirmSell. preserves_auto. Qed.

(** The four handlers that assign to a field of the session they read. *)
Ltac preserves_assign :=
  bot_unfold; intros st Hok;
  repeat (case_match; simplify_eq/=; try done);
  try (rewrite lookup_insert_eq in *; simplify_eq/=);
  unfold sessions_ok in *; cbn;
  repeat apply map_Forall_insert_2; auto;
  match goal with
  | H : userSessions _ !! _ = Some _ |- _ => pose proof (Hok _ _ H)
  end;
  unfold session_ok in *; cbn in *;
  repeat case_match; simplify_eq/=; done.

Lemma preserves_handleBuyAmountChoice query :
  preserves (handleBuyAmountChoice query).
Proof. preserves_assign. Qed.

Lemma preserves_handleBuyCustomAmount msg :
  preserves (handleBuyCustomAmount env msg).
Proof. preserves_assign. Qed.

Lemma preserves_handleSellAmountChoice query :
  preserves (handleSellAmountChoice query).
Proof. preserves_assign. Qed.

Lemma preserves_handleSellCustomAmount msg :
  preserves (handleSellCustomAmount msg).
Proof. preserves_assign. Qed.

Lemma preserves_on_callback_query query :
  preserves (on_callback_query env query).
Proof.
  unfold on_callback_query. preserves_auto;
    try (by apply session_ok_new); try (by cbn);
    auto using preserves_handleRefreshToken, preserves_handleSellToken,
      preserves_handleCreateWallet, preserves_myWallet, preserves_handleBalance,
      preserves_handleBuy, preserves_handleSell, preserves_handleHelp,
      preserves_handleCreateNewWallet, preserves_handleBuyAmountChoice,
      preserves_handleSellAmountChoice, preserves_handleConfirmBuy,
      preserves_handleConfirmSell.
  apply preserves_myWallet.
Qed.

Lemma preserves_on_message msg : preserves (on_message env msg).
Proof.
  unfold on_message. preserves_auto;
    auto using preserves_handleContractAddressInput,
      preserves_handleBuyTokenAddress, preserves_handleSellTokenAddress,
      preserves_handleImportPrivateKey, preserves_handleImportMnemonic,
      preserves_handleBuyCustomAmount, preserves_handleSellCustomAmount.
Qed.

Lemma preserves_handler ev : preserves (handler env ev).
Proof.
  destruct ev as [[] msg|msg|query]; cbn [handler];
    auto using preserves_handleStart, preserves_handleHelp,
      preserves_handleCreateWallet, preserves_handleCreateNewWallet,
      preserves_myWallet, preserves_handleBalance, preserves_handleBuy,
      preserves_handleSell, preserves_on_message, preserves_on_callback_query.
  apply preserves_myWallet.
Qed.

End HandlersPreserve.

Lemma step_state_after env ev st :
  step env ev st = state_after (handler env ev) st.
Proof.
  unfold step, run, state_after. by destruct (handler env ev st) as [[r st'] out].
Qed.

Lemma reachable_sessions_ok st : reachable st -> sessions_ok st.
Proof.
  induction 1 as [wallets|env ev st _ IH].
  - apply map_Forall_empty.
  - rewrite step_state_after. by apply preserves_handler.
Qed.

(** ** The example states are reachable *)

Lemma reachable_buying : reachable Example.buying.
Proof. unfold Example.buying. do 2 apply reachable_step. apply reachable_initial. Qed.

Lemma reachable_buying_5 : reachable Example.buying_5.
Proof. unfold Example.buying_5. apply reachable_step, reachable_buying. Qed.

Lemma reachable_buying_custom : reachable Example.buying_custom.
Proof. unfold Example.buying_custom. apply reachable_step, reachable_buying. Qed.

Lemma reachable_selling : reachable Example.selling.
Proof. unfold Example.selling. do 2 apply reachable_step. apply reachable_initial. Qed.

Lemma reachable_selling_custom : reachable Example.selling_custom.
Proof. unfold Example.selling_custom. apply reachable_step, reachable_selling. Qed.

Lemma reachable_whale_selling : reachable Example.whale_selling.
Proof.
  unfold Example.whale_selling. do 2 apply reachable_step. apply reachable_initial.
Qed.

(** ** The session protocol *)

#[local] Arguments startsWith : simpl nomatch.
#[local] Arguments String.eqb : simpl nomatch.
#[local] Arguments replace_prefix : simpl never.
#[local] Arguments formatUnits : simpl never.
#[local] Arguments is_address : simpl never.
#[local] Arguments trim : simpl never.
#[local] Arguments percent_amount : simpl never.
#[local] Arguments percentage_of : simpl never.
#[local] Arguments JsNumber.parseFloat : simpl never.
#[local] Arguments JsNumber.toString : simpl never.
#[local] Arguments JsNumber.isNaN : simpl never.
#[local] Arguments JsNumber.leb : simpl never.
#[local] Arguments JsNumber.ltb : simpl never.
#[local] Arguments JsNumber.gtb : simpl never.

(** Rewrite with every equation that applies to the goal. *)
Ltac use_facts :=
  repeat match goal with
         | H : _ = _ |- _ => rewrite H; cbn
         end.

(** Run a handler symbolically. *)
Ltac exec :=
  bot_unfold; unfold on_message, on_callback_query; bot_unfold; cbn; use_facts.

Lemma asyncErrorHandler_returns chat fn st :
  (asyncErrorHandler chat fn st).1.1 = Normal tt.
Proof.
  unfold asyncErrorHandler, try_catch.
  destruct (fn st) as [[[[]|e] st1] out1]; cbn; [done|]. by destruct chat.
Qed.

Lemma staged_has_tokenInfo s :
  session_ok s -> staged s -> is_Some (tokenInfo s).
Proof.
  unfold session_ok, staged. intros Hok Hst.
  destruct (state s) as [[]|]; try done; try (by destruct Hok);
    destruct Hok as (_ & E1 & E2), Hst as [[a Ha]|[a Ha]]; congruence.
Qed.

(** *** Confirmation *)

Lemma confirm_buy_sessions env chat u st w s :
  userWallets st !! u = Some w ->
  userSessions st !! u = Some s ->
  is_Some (tokenInfo s) ->
  userSessions (step env (press chat u "confirm_buy") st)
  = delete u (userSessions st).
Proof.
  intros Hw Hs [info Hi]. exec. by destruct (buyToken env _ _ _).
Qed.

Lemma confirm_sell_sessions env chat u st w s :
  userWallets st !! u = Some w ->
  userSessions st !! u = Some s ->
  is_Some (tokenInfo s) ->
  userSessions (step env (press chat u "confirm_sell") st)
  = delete u (userSessions st).
Proof.
  intros Hw Hs [info Hi]. exec. by destruct (sellToken env _ _ _).
Qed.



(** *** Stale buttons *)

(** An amount button is ignored unless the session is in its state. *)
Lemma buy_choice_ignored env chat u st d :
  In d ["buy_1"; "buy_2"; "buy_5"; "buy_10"; "buy_50"; "buy_custom"] ->
  in_state (userSessions st !! u) BUY_AMOUNT = false ->
  step env (press chat u d) st = st
  /\ output env (press chat u d) st = [answerCallbackQuery].
Proof.
  intros Hd Hs. unfold in_state, state_is in Hs. cbn [In] in Hd.
  destruct Hd as [<-|[<-|[<-|[<-|[<-|[<-|[]]]]]]];
    (destruct (userSessions st !! u) as [s|] eqn:E;
       [destruct (state s) as [q|] eqn:Eq|]);
    exec; by destruct st.
Qed.

Lemma sell_choice_ignored env chat u st d :
  In d ["sell_25"; "sell_50"; "sell_75"; "sell_100"; "sell_custom"] ->
  in_state (userSessions st !! u) SELL_AMOUNT = false ->
  step env (press chat u d) st = st
  /\ output env (press chat u d) st = [answerCallbackQuery].
Proof.
  intros Hd Hs. unfold in_state, state_is in Hs. cbn [In] in Hd.
  destruct Hd as [<-|[<-|[<-|[<-|[<-|[]]]]]];
    (destruct (userSessions st !! u) as [s|] eqn:E;
       [destruct (state s) as [q|] eqn:Eq|]);
    exec; by destruct st.
Qed.

(** A confirmation is ignored when there is no session at all. *)
Lemma confirm_ignored_without_session env chat u st d :
  d = "confirm_buy" \/ d = "confirm_sell" ->
  userSessions st !! u = None ->
  step env (press chat u d) st = st
  /\ output env (press chat u d) st = [answerCallbackQuery].
Proof.
  intros [-> | ->] Hs; exec; by destruct st.
Qed.

(** With a session that carries token data, whatever its state, a
    confirmation runs the swap and deletes the session. *)
Lemma confirm_is_not_guarded_by_state env chat u st w s d :
  d = "confirm_buy" \/ d = "confirm_sell" ->
  userWallets st !! u = Some w ->
  userSessions st !! u = Some s ->
  is_Some (tokenInfo s) ->
  userSessions (step env (press chat u d) st) <> userSessions st.
Proof.
  intros Hd Hw Hs Hi E.
  assert (userSessions (step env (press chat u d) st) = delete u (userSessions st))
    as E'.
  { destruct Hd as [-> | ->];
      eauto using confirm_buy_sessions, confirm_sell_sessions. }
  rewrite E' in E. apply (f_equal (fun m => m !! u)) in E.
  rewrite lookup_delete_eq, Hs in E. discriminate E.
Qed.

(** C2, at its failing input.  Alice staged 5 MON with [buy_5] and then
    pressed [buy_custom], so her session awaits a typed amount in
    [BUY_CUSTOM_AMOUNT].  The earlier [confirm_buy] button is still on screen;
    pressing it is not ignored: [handleConfirmBuy] tests only that a session
    exists, sends the swap of 5 MON to the router and deletes the session. *)
Theorem stale_confirm_buy_is_executed :
  let st := step Example.env (press Example.chat Example.alice "buy_custom")
              Example.buying_5 in
  reachable st
  /\ (state <$> userSessions st !! Example.alice) = Some (Some BUY_CUSTOM_AMOUNT)
  /\ output Example.env (press Example.chat Example.alice "confirm_buy") st
     = [answerCallbackQuery;
        sendMessage Example.chat (ProcessingPurchase "TKN" (Some "5")) no_keyboard;
        editMessageText Example.chat (PurchaseSuccessful "TKN" (Some "5") "0xhash")
          no_keyboard;
        setTimeout_tokenDetails Example.chat (Some Example.token) Example.info]
  /\ userSessions
       (step Example.env (press Example.chat Example.alice "confirm_buy") st)
       !! Example.alice = None.
Proof.
  split; [apply reachable_step, reachable_buying_5|].
  repeat split; vm_compute; reflexivity.
Qed.

(** *** Fixed buy amounts *)

(** C8. In state [BUY_AMOUNT], each of the five fixed-amount buttons stages
    its amount and changes nothing else of the session: the state is still
    [BUY_AMOUNT], token address and token data are as before. *)
Theorem fixed_buy_amount_is_staged env chat u st s d a :
  userSessions st !! u = Some s ->
  state s = Some BUY_AMOUNT ->
  In (d, a) [("buy_1", "1"); ("buy_2", "2"); ("buy_5", "5");
             ("buy_10", "10"); ("buy_50", "50")] ->
  exists s',
    userSessions (step env (press chat u d) st) !! u = Some s'
    /\ s' = set_monAmount (Some a) s
    /\ monAmount s' = Some a
    /\ state s' = Some BUY_AMOUNT
    /\ tokenAddress s' = tokenAddress s
    /\ tokenInfo s' = tokenInfo s.
Proof.
  intros Hs Hq Hd. exists (set_monAmount (Some a) s).
  split; [|by repeat split].
  cbn [In] in Hd.
  destruct Hd as [E|[E|[E|[E|[E|[]]]]]]; injection E as <- <-;
    exec; destruct (tokenInfo s); cbn; apply lookup_insert_eq.
Qed.

Lemma fixed_buy_amount_is_staged_witness :
  exists s',
    userSessions
      (step Example.env (press Example.chat Example.alice "buy_10")
         Example.buying) !! Example.alice = Some s'
    /\ s' = set_monAmount (Some "10") Example.buy_session
    /\ monAmount s' = Some "10"
    /\ state s' = Some BUY_AMOUNT
    /\ tokenAddress s' = tokenAddress Example.buy_session
    /\ tokenInfo s' = tokenInfo Example.buy_session.
Proof.
  apply (fixed_buy_amount_is_staged Example.env Example.chat Example.alice
           Example.buying Example.buy_session "buy_10" "10").
  - vm_compute. reflexivity.
  - reflexivity.
  - cbn. tauto.
Defined.

(** *** Cancel *)

(** C9. With no session, [cancel] leaves the session store as it is and only
    acknowledges and answers "Operation cancelled."; nothing is logged as an
    error.  In any state, cancelling twice leaves the store as cancelling
    once does. *)
Theorem cancel_is_idempotent env env' chat u st :
  (userSessions st !! u = None ->
     userSessions (step env (press chat u "cancel") st) = userSessions st
     /\ output env (press chat u "cancel") st
        = [answerCallbackQuery;
           sendMessage chat OperationCancelled no_keyboard])
  /\ userSessions
       (step env' (press chat u "cancel") (step env (press chat u "cancel") st))
     = userSessions (step env (press chat u "cancel") st).
Proof.
  split.
  - intros Hs. split; [|done]. exec. by apply delete_id.
  - exec. apply delete_delete_eq.
Qed.

Lemma cancel_is_idempotent_witness :
  userSessions
    (step Example.env (press Example.chat Example.alice "cancel")
       (initial Example.wallets))
  = userSessions (initial Example.wallets)
  /\ output Example.env (press Example.chat Example.alice "cancel")
       (initial Example.wallets)
     = [answerCallbackQuery;
        sendMessage Example.chat OperationCancelled no_keyboard].
Proof.
  apply (proj1 (cancel_is_idempotent Example.env Example.env Example.chat
                  Example.alice (initial Example.wallets))).
  vm_compute. reflexivity.
Defined.

(** *** Address-shaped text *)

Lemma trim_end_head c r :
  Chars.is_space c = false -> exists r', Chars.trim_end (c :: r) = c :: r'.
Proof.
  intros Hc. cbn [Chars.trim_end]. rewrite Hc.
  destruct (Chars.trim_end r); eauto.
Qed.

(** Text that trims to an address is neither empty nor a command. *)
Lemma address_is_not_command t :
  is_address (trim t) = true ->
  String.eqb t "" = false /\ startsWith t "/" = false.
Proof.
  intros Ha. destruct t as [|c t]; [done|]. split; [done|].
  unfold startsWith. cbn [list_ascii_of_string Chars.starts_with].
  rewrite andb_true_r. apply Ascii.eqb_neq. intros <-.
  unfold is_address, trim in Ha. cbn [list_ascii_of_string Chars.trim_start] in Ha.
  change (Chars.is_space "/") with false in Ha. cbn match in Ha.
  destruct (trim_end_head "/"%char (list_ascii_of_string t) eq_refl) as [r' E].
  rewrite E, list_ascii_of_string_of_list_ascii in Ha.
  by destruct r'.
Qed.

(** C3. A text message that trims to [0x] and forty hexadecimal digits.
    - Without a wallet it is answered with the no-wallet error and nothing
      changes.
    - With a wallet and no session, or a session without a state, the session
      store is left as it is, and once the lookups return the answer is the
      token card with its buy, sell and cancel buttons.
    - With a wallet and a session in [BUY_TOKEN], once the token lookup
      returns the session is the one in [BUY_AMOUNT] carrying the address
      and the token data. *)
Theorem address_text_is_dispatched env chat u t st :
  is_address (trim t) = true ->
  let ev := MessageEvent (says chat u t) in
  (userWallets st !! u = None ->
     step env ev st = st
     /\ output env ev st = [sendMessage chat WALLET_NOT_FOUND no_keyboard])
  /\ (forall w,
        userWallets st !! u = Some w ->
        userSessions st !! u = None
        \/ (exists s, userSessions st !! u = Some s /\ state s = None) ->
        userSessions (step env ev st) = userSessions st
        /\ forall info balance monBalance,
             getTokenInfo env (trim t) = Ok info ->
             getTokenBalance env (address w) (trim t) = Ok balance ->
             getBalance env (address w) = Ok monBalance ->
             output env ev st
             = [sendMessage chat FetchingTokenInfo no_keyboard;
                editMessageText chat
                  (TokenFound info (getTokenDetails env (trim t))
                     (formattedBalance_of balance) monBalance)
                  [["buy_token_" +:+ trim t; "sell_token_" +:+ trim t;
                    "cancel"]]])
  /\ (forall w s info,
        userWallets st !! u = Some w ->
        userSessions st !! u = Some s ->
        state s = Some BUY_TOKEN ->
        getTokenInfo env (trim t) = Ok info ->
        userSessions (step env ev st) !! u
        = Some {| state := Some BUY_AMOUNT; tokenAddress := Some (trim t);
                  tokenInfo := Some info; tokenBalance := None;
                  monAmount := None; tokenAmount := None |}).
Proof.
  intros Ha ev. destruct (address_is_not_command t Ha) as [E1 E2].
  subst ev. unfold says. split; [|split].
  - intros Hw. exec. by destruct st.
  - intros w Hw Hs. split.
    + destruct Hs as [Hs|(s & Hs & Hq)]; exec;
        destruct (getTokenInfo env (trim t)); cbn; try done;
        destruct (getTokenBalance env (address w) (trim t)); cbn; try done;
        destruct (getBalance env (address w)); done.
    + intros info balance monBalance Hi Hb Hm.
      destruct Hs as [Hs|(s & Hs & Hq)]; exec; done.
  - intros w s info Hw Hs Hq Hi. exec. apply lookup_insert_eq.
Qed.

Lemma address_text_is_dispatched_witness :
  (userSessions
     (step Example.env (MessageEvent (says Example.chat Example.alice Example.token))
        (initial Example.wallets))
   = userSessions (initial Example.wallets))
  /\ userSessions
       (step Example.env
          (MessageEvent (says Example.chat Example.alice Example.token))
          (step Example.env
             (TextMatches cmd_buy (says Example.chat Example.alice "/buy"))
             (initial Example.wallets))) !! Example.alice
     = Some {| state := Some BUY_AMOUNT;
               tokenAddress := Some (trim Example.token);
               tokenInfo := Some Example.info; tokenBalance := None;
               monAmount := None; tokenAmount := None |}.
Proof.
  assert (is_address (trim Example.token) = true) as Ha
    by (vm_compute; reflexivity).
  split.
  - refine (proj1 (proj1 (proj2 (address_text_is_dispatched Example.env
              Example.chat Example.alice Example.token (initial Example.wallets)
              Ha)) Example.alice_wallet _ _)).
    + vm_compute. reflexivity.
    + left. vm_compute. reflexivity.
  - refine (proj2 (proj2 (address_text_is_dispatched Example.env
              Example.chat Example.alice Example.token
              (step Example.env
                 (TextMatches cmd_buy (says Example.chat Example.alice "/buy"))
                 (initial Example.wallets)) Ha))
              Example.alice_wallet (new_session BUY_TOKEN) Example.info _ _ _ _).
    + vm_compute. reflexivity.
    + vm_compute. reflexivity.
    + reflexivity.
    + vm_compute. reflexivity.
Defined.

(** *** Typed amounts *)

Lemma on_message_custom_amount env chat u st s t :
  flow_input t = true ->
  userSessions st !! u = Some s ->
  (state s = Some BUY_CUSTOM_AMOUNT ->
     run (on_message env (says chat u t)) st
     = run (handleBuyCustomAmount env (says chat u t)) st)
  /\ (state s = Some SELL_CUSTOM_AMOUNT ->
        run (on_message env (says chat u t)) st
        = run (handleSellCustomAmount (says chat u t)) st).
Proof.
  unfold flow_input. intros [[E1 E2]%andb_true_iff E3]%andb_true_iff Hs.
  apply negb_true_iff in E1, E2, E3.
  split; intros Hq; unfold on_message.
  - pose proof (asyncErrorHandler_returns (Some chat) _ st
                : (handleBuyCustomAmount env (says chat u t) st).1.1 = Normal tt)
      as Hret.
    set (h := handleBuyCustomAmount env (says chat u t)) in *. clearbody h.
    exec. by destruct (h st) as [[[[]|e] st1] out1].
  - pose proof (asyncErrorHandler_returns (Some chat) _ st
                : (handleSellCustomAmount (says chat u t) st).1.1 = Normal tt)
      as Hret.
    set (h := handleSellCustomAmount (says chat u t)) in *. clearbody h.
    exec. by destruct (h st) as [[[[]|e] st1] out1].
Qed.

Lemma positive_is_valid x :
  JsNumber.gtb x JsNumber.zero = true ->
  JsNumber.isNaN x = false /\ JsNumber.leb x JsNumber.zero = false.
Proof.
  unfold JsNumber.gtb, JsNumber.leb, SFltb, SFleb, JsNumber.zero.
  destruct x as [s|s| |s m e]; cbn; try done; by destruct s.
Qed.

(** C4. In state [BUY_CUSTOM_AMOUNT], text that [parseFloat] reads as NaN or
    as a number [<= 0] is answered with the invalid-amount prompt and nothing
    changes, the state included; ["0"], ["-2"] and ["abc"] are such texts.
    The text ["3.5"], with a wallet whose fresh balance is not below 3.5,
    moves the session to [BUY_AMOUNT] with ["3.5"] staged.  (The listener
    hands over every text that is no command and not address-shaped, see
    [on_message_custom_amount].) *)
Theorem buy_custom_amount_is_validated env chat u st s t :
  userSessions st !! u = Some s ->
  state s = Some BUY_CUSTOM_AMOUNT ->
  (JsNumber.isNaN (JsNumber.parseFloat (trim t))
   || JsNumber.leb (JsNumber.parseFloat (trim t)) JsNumber.zero = true ->
     run (handleBuyCustomAmount env (says chat u t)) st
     = (st, [sendMessage chat INVALID_AMOUNT no_keyboard]))
  /\ (forall bad, In bad ["0"; "-2"; "abc"] ->
        run (handleBuyCustomAmount env (says chat u bad)) st
        = (st, [sendMessage chat INVALID_AMOUNT no_keyboard]))
  /\ (forall w monBalance,
        t = "3.5" ->
        userWallets st !! u = Some w ->
        getBalance env (address w) = Ok monBalance ->
        JsNumber.ltb (JsNumber.parseFloat monBalance) (JsNumber.parseFloat "3.5")
        = false ->
        userSessions (run (handleBuyCustomAmount env (says chat u t)) st).1 !! u
        = Some (set_monAmount (Some "3.5") (set_state BUY_AMOUNT s))).
Proof.
  intros Hs Hq.
  assert (forall t',
            JsNumber.isNaN (JsNumber.parseFloat (trim t'))
            || JsNumber.leb (JsNumber.parseFloat (trim t')) JsNumber.zero = true ->
            run (handleBuyCustomAmount env (says chat u t')) st
            = (st, [sendMessage chat INVALID_AMOUNT no_keyboard])) as Hreject.
  { intros t' Hbad. exec. by destruct st. }
  split; [apply Hreject|split].
  - intros bad Hin. apply Hreject. cbn [In] in Hin.
    destruct Hin as [<-|[<-|[<-|[]]]]; vm_compute; reflexivity.
  - intros w monBalance -> Hw Hb Hlt.
    assert (JsNumber.isNaN (JsNumber.parseFloat (trim "3.5")) = false) as Hn
      by (vm_compute; reflexivity).
    assert (JsNumber.leb (JsNumber.parseFloat (trim "3.5")) JsNumber.zero = false)
      as Hl by (vm_compute; reflexivity).
    assert (JsNumber.toString (JsNumber.parseFloat (trim "3.5")) = "3.5") as Hts
      by (vm_compute; reflexivity).
    change (JsNumber.parseFloat "3.5") with (JsNumber.parseFloat (trim "3.5"))
      in Hlt.
    clear Hreject.
    exec. rewrite lookup_insert_eq. cbn.
    destruct (tokenInfo s); cbn; rewrite insert_insert_eq; apply lookup_insert_eq.
Qed.

Lemma buy_custom_amount_is_validated_witness :
  run (handleBuyCustomAmount Example.env (says Example.chat Example.alice "0"))
    Example.buying_custom
  = (Example.buying_custom, [sendMessage Example.chat INVALID_AMOUNT no_keyboard])
  /\ userSessions
       (run (handleBuyCustomAmount Example.env
               (says Example.chat Example.alice "3.5"))
          Example.buying_custom).1 !! Example.alice
     = Some (set_monAmount (Some "3.5")
               (set_state BUY_AMOUNT
                  (set_state BUY_CUSTOM_AMOUNT Example.buy_session))).
Proof.
  assert (userSessions Example.buying_custom !! Example.alice
          = Some (set_state BUY_CUSTOM_AMOUNT Example.buy_session)) as Hs
    by (vm_compute; reflexivity).
  split.
  - refine (proj1 (buy_custom_amount_is_validated Example.env Example.chat
              Example.alice Example.buying_custom _ "0" Hs eq_refl) _).
    vm_compute. reflexivity.
  - refine (proj2 (proj2 (buy_custom_amount_is_validated Example.env
              Example.chat Example.alice Example.buying_custom _ "3.5" Hs
              eq_refl))
              Example.alice_wallet "10.0" eq_refl _ _ _).
    + vm_compute. reflexivity.
    + vm_compute. reflexivity.
    + vm_compute. reflexivity.
Defined.





(** *** Selling a share of the balance *)

Lemma percentage_of_choice d pct :
  In (d, pct) [("sell_25", 25); ("sell_50", 50); ("sell_75", 75);
               ("sell_100", 100)] ->
  percentage_of d = JsNumber.of_Z pct
  /\ In d ["sell_25"; "sell_50"; "sell_75"; "sell_100"].
Proof.
  cbn [In]. intros [E|[E|[E|[E|[]]]]]; injection E as <- <-;
    (split; [vm_compute; reflexivity|cbn; tauto]).
Qed.

Lemma sell_percentage_sessions env chat u st s b d :
  userSessions st !! u = Some s ->
  state s = Some SELL_AMOUNT ->
  tokenBalance s = Some b ->
  In d ["sell_25"; "sell_50"; "sell_75"; "sell_100"] ->
  userSessions (step env (press chat u d) st) !! u
  = Some (set_tokenAmount
            (Some (percent_amount (JsNumber.parseFloat b) (percentage_of d))) s).
Proof.
  intros Hs Hq Hb Hd. cbn [In] in Hd.
  destruct Hd as [<-|[<-|[<-|[<-|[]]]]];
    exec; destruct (tokenInfo s); cbn; apply lookup_insert_eq.
Qed.




(** *** Entering the sell flow *)

Lemma substring_all s : String.substring 0 (String.length s) s = s.
Proof. induction s as [|c s IH]; [done|]. cbn. by rewrite IH. Qed.

Lemma sell_token_button token :
  startsWith ("sell_token_" +:+ token) "refresh_" = false
  /\ startsWith ("sell_token_" +:+ token) "sell_token_" = true
  /\ replace_prefix ("sell_token_" +:+ token) "sell_token_" = token.
Proof.
  repeat split; try reflexivity.
  unfold replace_prefix. simpl. rewrite ?Nat.sub_0_r. apply substring_all.
Qed.

(** C10. Both ways into [SELL_AMOUNT], the address typed in [SELL_TOKEN] and
    the sell-token button, read the token balance and test it against zero.
    A balance that is zero or less is answered with the no-tokens message and
    the state of the bot is left as it was; otherwise the balance is positive
    and becomes the snapshot of the new session.  So in every reachable state
    a session in [SELL_AMOUNT] has a snapshot above zero. *)
Theorem sell_amount_has_positive_balance env chat u st w info balance :
  userWallets st !! u = Some w ->
  (* the address typed in SELL_TOKEN *)
  (forall t s,
     is_address (trim t) = true ->
     userSessions st !! u = Some s ->
     state s = Some SELL_TOKEN ->
     getTokenInfo env (trim t) = Ok info ->
     getTokenBalance env (address w) (trim t) = Ok balance ->
     let ev := MessageEvent (says chat u t) in
     (JsNumber.leb (JsNumber.parseFloat (tb_balance balance)) JsNumber.zero
      = true ->
        step env ev st = st
        /\ output env ev st
           = [sendMessage chat FetchingTokenInfo no_keyboard;
              editMessageText chat (NoTokensToSell (ti_symbol info))
                no_keyboard])
     /\ (JsNumber.leb (JsNumber.parseFloat (tb_balance balance)) JsNumber.zero
         = false ->
           positive_balance (Some (tb_balance balance))
           /\ userSessions (step env ev st) !! u
              = Some {| state := Some SELL_AMOUNT;
                        tokenAddress := Some (trim t);
                        tokenInfo := Some info;
                        tokenBalance := Some (tb_balance balance);
                        monAmount := None; tokenAmount := None |}))
  (* the sell-token button *)
  /\ (forall token,
        getTokenInfo env token = Ok info ->
        getTokenBalance env (address w) token = Ok balance ->
        let ev := press chat u ("sell_token_" +:+ token) in
        (JsNumber.leb (JsNumber.parseFloat (tb_balance balance)) JsNumber.zero
         = true ->
           step env ev st = st
           /\ output env ev st
              = [answerCallbackQuery;
                 sendMessage chat (NoTokensToSell (ti_symbol info))
                   no_keyboard])
        /\ (JsNumber.leb (JsNumber.parseFloat (tb_balance balance))
              JsNumber.zero = false ->
              positive_balance (Some (tb_balance balance))
              /\ userSessions (step env ev st) !! u
                 = Some {| state := Some SELL_AMOUNT;
                           tokenAddress := Some token;
                           tokenInfo := Some info;
                           tokenBalance := Some (tb_balance balance);
                           monAmount := None; tokenAmount := None |}))
  (* every reachable session in SELL_AMOUNT *)
  /\ (forall st' u' s',
        reachable st' ->
        userSessions st' !! u' = Some s' ->
        state s' = Some SELL_AMOUNT ->
        positive_balance (tokenBalance s')).
Proof.
  intros Hw. split; [|split].
  - intros t s Ha Hs Hq Hi Hb ev. subst ev.
    destruct (address_is_not_command t Ha) as [E1 E2].
    split; intros Hle.
    + exec. by destruct st.
    + split; [by eapply getTokenBalance_positive|].
      exec. apply lookup_insert_eq.
  - intros token Hi Hb ev. subst ev.
    destruct (sell_token_button token) as (E1 & E2 & E3).
    split; intros Hle.
    + exec. by destruct st.
    + split; [by eapply getTokenBalance_positive|].
      exec. apply lookup_insert_eq.
  - intros st' u' s' Hr Hs Hq.
    pose proof (reachable_sessions_ok st' Hr u' s' Hs) as Hok. cbn in Hok.
    unfold session_ok in Hok. rewrite Hq in Hok. by destruct Hok.
Qed.

Lemma sell_amount_has_positive_balance_witness :
  (let st := step Example.env
               (TextMatches cmd_sell (says Example.chat Example.alice "/sell"))
               (initial Example.wallets) in
   let ev := MessageEvent (says Example.chat Example.alice Example.token) in
   step (Example.world 0 0) ev st = st
   /\ output (Example.world 0 0) ev st
      = [sendMessage Example.chat FetchingTokenInfo no_keyboard;
         editMessageText Example.chat (NoTokensToSell "TKN") no_keyboard])
  /\ positive_balance (tokenBalance Example.sell_session).
Proof.
  assert (userWallets
            (step Example.env
               (TextMatches cmd_sell (says Example.chat Example.alice "/sell"))
               (initial Example.wallets)) !! Example.alice
          = Some Example.alice_wallet) as Hw by (vm_compute; reflexivity).
  pose proof (sell_amount_has_positive_balance (Example.world 0 0) Example.chat
                Example.alice _ Example.alice_wallet Example.info
                {| tb_address := Example.token; tb_balance := "0.0";
                   tb_decimals := 18; tb_symbol := "TKN"; tb_name := "Token" |}
                Hw) as (Htyped & _ & Hreach).
  split.
  - apply (Htyped Example.token (new_session SELL_TOKEN)).
    + vm_compute. reflexivity.
    + vm_compute. reflexivity.
    + reflexivity.
    + vm_compute. reflexivity.
    + vm_compute. reflexivity.
    + vm_compute. reflexivity.
  - apply (Hreach Example.selling Example.alice Example.sell_session).
    + exact reachable_selling.
    + vm_compute. reflexivity.
    + reflexivity.
Defined.

(** * Further properties

    ** Positive decimals are positive numbers *)

Module PositiveFacts.
Import JsNumber.

Lemma digits2_pos_spec p :
  2 ^ (Zpos (digits2_pos p) - 1) <= Zpos p < 2 ^ Zpos (digits2_pos p).
Proof.
  induction p as [p IH|p IH|]; cbn [digits2_pos]; [| |cbn; lia].
  - rewrite Pos2Z.inj_succ.
    replace (Z.succ (Zpos (digits2_pos p)) - 1) with (Z.succ (Zpos (digits2_pos p) - 1)) by lia.
    rewrite !Z.pow_succ_r by lia. lia.
  - rewrite Pos2Z.inj_succ.
    replace (Z.succ (Zpos (digits2_pos p)) - 1) with (Z.succ (Zpos (digits2_pos p) - 1)) by lia.
    rewrite !Z.pow_succ_r by lia. lia.
Qed.

Lemma shr_1_m mrs : 0 <= shr_m mrs -> shr_m (shr_1 mrs) = shr_m mrs / 2.
Proof.
  destruct mrs as [m r s]. cbn [shr_m]. intros H.
  destruct m as [|p|p]; [done| |lia].
  destruct p as [p|p|]; cbn [shr_1 shr_m].
  - rewrite Pos2Z.inj_xI. apply Z.div_unique with 1; lia.
  - rewrite Pos2Z.inj_xO. apply Z.div_unique with 0; lia.
  - done.
Qed.

Lemma iter_pos_shr_1_m p : forall mrs,
  0 <= shr_m mrs ->
  shr_m (SpecFloat.iter_pos shr_1 p mrs) = shr_m mrs / 2 ^ Zpos p.
Proof.
  induction p as [p IH|p IH|]; intros mrs H; cbn [SpecFloat.iter_pos];
    try assert (0 < 2 ^ Zpos p) as Hp by (apply Z.pow_pos_nonneg; lia).
  - rewrite IH, IH, shr_1_m by
      (try apply NumberFacts.iter_pos_shr_1_nonneg;
       try apply NumberFacts.shr_1_nonneg; done).
    rewrite !Z.div_div by lia.
    f_equal. rewrite (Pos2Z.inj_xI p).
    replace (2 * Zpos p + 1) with (1 + Zpos p + Zpos p) by lia.
    rewrite (Z.pow_add_r 2 (1 + Zpos p) (Zpos p)) by lia.
    rewrite (Z.pow_add_r 2 1 (Zpos p)) by lia. change (2 ^ 1) with 2. ring.
  - rewrite IH, IH by (try apply NumberFacts.iter_pos_shr_1_nonneg; done).
    rewrite Z.div_div by lia.
    f_equal. rewrite (Pos2Z.inj_xO p).
    replace (2 * Zpos p) with (Zpos p + Zpos p) by lia.
    by rewrite (Z.pow_add_r 2 (Zpos p) (Zpos p)) by lia.
  - rewrite shr_1_m by done. done.
Qed.

Lemma shr_m_of_loc m l : shr_m (shr_record_of_loc m l) = m.
Proof. by destruct l as [|[]]. Qed.

(** Above the least exponent a positive mantissa stays positive. *)
Lemma shr_fexp_pos m e l :
  0 < m -> emin prec emax <= e ->
  0 < shr_m (fst (shr_fexp prec emax m e l))
  /\ emin prec emax <= snd (shr_fexp prec emax m e l).
Proof.
  intros Hm He. unfold shr_fexp, shr.
  destruct m as [|p|p]; try lia. cbn [Zdigits2].
  pose proof (digits2_pos_spec p) as Hd.
  set (d := Zpos (digits2_pos p)) in *.
  unfold fexp.
  destruct (Z.max (d + e - prec) (emin prec emax) - e) as [|n|n] eqn:En;
    cbn [fst snd]; rewrite ?shr_m_of_loc; try (split; lia).
  assert (Zpos n = d - prec) as En'.
  { unfold prec in *. lia. }
  rewrite iter_pos_shr_1_m by (rewrite shr_m_of_loc; lia).
  rewrite shr_m_of_loc, En'. split; [|unfold prec in *; lia].
  apply Z.div_str_pos. split; [apply Z.pow_pos_nonneg; unfold prec in *; lia|].
  etrans; [|apply Hd]. apply Z.pow_le_mono_r; unfold prec; lia.
Qed.

Lemma binary_round_aux_pos m e l :
  0 < m -> emin prec emax <= e ->
  gtb (binary_round_aux prec emax false m e l) zero = true.
Proof.
  intros Hm He. unfold binary_round_aux.
  destruct (shr_fexp_pos m e l Hm He) as [H1 H2].
  destruct (shr_fexp prec emax m e l) as [mrs' e'] eqn:E1. cbn [fst snd] in *.
  assert (0 < round_nearest_even (shr_m mrs') (loc_of_shr_record mrs')) as Hr.
  { unfold round_nearest_even.
    destruct (loc_of_shr_record mrs') as [|[]]; try lia.
    destruct (Z.even _); lia. }
  destruct (shr_fexp_pos _ e' loc_Exact Hr H2) as [H3 H4].
  destruct (shr_fexp prec emax _ e' loc_Exact) as [mrs'' e''] eqn:E2.
  cbn [fst snd] in *.
  destruct (shr_m mrs'') as [|p|p]; try lia.
  by destruct (e'' <=? _).
Qed.

Lemma of_decimal_pos m e :
  (0 < m)%N -> -323 <= e -> gtb (of_decimal false m e) zero = true.
Proof.
  intros Hm He. unfold of_decimal. destruct m as [|p]; [lia|].
  destruct (0 <=? e) eqn:E0.
  - unfold binary_round.
    set (mx := (p * Z.to_pos (10 ^ e))%positive).
    unfold shl_align.
    destruct (fexp prec emax (Zpos (digits2_pos mx) + 0) - 0) as [|n|n] eqn:En.
    + apply binary_round_aux_pos; [lia|]. by vm_compute.
    + apply binary_round_aux_pos; [lia|]. by vm_compute.
    + apply binary_round_aux_pos; [lia|].
      unfold fexp, emin, prec, emax in *. lia.
  - apply Z.leb_gt in E0. unfold SFdiv.
    set (q := Z.to_pos (10 ^ (- e))).
    assert (Zpos q = 10 ^ (- e)) as Hq.
    { subst q. rewrite Z2Pos.id; [done|]. apply Z.pow_pos_nonneg; lia. }
    assert (Zpos q < 2 ^ 1074) as Hq'.
    { rewrite Hq. apply Z.le_lt_trans with (10 ^ 323);
        [apply Z.pow_le_mono_r; lia|]. by vm_compute. }
    clearbody q.
    destruct (SFdiv_core_binary prec emax (Zpos p) 0 (Zpos q) 0)
      as [[mz ez] lz] eqn:E.
    cbn [xorb].
    unfold SFdiv_core_binary in E. cbn [Zdigits2] in E.
    pose proof (digits2_pos_spec p) as Hd1.
    pose proof (digits2_pos_spec q) as Hd2.
    set (d1 := Zpos (digits2_pos p)) in *.
    set (d2 := Zpos (digits2_pos q)) in *.
    set (e' := Z.min (fexp prec emax (d1 + 0 - (d2 + 0))) (0 - 0)) in E.
    assert (emin prec emax <= e' <= 0) as He'.
    { subst e'. unfold fexp, emin, prec, emax. lia. }
    set (m' := match 0 - 0 - e' with
               | Z0 => Zpos p | Zpos _ => Z.shiftl (Zpos p) (0 - 0 - e')
               | Zneg _ => 0 end) in E.
    assert (m' = Zpos p * 2 ^ (- e')) as Hm'.
    { subst m'. destruct (0 - 0 - e') as [|n|n] eqn:Es; [| |lia].
      - replace (- e') with 0 by lia. lia.
      - rewrite Z.shiftl_mul_pow2 by lia. f_equal. f_equal. lia. }
    assert (Zpos q <= m') as Hle.
    { rewrite Hm'.
      assert (0 <= - e' /\ (- e' = 1074 \/ d2 <= d1 - 1 + - e')) as [Hs Hc].
      { subst e'. unfold fexp, emin, prec, emax in *. lia. }
      generalize dependent (- e'). intros s _ Hs Hc.
      assert (0 < 2 ^ s) by (apply Z.pow_pos_nonneg; lia).
      destruct Hc as [->|Hc].
      - assert (1 * 2 ^ 1074 <= Zpos p * 2 ^ 1074)
          by (apply Z.mul_le_mono_nonneg_r; lia).
        lia.
      - assert (2 ^ d2 <= 2 ^ (d1 - 1 + s)) by (apply Z.pow_le_mono_r; lia).
        rewrite Z.pow_add_r in * by (subst d1; lia).
        assert (2 ^ (d1 - 1) * 2 ^ s <= Zpos p * 2 ^ s)
          by (apply Z.mul_le_mono_nonneg_r; lia).
        lia. }
    assert (0 < m' / Zpos q) as Hpos by (apply Z.div_str_pos; lia).
    unfold Z.div in Hpos. destruct (Z.div_eucl m' (Zpos q)) as [qq r].
    injection E as <- <- <-.
    apply binary_round_aux_pos; lia.
Qed.

End PositiveFacts.

(** ** The numerals [formatUnits] writes *)

Module UnitsFacts.
Import JsNumber CharsFacts NumberFacts FixedFacts.

Lemma strip_zeros_end_spec s :
  exists z, s = strip_zeros_end s ++ repeat "0"%char z.
Proof.
  induction s as [|c r [z IH]]; [by exists 0%nat|].
  cbn [strip_zeros_end]. destruct (strip_zeros_end r) as [|c' t] eqn:E.
  - cbn [app] in IH. destruct (Ascii.eqb_spec c "0") as [->|Hc].
    + exists (S z). cbn [app repeat]. by rewrite <- IH.
    + exists z. cbn [app]. by rewrite <- IH.
  - exists z. cbn [app] in *. by rewrite <- IH.
Qed.

Lemma digits_aux_length fuel : forall n acc d,
  (n < 10 ^ N.of_nat d)%N -> (1 <= d)%nat ->
  (List.length (Chars.digits_aux fuel n acc) <= d + List.length acc)%nat.
Proof.
  induction fuel as [|fuel IH]; intros n acc d Hn Hd; cbn [Chars.digits_aux].
  - cbn [List.length]. lia.
  - destruct (N.eqb_spec (n / 10) 0) as [E|E]; [cbn [List.length]; lia|].
    destruct d as [|[|d]]; [lia| |].
    + exfalso. apply E. apply N.div_small. cbn in Hn. lia.
    + etrans; [apply (IH _ _ (S d))|cbn [List.length]; lia]; [|lia].
      apply N.Div0.div_lt_upper_bound.
      rewrite <- N.pow_succ_r'. by rewrite <- Nat2N.inj_succ.
Qed.

Lemma digits_of_length n d :
  (n < 10 ^ N.of_nat d)%N -> (1 <= d)%nat ->
  (List.length (Chars.digits_of n) <= d)%nat.
Proof.
  intros Hn Hd. unfold Chars.digits_of.
  pose proof (digits_aux_length (N.to_nat (N.log2 n)) n [] d Hn Hd) as H.
  cbn [List.length] in H. lia.
Qed.

Lemma read_unsigned_integer neg a :
  a <> [] -> forallb Chars.is_digit a = true ->
  read_unsigned neg a = Some (NumDecimal neg (Chars.digits_value a) 0).
Proof.
  intros Ha Hda. destruct a as [|c a]; [done|]. clear Ha.
  pose proof Hda as Hc. cbn [forallb] in Hc. apply andb_true_iff in Hc as [Hc _].
  unfold read_unsigned. rewrite not_Infinity_digit by done.
  rewrite <- (app_nil_r (c :: a)) at 1.
  rewrite (take_digits_app (c :: a) []) by done.
  rewrite app_nil_r. cbn [read_exponent List.length]. done.
Qed.

Lemma read_numeral_digit c r :
  Chars.is_digit c = true -> read_numeral (c :: r) = read_unsigned false (c :: r).
Proof. intros Hc. unfold read_numeral. by rewrite read_sign_digit. Qed.

Lemma formatUnits_denotes v d : denotes (formatUnits v d) v d.
Proof.
  unfold denotes, formatUnits. rewrite list_ascii_of_string_of_list_ascii.
  unfold formatUnits_chars.
  destruct (digits_of_spec (v / 10 ^ d)%N) as (c & ds & Ew & Hdw & Hvw).
  pose proof Hdw as Hc. cbn [forallb] in Hc. apply andb_true_iff in Hc as [Hc _].
  destruct (N.eqb_spec d 0) as [->|Hd].
  - change (10 ^ 0)%N with 1%N in *. rewrite N.div_1_r in *.
    exists v, 0%N. rewrite Ew, read_numeral_digit by done.
    rewrite read_unsigned_integer by done. rewrite Hvw.
    split; [done|]. split; [done|].
    change (10 ^ (0 - 0))%N with 1%N. lia.
  - destruct (digits_of_spec (v mod 10 ^ d)%N) as (c' & ds' & Ef & Hdf & Hvf).
    assert (List.length (Chars.digits_of (v mod 10 ^ d)) <= N.to_nat d)%nat
      as Hlen.
    { apply digits_of_length; [|lia]. rewrite N2Nat.id.
      apply N.mod_lt. by apply N.pow_nonzero. }
    rewrite Ef in *.
    set (padded := repeat "0"%char (N.to_nat d - List.length (c' :: ds'))
                     ++ c' :: ds').
    assert (List.length padded = N.to_nat d) as Hpl.
    { subst padded. rewrite length_app, repeat_length. lia. }
    assert (forallb Chars.is_digit padded = true) as Hpd.
    { subst padded. by rewrite forallb_app, forallb_digit_zeros, Hdf. }
    assert (Chars.digits_value padded = (v mod 10 ^ d)%N) as Hpv.
    { subst padded. rewrite digits_value_app, digits_value_zeros, Hvf. lia. }
    clearbody padded.
    destruct (strip_zeros_end_spec padded) as [z Hz].
    set (stripped := strip_zeros_end padded) in *.
    assert (forallb Chars.is_digit stripped = true) as Hsd.
    { rewrite Hz, forallb_app in Hpd. by apply andb_true_iff in Hpd as [? _]. }
    assert (Chars.digits_value stripped * 10 ^ N.of_nat z = v mod 10 ^ d)%N
      as Hsv.
    { rewrite <- Hpv, Hz, digits_value_app, digits_value_zeros, repeat_length. lia. }
    assert (List.length stripped + z = N.to_nat d)%nat as Hsl.
    { rewrite <- Hpl, Hz at 1. by rewrite length_app, repeat_length. }
    clearbody stripped.
    pose proof (N.div_mod v (10 ^ d) ltac:(by apply N.pow_nonzero)) as Hdm.
    set (W := (v / 10 ^ d)%N) in *. set (R := (v mod 10 ^ d)%N) in *.
    clearbody W R.
    rewrite Ew. change ((c :: ds) ++ ?x) with (c :: (ds ++ x)).
    rewrite read_numeral_digit by done.
    change (c :: (ds ++ ?x)) with ((c :: ds) ++ x).
    destruct stripped as [|s0 stripped].
    + rewrite read_unsigned_fixed by done.
      exists (Chars.digits_value ((c :: ds) ++ ["0"%char])), 1%N.
      split; [done|]. split; [lia|].
      rewrite digits_value_app, Hvw. cbn [List.length] in *.
      change (Chars.digits_value ["0"%char]) with 0%N.
      change (N.of_nat 1) with 1%N.
      assert (10 ^ d = 10 * 10 ^ (d - 1))%N as Hp.
      { rewrite <- N.pow_succ_r'. f_equal. lia. }
      change (Chars.digits_value []) with 0%N in Hsv.
      rewrite Hp in Hdm. change (10 ^ 1)%N with 10%N. nia.
    + rewrite read_unsigned_fixed by done.
      exists (Chars.digits_value ((c :: ds) ++ s0 :: stripped)),
             (N.of_nat (List.length (s0 :: stripped))).
      split; [by rewrite nat_N_Z|]. split; [lia|].
      rewrite digits_value_app, Hvw.
      replace (d - N.of_nat (List.length (s0 :: stripped)))%N
        with (N.of_nat z) by lia.
      assert (10 ^ d
              = 10 ^ N.of_nat (List.length (s0 :: stripped)) * 10 ^ N.of_nat z)%N
        as Hp.
      { rewrite <- N.pow_add_r. f_equal. lia. }
      rewrite Hp in Hdm. nia.
Qed.

Lemma read_numeral_space c r :
  Chars.is_space c = true -> read_numeral (c :: r) = None.
Proof.
  destruct c as [[] [] [] [] [] [] [] []]; try discriminate; intros _;
    unfold read_numeral, read_sign, read_unsigned; cbn; done.
Qed.

Lemma parseFloat_of_denotes s v d :
  denotes s v d -> (d <= 323)%N ->
  (v = 0%N -> parseFloat s = zero)
  /\ ((0 < v)%N -> gtb (parseFloat s) zero = true).
Proof.
  intros (m & k & Hr & Hk & Hv) Hd.
  assert (parseFloat s = of_decimal false m (- Z.of_N k)) as ->.
  { unfold parseFloat.
    destruct (list_ascii_of_string s) as [|c r] eqn:E; [discriminate|].
    destruct (Chars.is_space c) eqn:Ec.
    - by rewrite read_numeral_space in Hr.
    - cbn [Chars.trim_start]. rewrite Ec, Hr. done. }
  split.
  - intros ->. assert (m = 0%N) as ->; [|done].
    apply N.eq_mul_0 in Hv as [?|Hv]; [done|].
    by apply N.pow_nonzero in Hv.
  - intros Hpos. apply PositiveFacts.of_decimal_pos; [|lia].
    destruct m; [|lia]. lia.
Qed.

End UnitsFacts.

(** ** The handlers as a whole *)

(** ** Relational properties of handlers *)

Section Respects.

Context (R : BotState -> BotState -> Prop) `{!PreOrder R}.
Context {A B : Type}.

Lemma respects_ret (a : A) : respects R (mret a : Bot A).
Proof. by intros st. Qed.

Lemma respects_throw e : respects R (throw e : Bot A).
Proof. by intros st. Qed.

Lemma respects_await (r : Result A) : respects R (await r).
Proof. destruct r; by intros st. Qed.

Lemma respects_property (o : option A) (p : A -> B) name :
  respects R (property o p name).
Proof. destruct o; by intros st. Qed.

Lemma respects_bind (m : Bot A) (f : A -> Bot B) :
  respects R m -> (forall a, respects R (f a)) -> respects R (m ≫= f).
Proof.
  intros Hm Hf st. specialize (Hm st).
  unfold state_after, mbind, Bot_bind in *.
  destruct (m st) as [[[a|e] st1] out1]; cbn in *; [|done].
  specialize (Hf a st1). unfold state_after in Hf.
  destruct (f a st1) as [[r st2] out2]. cbn in *. by etrans.
Qed.

Lemma respects_await_bind (r : Result A) (f : A -> Bot B) :
  (forall a, r = Ok a -> respects R (f a)) -> respects R (await r ≫= f).
Proof.
  intros Hf. destruct r as [a|e]; [|by intros st].
  intros st. specialize (Hf a eq_refl st).
  unfold state_after, mbind, Bot_bind, await, mret, Bot_ret in *. cbn.
  by destruct (f a st) as [[r st2] out2].
Qed.

Lemma respects_try_catch (m : Bot A) (h : string -> Bot A) :
  respects R m -> (forall e, respects R (h e)) -> respects R (try_catch m h).
Proof.
  intros Hm Hh st. specialize (Hm st).
  unfold state_after, try_catch in *.
  destruct (m st) as [[[a|e] st1] out1]; cbn in *; [done|].
  specialize (Hh e st1). unfold state_after in Hh.
  destruct (h e st1) as [[r st2] out2]. cbn in *. by etrans.
Qed.

End Respects.

Section RespectsUnit.

Context (R : BotState -> BotState -> Prop) `{!PreOrder R}.

Lemma respects_emit a : respects R (emit a).
Proof. by intros st. Qed.

Lemma respects_read : respects R read.
Proof. by intros st. Qed.

Lemma respects_asyncErrorHandler chat fn :
  respects R fn -> respects R (asyncErrorHandler chat fn).
Proof.
  intros H. apply respects_try_catch; [done..|]. intros e.
  apply respects_bind; [done|apply respects_emit|]. intros _.
  destruct chat; [apply respects_emit|by apply respects_ret].
Qed.

Lemma respects_assign u f name :
  (forall s, respects R (update_sessions (insert u (f s)))) ->
  respects R (assign u f name).
Proof.
  intros H. unfold assign. apply respects_bind; [done|apply respects_read|].
  intros st. destruct (userSessions st !! u); [apply H|by apply respects_throw].
Qed.

End RespectsUnit.

Ltac respects_step :=
  lazymatch goal with
  | |- respects _ (asyncErrorHandler _ _) =>
      apply respects_asyncErrorHandler; [try apply _|]
  | |- respects _ (try_catch _ _) =>
      apply respects_try_catch; [try apply _| |intros ?]
  | |- respects _ (await _ ≫= _) =>
      apply respects_await_bind; [try apply _|intros ? ?]
  | |- respects _ (_ ≫= _) => apply respects_bind; [try apply _| |intros ?]
  | |- respects _ (emit _) => apply respects_emit; try apply _
  | |- respects _ (mret _) => apply respects_ret; try apply _
  | |- respects _ (throw _) => apply respects_throw; try apply _
  | |- respects _ (await _) => apply respects_await; try apply _
  | |- respects _ (property _ _ _) => apply respects_property; try apply _
  | |- respects _ read => apply respects_read; try apply _
  | |- respects _ (assign _ _ _) =>
      apply respects_assign; [try apply _|intros ?]
  | |- respects _ (match ?x with _ => _ end) => destruct x eqn:?
  | |- respects _ (let _ := _ in _) => cbv zeta
  end.

Ltac respects_auto := repeat respects_step.

(** *** Every update is confined to the stores' entries of its user *)

Global Instance same_elsewhere_preorder u : PreOrder (same_elsewhere u).
Proof.
  split.
  - by intros st v Hv.
  - intros a b c H1 H2 v Hv. destruct (H1 v Hv), (H2 v Hv). split; congruence.
Qed.

Lemma same_elsewhere_sessions_insert u s :
  respects (same_elsewhere u) (update_sessions (insert u s)).
Proof. intros st v Hv. cbn. by rewrite lookup_insert_ne. Qed.

Lemma same_elsewhere_sessions_delete u :
  respects (same_elsewhere u) (update_sessions (delete u)).
Proof. intros st v Hv. cbn. by rewrite lookup_delete_ne. Qed.

Lemma same_elsewhere_wallets_insert u w :
  respects (same_elsewhere u) (update_wallets (insert u w)).
Proof. intros st v Hv. cbn. by rewrite lookup_insert_ne. Qed.

Lemma same_elsewhere_wallets_delete u :
  respects (same_elsewhere u) (update_wallets (delete u)).
Proof. intros st v Hv. cbn. by rewrite lookup_delete_ne. Qed.

Ltac unfold_handlers :=
  unfold handler, on_message, on_callback_query,
    handleStart, handleHelp, handleCreateWallet, handleCreateNewWallet,
    handleBalance, handleBuy, handleSell, handleContractAddressInput,
    handleImportPrivateKey, handleImportMnemonic, handleBuyTokenAddress,
    handleBuyAmountChoice, handleBuyCustomAmount, handleConfirmBuy,
    handleSellTokenAddress, handleSellAmountChoice, handleSellCustomAmount,
    handleConfirmSell, handleMyWallet, handleMyWalletImplementation, myWallet,
    handleRefreshToken, handleSellToken, msg_text_trim, message_of;
  cbn [chat_id from_id text q_chat_id q_from_id data].

Lemma handler_same_elsewhere env ev :
  respects (same_elsewhere (event_user ev)) (handler env ev).
Proof.
  destruct ev as [[] msg|msg|query]; cbn [event_user];
    do 2 (unfold_handlers; respects_auto);
    first [apply same_elsewhere_sessions_insert
          |apply same_elsewhere_sessions_delete
          |apply same_elsewhere_wallets_insert
          |apply same_elsewhere_wallets_delete].
Qed.

(** X1. Whatever the update and the world, the handlers an update from one
    user starts leave the session and the wallet of every other user as they
    were. *)
Theorem updates_are_confined_to_their_user env ev st v :
  v <> event_user ev ->
  userSessions (step env ev st) !! v = userSessions st !! v
  /\ userWallets (step env ev st) !! v = userWallets st !! v.
Proof.
  intros Hv. rewrite step_state_after.
  by apply (handler_same_elsewhere env ev st v).
Qed.

Lemma updates_are_confined_to_their_user_witness :
  userSessions (step Example.env (press Example.chat 8 "cancel") Example.buying)
    !! Example.alice
  = userSessions Example.buying !! Example.alice
  /\ userWallets (step Example.env (press Example.chat 8 "cancel") Example.buying)
       !! Example.alice
     = userWallets Example.buying !! Example.alice.
Proof.
  apply (updates_are_confined_to_their_user Example.env
           (press Example.chat 8 "cancel") Example.buying Example.alice).
  cbn. unfold Example.alice. lia.
Defined.

(** *** Pointwise unfolding of [state_after] *)

Lemma state_after_asyncErrorHandler chat fn st :
  state_after (asyncErrorHandler chat fn) st = state_after fn st.
Proof.
  unfold state_after, asyncErrorHandler, try_catch.
  destruct (fn st) as [[[[]|e] st1] out1]; cbn; [done|]. by destruct chat.
Qed.

Lemma state_after_read_bind {A} (f : BotState -> Bot A) st :
  state_after (read ≫= f) st = state_after (f st) st.
Proof.
  unfold state_after, mbind, Bot_bind, read.
  by destruct (f st st) as [[r st2] out2].
Qed.

Lemma state_after_emit_bind {A} a (f : unit -> Bot A) st :
  state_after (emit a ≫= f) st = state_after (f tt) st.
Proof.
  unfold state_after, mbind, Bot_bind, emit.
  by destruct (f tt st) as [[r st2] out2].
Qed.

(** A goal about one state, from the property of the computation. *)
Ltac by_respects :=
  lazymatch goal with
  | |- ?R ?st (state_after ?m ?st) =>
      let Hr := fresh in
      cut (respects R m); [intros Hr; exact (Hr st)|]
  end.

(** *** Who writes the wallet store *)

Global Instance same_wallets_preorder : PreOrder same_wallets.
Proof. split; [done|]. intros a b c H1 H2. unfold same_wallets in *. congruence. Qed.

Lemma same_wallets_update_sessions f :
  respects same_wallets (update_sessions f).
Proof. by intros st. Qed.

Ltac same_wallets_auto :=
  do 2 (unfold_handlers; respects_auto);
  try apply same_wallets_update_sessions; try congruence.

Lemma on_callback_query_same_wallets env query :
  String.eqb (data query) "create_wallet" = false ->
  String.eqb (data query) "delete_wallet" = false ->
  respects same_wallets (on_callback_query env query).
Proof. intros E1 E2. same_wallets_auto. Qed.

Lemma on_message_same_wallets env msg st :
  in_state (userSessions st !! from_id msg) IMPORT_PRIVATE_KEY = false ->
  in_state (userSessions st !! from_id msg) IMPORT_MNEMONIC = false ->
  same_wallets st (state_after (on_message env msg) st).
Proof.
  intros E1 E2. unfold on_message.
  rewrite state_after_asyncErrorHandler.
  destruct (text msg) as [t|]; [|done].
  destruct (_ || _); [done|]. cbv zeta.
  rewrite state_after_read_bind.
  destruct (userSessions st !! from_id msg) as [s|] eqn:Hs;
    [cbn in E1, E2; unfold state_is in E1, E2;
     destruct (state s) as [[]|] eqn:Hq|];
    try discriminate;
    repeat case_match; try done; by_respects; same_wallets_auto.
Qed.

(** X2. The wallet store is written only by the [/create_wallet] command, by
    the [create_wallet] and [delete_wallet] buttons, and by text received
    while the sender's session is in [IMPORT_PRIVATE_KEY] or
    [IMPORT_MNEMONIC].  Every other update, the whole buy and sell flows
    included, leaves [userWallets] as it was. *)
Theorem wallets_change_only_on_wallet_events env ev st :
  wallet_event st ev = false ->
  userWallets (step env ev st) = userWallets st.
Proof.
  intros H. rewrite step_state_after.
  change (same_wallets st (state_after (handler env ev) st)).
  destruct ev as [[] msg|msg|query]; cbn [wallet_event handler] in *;
    try discriminate.
  1-7: by_respects; same_wallets_auto.
  - apply orb_false_elim in H as [E1 E2]. by apply on_message_same_wallets.
  - apply orb_false_elim in H as [E1 E2].
    by apply on_callback_query_same_wallets.
Qed.

Lemma wallets_change_only_on_wallet_events_witness :
  userWallets
    (step Example.env (press Example.chat Example.alice "confirm_buy")
       Example.buying_5)
  = userWallets Example.buying_5.
Proof.
  apply (wallets_change_only_on_wallet_events Example.env
           (press Example.chat Example.alice "confirm_buy") Example.buying_5).
  reflexivity.
Defined.

(** *** Updates that only look things up *)

Global Instance same_state_preorder : PreOrder same_state.
Proof. split; [done|]. intros a b c H1 H2. unfold same_state in *. congruence. Qed.

Ltac same_state_auto := do 2 (unfold_handlers; respects_auto).

Lemma handleRefreshToken_same_state env query token :
  respects same_state (handleRefreshToken env query token).
Proof. same_state_auto. Qed.

Lemma handleBalance_same_state env msg :
  respects same_state (handleBalance env msg).
Proof. same_state_auto. Qed.

Lemma myWallet_same_state env b msg :
  respects same_state (myWallet env b msg).
Proof. same_state_auto. Qed.

Lemma handleHelp_same_state msg : respects same_state (handleHelp msg).
Proof. same_state_auto. Qed.

Lemma handleStart_same_state msg : respects same_state (handleStart msg).
Proof. same_state_auto. Qed.

(** X3. [/start], [/help], [/mywallet] and [/balance], the buttons
    [mywallet], [balance], [help] and [show_private_key], and every
    [refresh_...] button change neither store, whatever the lookups they make
    return or throw. *)
Theorem lookups_change_nothing env ev st :
  read_only ev = true -> step env ev st = st.
Proof.
  intros H. rewrite step_state_after.
  change (same_state st (state_after (handler env ev) st)).
  destruct ev as [[] msg|msg|query]; cbn [read_only handler] in *;
    try discriminate.
  1-4: by_respects;
      auto using handleStart_same_state, handleHelp_same_state,
        handleBalance_same_state, myWallet_same_state.
  - apply myWallet_same_state.
  - unfold on_callback_query.
    rewrite state_after_asyncErrorHandler, state_after_emit_bind. cbv zeta.
    destruct (startsWith (data query) "refresh_") eqn:E0.
    { by_respects. apply handleRefreshToken_same_state. }
    cbn [orb] in H.
    repeat (apply orb_prop in H as [H|H]);
      apply String.eqb_eq in H; rewrite H;
      cbv [startsWith Chars.starts_with list_ascii_of_string String.eqb
             Ascii.eqb Bool.eqb andb orb];
      by_respects; same_state_auto.
Qed.

Lemma lookups_change_nothing_witness :
  step Example.env
    (TextMatches cmd_balance (says Example.chat Example.alice "/balance"))
    Example.buying_5
  = Example.buying_5.
Proof.
  apply (lookups_change_nothing Example.env
           (TextMatches cmd_balance (says Example.chat Example.alice "/balance"))
           Example.buying_5).
  reflexivity.
Defined.

(** *** Commands and buttons that need a wallet *)

Lemma refresh_button token :
  startsWith ("refresh_" +:+ token) "refresh_" = true
  /\ replace_prefix ("refresh_" +:+ token) "refresh_" = token.
Proof.
  split; [reflexivity|].
  unfold replace_prefix. simpl. rewrite ?Nat.sub_0_r. apply substring_all.
Qed.

(** X4. For a user without a wallet, [/mywallet], [/balance], [/buy] and
    [/sell], the buttons of the same names, and the refresh and sell-token
    buttons of any token are answered with the no-wallet error alone, and
    nothing changes. *)
Theorem wallet_is_required env st (msg : Message) token :
  userWallets st !! from_id msg = None ->
  (forall c, In c [cmd_mywallet; cmd_balance; cmd_buy; cmd_sell] ->
     step env (TextMatches c msg) st = st
     /\ output env (TextMatches c msg) st
        = [sendMessage (chat_id msg) WALLET_NOT_FOUND no_keyboard])
  /\ (forall d,
        In d ["mywallet"; "balance"; "buy"; "sell";
              "refresh_" +:+ token; "sell_token_" +:+ token] ->
        let ev := press (chat_id msg) (from_id msg) d in
        step env ev st = st
        /\ output env ev st
           = [answerCallbackQuery;
              sendMessage (chat_id msg) WALLET_NOT_FOUND no_keyboard]).
Proof.
  intros Hw. split.
  - intros c Hc. cbn [In] in Hc.
    destruct Hc as [<-|[<-|[<-|[<-|[]]]]]; exec; by destruct st.
  - intros d Hd ev. subst ev. cbn [In] in Hd.
    destruct (refresh_button token) as (R1 & R2).
    destruct (sell_token_button token) as (S1 & S2 & S3).
    destruct Hd as [<-|[<-|[<-|[<-|[<-|[<-|[]]]]]]]; exec; by destruct st.
Qed.

Lemma wallet_is_required_witness :
  step Example.env (TextMatches cmd_buy (says Example.chat 8 "/buy"))
    (initial Example.wallets)
  = initial Example.wallets
  /\ output Example.env (TextMatches cmd_buy (says Example.chat 8 "/buy"))
       (initial Example.wallets)
     = [sendMessage Example.chat WALLET_NOT_FOUND no_keyboard].
Proof.
  refine (proj1 (wallet_is_required Example.env (initial Example.wallets)
                   (says Example.chat 8 "/buy") Example.token _) cmd_buy _).
  - vm_compute. reflexivity.
  - cbn. tauto.
Defined.

(** *** Buttons of the token cards *)

Lemma buy_token_button token :
  startsWith ("buy_token_" +:+ token) "refresh_" = false
  /\ startsWith ("buy_token_" +:+ token) "sell_token_" = false
  /\ startsWith ("buy_token_" +:+ token) "buy_token_" = true
  /\ replace_prefix ("buy_token_" +:+ token) "buy_token_" = token.
Proof.
  repeat split; try reflexivity.
  unfold replace_prefix. simpl. rewrite ?Nat.sub_0_r. apply substring_all.
Qed.

Lemma address_shape s :
  is_address s = true -> exists r, s = String "0" (String "x" r).
Proof.
  unfold is_address. destruct s as [|a [|b r]]; cbn; try discriminate.
  intros [[[Ha Hb]%andb_true_iff _]%andb_true_iff _]%andb_true_iff.
  apply Ascii.eqb_eq in Ha, Hb. subst. eauto.
Qed.

(** X5. The Buy button of a token card carries [buy_token_] followed by the
    address.  When the token lookup returns, the session of the user who
    pressed it is replaced by one in [BUY_AMOUNT] for exactly that address and
    the amount menu is sent, whether or not the user has a wallet.  When the
    lookup throws, nothing changes and the chat hears nothing: the press is
    acknowledged and the error is logged. *)
Theorem buy_button_opens_session_without_wallet_check env chat u st token :
  let ev := press chat u ("buy_token_" +:+ token) in
  (forall info,
     getTokenInfo env token = Ok info ->
     step env ev st
     = {| userWallets := userWallets st;
          userSessions :=
            <[u := {| state := Some BUY_AMOUNT; tokenAddress := Some token;
                      tokenInfo := Some info; tokenBalance := None;
                      monAmount := None; tokenAmount := None |}]>
              (userSessions st) |}
     /\ output env ev st
        = [answerCallbackQuery;
           sendMessage chat (HowMuchMON info token) buyAmountKeyboard])
  /\ (forall m,
        getTokenInfo env token = Error m ->
        step env ev st = st
        /\ output env ev st = [answerCallbackQuery; logger_error m]).
Proof.
  intros ev. subst ev.
  destruct (buy_token_button token) as (E1 & E2 & E3 & E4).
  split.
  - intros info Hi. by exec.
  - intros m Hi. exec. by destruct st.
Qed.

(** X6. The Sell button of the token details card carries [sell_] followed
    by the address.  For an address-shaped token no case of the dispatcher
    matches that: the press is acknowledged, nothing else is sent and nothing
    changes. *)
Theorem details_card_sell_button_is_ignored env chat u st token :
  is_address token = true ->
  refreshKeyboard token = [["refresh_" +:+ token; "sell_" +:+ token]]
  /\ step env (press chat u ("sell_" +:+ token)) st = st
  /\ output env (press chat u ("sell_" +:+ token)) st = [answerCallbackQuery].
Proof.
  intros [r ->]%address_shape. split; [reflexivity|].
  split; exec; by destruct st.
Qed.

Lemma details_card_sell_button_is_ignored_witness :
  step Example.env (press Example.chat Example.alice ("sell_" +:+ Example.token))
    Example.buying = Example.buying
  /\ output Example.env
       (press Example.chat Example.alice ("sell_" +:+ Example.token))
       Example.buying = [answerCallbackQuery].
Proof.
  apply (details_card_sell_button_is_ignored Example.env Example.chat
           Example.alice Example.buying Example.token).
  vm_compute. reflexivity.
Defined.

(** X7. A confirmation pressed by a user who has a session but no wallet on
    record, or whose session carries no token data (one in [WALLET_MENU] or
    [BUY_TOKEN], say), throws before anything is sent to the router or to the
    chat: the press is acknowledged, the error is logged, and the state, the
    session included, is as it was. *)
Theorem confirm_throws_without_wallet_or_token_data env chat u st s d :
  d = "confirm_buy" \/ d = "confirm_sell" ->
  userSessions st !! u = Some s ->
  userWallets st !! u = None \/ tokenInfo s = None ->
  step env (press chat u d) st = st
  /\ exists e,
       output env (press chat u d) st = [answerCallbackQuery; logger_error e].
Proof.
  intros Hd Hs Hmissing.
  destruct (userWallets st !! u) as [w|] eqn:Hw.
  - destruct Hmissing as [?|Hi]; [done|].
    destruct Hd as [-> | ->]; (split; [|eexists]); exec; by destruct st.
  - destruct Hd as [-> | ->]; (split; [|eexists]); exec; by destruct st.
Qed.

Lemma confirm_throws_without_wallet_or_token_data_witness :
  let st := step Example.env
              (TextMatches cmd_sell (says Example.chat Example.alice "/sell"))
              (initial Example.wallets) in
  step Example.env (press Example.chat Example.alice "confirm_sell") st = st
  /\ exists e,
       output Example.env (press Example.chat Example.alice "confirm_sell") st
       = [answerCallbackQuery; logger_error e].
Proof.
  intros st.
  apply (confirm_throws_without_wallet_or_token_data Example.env Example.chat
           Example.alice st (new_session SELL_TOKEN) "confirm_sell"
           (or_intror eq_refl)).
  - vm_compute. reflexivity.
  - right. reflexivity.
Defined.

(** *** Importing a wallet *)

Lemma flow_input_facts t :
  flow_input t = true ->
  String.eqb t "" = false /\ startsWith t "/" = false
  /\ is_address (trim t) = false.
Proof.
  unfold flow_input. intros [[E1 E2]%andb_true_iff E3]%andb_true_iff.
  by apply negb_true_iff in E1, E2, E3.
Qed.

(** X8. Text typed in [IMPORT_PRIVATE_KEY] or [IMPORT_MNEMONIC] (no command,
    not address-shaped) is trimmed and handed to the wallet library.  If it
    accepts, the wallet is stored for the sender (address and key alone for a
    private key), the file is saved, the session is deleted and the address is
    reported.  If it throws, the invalid-key or invalid-phrase message is
    sent and nothing changes, so the session still awaits the input. *)
Theorem import_stores_the_wallet_and_ends_the_session env chat u st s t :
  flow_input t = true ->
  userSessions st !! u = Some s ->
  let ev := MessageEvent (says chat u t) in
  (state s = Some IMPORT_PRIVATE_KEY ->
     (forall w,
        Wallet_fromPrivateKey env (trim t) = Ok w ->
        step env ev st
        = {| userWallets :=
               <[u := {| address := address w; privateKey := privateKey w;
                         mnemonic := None |}]> (userWallets st);
             userSessions := delete u (userSessions st) |}
        /\ output env ev st
           = [saveWallets;
              sendMessage chat (WalletImported (address w)) no_keyboard])
     /\ (forall m,
           Wallet_fromPrivateKey env (trim t) = Error m ->
           step env ev st = st
           /\ output env ev st
              = [sendMessage chat INVALID_PRIVATE_KEY no_keyboard]))
  /\ (state s = Some IMPORT_MNEMONIC ->
        (forall w,
           Wallet_fromMnemonic env (trim t) = Ok w ->
           step env ev st
           = {| userWallets := <[u := w]> (userWallets st);
                userSessions := delete u (userSessions st) |}
           /\ output env ev st
              = [saveWallets;
                 sendMessage chat (WalletImported (address w)) no_keyboard])
        /\ (forall m,
              Wallet_fromMnemonic env (trim t) = Error m ->
              step env ev st = st
              /\ output env ev st
                 = [sendMessage chat INVALID_MNEMONIC no_keyboard])).
Proof.
  intros (E1 & E2 & E3)%flow_input_facts Hs ev. subst ev.
  split; intros Hq; split.
  - intros w Hw.
    assert (importWalletFromPrivateKey env (trim t)
            = Ok {| address := address w; privateKey := privateKey w;
                    mnemonic := None |}) as Hi
      by (unfold importWalletFromPrivateKey; by rewrite Hw).
    clear Hw. by exec.
  - intros m Hw.
    assert (importWalletFromPrivateKey env (trim t)
            = Error ("Invalid private key: " +:+ m)) as Hi
      by (unfold importWalletFromPrivateKey; by rewrite Hw).
    clear Hw. exec. by destruct st.
  - intros w Hw.
    assert (importWalletFromMnemonic env (trim t) = Ok w) as Hi
      by (unfold importWalletFromMnemonic; by rewrite Hw).
    clear Hw. by exec.
  - intros m Hw.
    assert (importWalletFromMnemonic env (trim t)
            = Error ("Invalid mnemonic phrase: " +:+ m)) as Hi
      by (unfold importWalletFromMnemonic; by rewrite Hw).
    clear Hw. exec. by destruct st.
Qed.

Lemma import_stores_the_wallet_and_ends_the_session_witness :
  let st := step Example.env
              (press Example.chat 8 "import_private_key")
              (initial Example.wallets) in
  step Example.env (MessageEvent (says Example.chat 8 "0xkey")) st
  = {| userWallets :=
         <[8 := {| address := address Example.alice_wallet;
                   privateKey := privateKey Example.alice_wallet;
                   mnemonic := None |}]> (userWallets st);
       userSessions := delete 8 (userSessions st) |}
  /\ output Example.env (MessageEvent (says Example.chat 8 "0xkey")) st
     = [saveWallets;
        sendMessage Example.chat
          (WalletImported (address Example.alice_wallet)) no_keyboard].
Proof.
  intros st.
  refine (proj1 (proj1 (import_stores_the_wallet_and_ends_the_session
                          Example.env Example.chat 8 st
                          (new_session IMPORT_PRIVATE_KEY) "0xkey" _ _)
                   eq_refl)
            Example.alice_wallet eq_refl).
  - vm_compute. reflexivity.
  - vm_compute. reflexivity.
Defined.

(** *** Errors while a token address is awaited *)

(** X9. While a token address is awaited ([BUY_TOKEN] or [SELL_TOKEN]), text
    that is not address-shaped is answered with the invalid-address message,
    and an address whose token lookup (or, for a sale, balance lookup) throws
    is answered with the lookup error; in both cases nothing changes, so the
    session still awaits an address. *)
Theorem token_address_errors_keep_the_session env chat u st s t :
  userSessions st !! u = Some s ->
  state s = Some BUY_TOKEN \/ state s = Some SELL_TOKEN ->
  let ev := MessageEvent (says chat u t) in
  (flow_input t = true ->
     step env ev st = st
     /\ output env ev st = [sendMessage chat INVALID_ADDRESS no_keyboard])
  /\ (forall w m,
        is_address (trim t) = true ->
        userWallets st !! u = Some w ->
        getTokenInfo env (trim t) = Error m ->
        step env ev st = st
        /\ output env ev st
           = [sendMessage chat FetchingTokenInfo no_keyboard;
              editMessageText chat (ErrorFetchingTokenInfo m) no_keyboard])
  /\ (forall w info m,
        is_address (trim t) = true ->
        userWallets st !! u = Some w ->
        state s = Some SELL_TOKEN ->
        getTokenInfo env (trim t) = Ok info ->
        getTokenBalance env (address w) (trim t) = Error m ->
        step env ev st = st
        /\ output env ev st
           = [sendMessage chat FetchingTokenInfo no_keyboard;
              editMessageText chat (ErrorFetchingTokenInfo m) no_keyboard]).
Proof.
  intros Hs Hq ev. subst ev. split; [|split].
  - intros (E1 & E2 & E3)%flow_input_facts.
    destruct Hq as [Hq|Hq]; exec; by destruct st.
  - intros w m Ha Hw Hi. destruct (address_is_not_command t Ha) as [E1 E2].
    destruct Hq as [Hq|Hq]; exec; by destruct st.
  - intros w info m Ha Hw Hq' Hi Hb.
    destruct (address_is_not_command t Ha) as [E1 E2].
    exec. by destruct st.
Qed.

Lemma token_address_errors_keep_the_session_witness :
  let st := step Example.env
              (TextMatches cmd_buy (says Example.chat Example.alice "/buy"))
              (initial Example.wallets) in
  step Example.env (MessageEvent (says Example.chat Example.alice "hello")) st
  = st
  /\ output Example.env (MessageEvent (says Example.chat Example.alice "hello"))
       st
     = [sendMessage Example.chat INVALID_ADDRESS no_keyboard].
Proof.
  intros st.
  refine (proj1 (token_address_errors_keep_the_session Example.env Example.chat
                   Example.alice st (new_session BUY_TOKEN) "hello" _
                   (or_introl eq_refl)) _).
  - vm_compute. reflexivity.
  - vm_compute. reflexivity.
Defined.

(** *** Which messages are answered *)

Section Answered.

Context {A B : Type}.

Lemma answered_throw e st : answered (throw e : Bot A) st.
Proof. right. by exists e. Qed.

Lemma answered_bind (m : Bot A) (f : A -> Bot B) st :
  answered m st -> answered (m ≫= f) st.
Proof.
  unfold answered, mbind, Bot_bind.
  destruct (m st) as [[[a|e] st1] out1]; cbn.
  - intros [H|[e He]]; [|done]. left.
    destruct (f a st1) as [[r st2] out2]. cbn. by destruct out1.
  - intros _. right. by exists e.
Qed.

Lemma answered_read_bind (f : BotState -> Bot B) st :
  answered (f st) st -> answered (read ≫= f) st.
Proof.
  unfold answered, mbind, Bot_bind, read.
  by destruct (f st st) as [[r st2] out2].
Qed.

Lemma answered_ret_bind (a : A) (f : A -> Bot B) st :
  answered (f a) st -> answered (mret a ≫= f) st.
Proof.
  unfold answered, mbind, Bot_bind, mret, Bot_ret.
  by destruct (f a st) as [[r st2] out2].
Qed.

Lemma answered_await_bind (r : Result A) (f : A -> Bot B) st :
  (forall a, r = Ok a -> answered (f a) st) -> answered (await r ≫= f) st.
Proof.
  destruct r as [a|e]; [|intros _; right; by exists e].
  intros H. specialize (H a eq_refl).
  unfold answered, mbind, Bot_bind, await, mret, Bot_ret in *. cbn.
  by destruct (f a st) as [[r st2] out2].
Qed.

Lemma answered_property_bind {C} (o : option C) (p : C -> A) name
    (f : A -> Bot B) st :
  (forall c, o = Some c -> answered (f (p c)) st) ->
  answered (property o p name ≫= f) st.
Proof.
  destruct o as [c|]; [|intros _; right; by eexists].
  intros H. specialize (H c eq_refl).
  unfold answered, mbind, Bot_bind, property, mret, Bot_ret in *. cbn.
  by destruct (f (p c) st) as [[r st2] out2].
Qed.

Lemma answered_try_catch (m : Bot A) (h : string -> Bot A) st :
  answered m st -> (forall e st', answered (h e) st') ->
  answered (try_catch m h) st.
Proof.
  unfold answered, try_catch. intros Hm Hh.
  destruct (m st) as [[[a|e] st1] out1]; cbn in *.
  - destruct Hm as [H|[e He]]; [by left|done].
  - specialize (Hh e st1).
    destruct (h e st1) as [[r st2] out2]. cbn in *.
    destruct Hh as [H|H]; [left|by right].
    destruct out1; [done|discriminate].
Qed.

End Answered.

Lemma answered_emit a st : answered (emit a) st.
Proof. by left. Qed.

Lemma answered_emit_bind {B} a (f : unit -> Bot B) st :
  answered (emit a ≫= f) st.
Proof. apply answered_bind. by left. Qed.

Lemma answered_step_bind {B} (m : Bot unit) (f : unit -> Bot B) st :
  (forall st', answered (f tt) st') ->
  (forall st0, exists st1, m st0 = (Normal tt, st1, []) \/ exists e, m st0 = (Throw e, st1, [])) ->
  answered (m ≫= f) st.
Proof.
  intros Hf Hm. destruct (Hm st) as [st1 [E|[e E]]];
    unfold answered, mbind, Bot_bind; rewrite E.
  - specialize (Hf st1). unfold answered in Hf.
    by destruct (f tt st1) as [[r st2] out2].
  - right. by exists e.
Qed.

Lemma answered_update_sessions_bind {B} g (f : unit -> Bot B) st :
  (forall st', answered (f tt) st') -> answered (update_sessions g ≫= f) st.
Proof. intros H. apply answered_step_bind; [done|]. intros st0. eauto. Qed.

Lemma answered_update_wallets_bind {B} g (f : unit -> Bot B) st :
  (forall st', answered (f tt) st') -> answered (update_wallets g ≫= f) st.
Proof. intros H. apply answered_step_bind; [done|]. intros st0. eauto. Qed.

Lemma answered_assign_bind {B} u g name (f : unit -> Bot B) st :
  (forall st', answered (f tt) st') -> answered (assign u g name ≫= f) st.
Proof.
  intros H. apply answered_step_bind; [done|]. intros st0.
  unfold assign, mbind, Bot_bind, read, update_sessions, throw.
  destruct (userSessions st0 !! u); eauto.
Qed.

Lemma answered_asyncErrorHandler chat fn st :
  answered fn st -> (asyncErrorHandler chat fn st).2 <> [].
Proof.
  unfold answered, asyncErrorHandler, try_catch.
  destruct (fn st) as [[[[]|e] st1] out1]; cbn.
  - by intros [H|[e He]].
  - intros _. destruct chat; cbn; by destruct out1.
Qed.

Lemma answered_handler chat fn st :
  answered fn st -> answered (asyncErrorHandler chat fn) st.
Proof. left. by apply answered_asyncErrorHandler. Qed.

Ltac answered_step :=
  lazymatch goal with
  | |- answered (asyncErrorHandler _ _) _ => apply answered_handler
  | |- answered (emit _ ≫= _) _ => apply answered_emit_bind
  | |- answered (emit _) _ => apply answered_emit
  | |- answered (throw _) _ => apply answered_throw
  | |- answered (read ≫= _) _ => apply answered_read_bind
  | |- answered (mret _ ≫= _) _ => apply answered_ret_bind
  | |- answered (await _ ≫= _) _ => apply answered_await_bind; intros ? ?
  | |- answered (property _ _ _ ≫= _) _ =>
      apply answered_property_bind; intros ? ?
  | |- answered (assign _ _ _ ≫= _) _ => apply answered_assign_bind; intros ?
  | |- answered (update_sessions _ ≫= _) _ =>
      apply answered_update_sessions_bind; intros ?
  | |- answered (update_wallets _ ≫= _) _ =>
      apply answered_update_wallets_bind; intros ?
  | |- answered (try_catch _ _) _ => apply answered_try_catch; [|intros ? ?]
  | |- answered (match ?x with _ => _ end) _ =>
      first [ match goal with H : x = _ |- _ => rewrite H end
            | destruct x eqn:? ]
  | |- answered (let _ := _ in _) _ => cbv zeta
  end.

Ltac answered_auto :=
  repeat (answered_step; simplify_eq/=; try discriminate).

Lemma contract_address_input_answers env msg token st :
  answered (handleContractAddressInput env msg token) st.
Proof. unfold handleContractAddressInput. answered_auto. Qed.

Lemma flow_handlers_answer env chat u t st s q :
  userSessions st !! u = Some s ->
  state s = Some q ->
  answered
    match q with
    | IMPORT_PRIVATE_KEY => handleImportPrivateKey env (says chat u t)
    | IMPORT_MNEMONIC => handleImportMnemonic env (says chat u t)
    | BUY_TOKEN => handleBuyTokenAddress env (says chat u t)
    | BUY_CUSTOM_AMOUNT => handleBuyCustomAmount env (says chat u t)
    | SELL_TOKEN => handleSellTokenAddress env (says chat u t)
    | SELL_CUSTOM_AMOUNT => handleSellCustomAmount (says chat u t)
    | _ => emit answerCallbackQuery
    end st.
Proof.
  intros Hs Hq.
  destruct q; unfold_handlers; unfold in_state, state_is; answered_auto;
    try apply contract_address_input_answers.
  all: rewrite ?Hq in *; try discriminate.
Qed.

(** X10. The message listener is silent exactly on the messages it passes
    over: those without text, commands, and text that is not address-shaped
    while the sender has no session or one that awaits no text.  On these
    nothing changes; to every other message something is sent or logged. *)
Theorem unanswered_messages_are_the_passed_over env msg st :
  (passed_over st msg = true ->
     step env (MessageEvent msg) st = st
     /\ output env (MessageEvent msg) st = [])
  /\ (passed_over st msg = false -> output env (MessageEvent msg) st <> []).
Proof.
  unfold passed_over. destruct msg as [chat u [t|]]; cbn [text from_id].
  2: { split; [intros _; by exec|discriminate]. }
  destruct (String.eqb t "" || startsWith t "/") eqn:E0; cbn [orb].
  { split; [intros _|discriminate]. exec. by destruct st. }
  destruct (is_address (trim t)) eqn:Ea; cbn [negb andb].
  - split; [discriminate|intros _].
    unfold output, run, handler.
    enough ((on_message env {| chat_id := chat; from_id := u; text := Some t |} st).2 <> []) as H.
    { by destruct (on_message _ _ _) as [[r st'] out]. }
    unfold on_message. apply answered_asyncErrorHandler. cbn [text].
    rewrite E0. cbv zeta. apply answered_read_bind. rewrite Ea.
    cbn [from_id chat_id].
    pose proof (flow_handlers_answer env chat u t st) as Hflow.
    unfold says in Hflow.
    destruct (userWallets st !! u) as [w|] eqn:Hw; [|apply answered_emit].
    destruct (userSessions st !! u) as [s|] eqn:Hs;
      [destruct (state s) as [q|] eqn:Hq|];
      try apply contract_address_input_answers.
    destruct q; try apply contract_address_input_answers.
    + apply (Hflow s BUY_TOKEN eq_refl Hq).
    + apply (Hflow s SELL_TOKEN eq_refl Hq).
  - destruct (userSessions st !! u) as [s|] eqn:Hs;
      [destruct (state s) as [q|] eqn:Hq|].
    3: { split; [intros _|discriminate]. exec. by destruct st. }
    2: { split; [intros _|discriminate]. exec. by destruct st. }
    split.
    + intros Hq'. destruct q; try discriminate; exec; by destruct st.
    + intros Hq'.
      unfold output, run, handler.
      enough ((on_message env {| chat_id := chat; from_id := u; text := Some t |} st).2 <> []) as H.
      { by destruct (on_message _ _ _) as [[r st'] out]. }
      unfold on_message. apply answered_asyncErrorHandler. cbn [text].
      rewrite E0. cbv zeta. apply answered_read_bind. rewrite Ea.
      cbn [from_id chat_id]. rewrite Hs, Hq.
      pose proof (flow_handlers_answer env chat u t st s q Hs Hq) as Hflow.
      unfold says in Hflow.
      destruct q; try discriminate; exact Hflow.
Qed.

(** *** Staged amounts are menu amounts or validated input *)

Global Instance keeps_preorder P : PreOrder (keeps P).
Proof.
  split; [intros st H; exact H|]. intros a b c H1 H2 H. apply H2, H1, H.
Qed.

Lemma keeps_insert P u s :
  P s -> respects (keeps P) (update_sessions (insert u s)).
Proof. intros Hs st H. by apply map_Forall_insert_2. Qed.

Lemma keeps_delete P u : respects (keeps P) (update_sessions (delete u)).
Proof. intros st H. by apply map_Forall_delete. Qed.

Lemma keeps_update_wallets P f : respects (keeps P) (update_wallets f).
Proof. by intros st H. Qed.

Lemma keeps_assign P u f name :
  (forall s, P s -> P (f s)) -> respects (keeps P) (assign u f name).
Proof.
  intros Hf st H. unfold state_after, assign, mbind, Bot_bind, read.
  destruct (userSessions st !! u) as [s|] eqn:Hs; cbn; [|done].
  apply map_Forall_insert_2; [|done]. apply Hf. by apply (H u s).
Qed.

Lemma amounts_ok_fresh q a i b :
  amounts_ok {| state := q; tokenAddress := a; tokenInfo := i;
                tokenBalance := b; monAmount := None; tokenAmount := None |}.
Proof. split; intros x; discriminate. Qed.

Lemma amounts_ok_set_state q s : amounts_ok s -> amounts_ok (set_state q s).
Proof. by intros [H1 H2]. Qed.

Lemma amounts_ok_set_monAmount o s :
  amounts_ok s -> (forall a, o = Some a -> valid_monAmount a) ->
  amounts_ok (set_monAmount o s).
Proof. intros [H1 H2] Ho. by split. Qed.

Lemma amounts_ok_set_tokenAmount a s :
  amounts_ok s -> valid_tokenAmount (tokenBalance s) a ->
  amounts_ok (set_tokenAmount (Some a) s).
Proof.
  intros [H1 H2] Ha. split; [done|]. intros a' E. cbn in E. by injection E as <-.
Qed.

Lemma menu_amounts d :
  In d ["buy_1"; "buy_2"; "buy_5"; "buy_10"; "buy_50"] ->
  exists a, data_suffix d = Some a /\ In a ["1"; "2"; "5"; "10"; "50"].
Proof.
  cbn [In]. intros [<-|[<-|[<-|[<-|[<-|[]]]]]];
    [exists "1"|exists "2"|exists "5"|exists "10"|exists "50"];
    (split; [vm_compute; reflexivity|cbn; tauto]).
Qed.

Lemma percentages d :
  In d ["sell_25"; "sell_50"; "sell_75"; "sell_100"] ->
  exists pct, percentage_of d = JsNumber.of_Z pct /\ In pct [25; 50; 75; 100].
Proof.
  cbn [In]. intros [<-|[<-|[<-|[<-|[]]]]];
    [exists 25|exists 50|exists 75|exists 100];
    (split; [vm_compute; reflexivity|cbn; tauto]).
Qed.

Lemma typed_amount_is_positive x :
  JsNumber.isNaN x || JsNumber.leb x JsNumber.zero = false ->
  JsNumber.gtb x JsNumber.zero = true.
Proof.
  intros [H1 H2]%orb_false_elim. by apply NumberFacts.not_leb_zero_gtb.
Qed.

Ltac keeps_leaf :=
  first [ apply keeps_delete
        | apply keeps_update_wallets
        | apply keeps_insert; first [apply amounts_ok_fresh | done]
        | apply keeps_assign; intros ? ?; apply amounts_ok_set_state; done ].

Ltac keeps_step :=
  first [ apply keeps_assign; intros ? ? | respects_step ].

Ltac keeps_auto :=
  do 2 (unfold_handlers; unfold new_session; repeat keeps_step);
  try keeps_leaf.

Lemma handleBuyAmountChoice_amounts query :
  In (data query) ["buy_1"; "buy_2"; "buy_5"; "buy_10"; "buy_50"; "buy_custom"] ->
  respects (keeps amounts_ok) (handleBuyAmountChoice query).
Proof.
  intros Hd. unfold handleBuyAmountChoice. repeat keeps_step.
  - by apply amounts_ok_set_state.
  - apply amounts_ok_set_monAmount; [done|]. intros a' Ha. left.
    destruct (menu_amounts (data query)) as (a'' & E & Hin).
    { cbn [In] in *. destruct Hd as [?|[?|[?|[?|[?|[Hd|[]]]]]]]; try tauto.
      rewrite <- Hd in *. discriminate. }
    rewrite E in Ha. by injection Ha as <-.
Qed.

Lemma handleBuyCustomAmount_amounts env msg :
  respects (keeps amounts_ok) (handleBuyCustomAmount env msg).
Proof.
  unfold handleBuyCustomAmount, msg_text_trim. repeat keeps_step.
  - by apply amounts_ok_set_state.
  - apply amounts_ok_set_monAmount; [done|]. intros a' [= <-]. right.
    eexists. split; [|done]. by apply typed_amount_is_positive.
Qed.


Lemma state_after_ret_bind {A B} (a : A) (f : A -> Bot B) st :
  state_after (mret a ≫= f) st = state_after (f a) st.
Proof.
  unfold state_after, mbind, Bot_bind, mret, Bot_ret.
  by destruct (f a st) as [[r st2] out2].
Qed.

Lemma handleSellAmountChoice_amounts query st :
  In (data query) ["sell_25"; "sell_50"; "sell_75"; "sell_100"; "sell_custom"] ->
  keeps amounts_ok st (state_after (handleSellAmountChoice query) st).
Proof.
  intros Hd Hok. unfold handleSellAmountChoice.
  rewrite state_after_asyncErrorHandler, state_after_read_bind.
  destruct (userSessions st !! q_from_id query) as [s|] eqn:Hs; [|done].
  destruct (negb (state_is s SELL_AMOUNT)); [done|].
  destruct (Hok _ _ Hs) as [H1 H2].
  destruct (String.eqb (data query) "sell_custom") eqn:Ed.
  - bot_unfold. rewrite Hs. cbn. destruct (tokenInfo s); cbn;
      by apply map_Forall_insert_2.
  - destruct (percentages (data query)) as (pct & E & Hin).
    { cbn [In] in *. destruct Hd as [?|[?|[?|[?|[Hd|[]]]]]]; try tauto.
      rewrite <- Hd in *. discriminate. }
    bot_unfold. rewrite Hs. cbn. destruct (tokenInfo s); cbn;
      (apply map_Forall_insert_2; [|done]);
      (apply amounts_ok_set_tokenAmount; [done|]);
      left; exists pct; by rewrite E.
Qed.

Lemma handleSellCustomAmount_amounts msg st :
  keeps amounts_ok st (state_after (handleSellCustomAmount msg) st).
Proof.
  intros Hok. unfold handleSellCustomAmount, msg_text_trim.
  rewrite state_after_asyncErrorHandler.
  destruct (text msg) as [t|]; [|done]. cbn [property].
  rewrite state_after_ret_bind.
  destruct (_ || _) eqn:Ev; [done|].
  apply typed_amount_is_positive in Ev.
  rewrite state_after_read_bind.
  destruct (userSessions st !! from_id msg) as [s|] eqn:Hs; [|done].
  destruct (negb (state_is s SELL_CUSTOM_AMOUNT)); [done|].
  pose proof (Hok _ _ Hs) as Hs'.
  destruct (JsNumber.gtb _ (parseFloat_property _)) eqn:Eg.
  - bot_unfold. by destruct (tokenInfo s).
  - bot_unfold. rewrite Hs. cbn. rewrite lookup_insert_eq. cbn.
    destruct (tokenInfo s); cbn; rewrite insert_insert_eq;
      (apply map_Forall_insert_2; [|done]);
      (apply amounts_ok_set_tokenAmount; [by apply amounts_ok_set_state|]);
      right; eexists; by repeat split.
Qed.

Ltac data_in_list :=
  cbn [In];
  match goal with
  | H : _ || _ = true |- _ =>
      repeat (apply orb_prop in H as [H|H]); apply String.eqb_eq in H;
      rewrite H; repeat (first [by left | right])
  end.

Lemma on_callback_query_amounts env query :
  respects (keeps amounts_ok) (on_callback_query env query).
Proof.
  unfold on_callback_query. repeat keeps_step; try keeps_leaf.
  all: try (apply handleBuyAmountChoice_amounts; data_in_list).
  all: try (intros st; apply handleSellAmountChoice_amounts; data_in_list).
  all: keeps_auto.
Qed.

Lemma on_message_amounts env msg :
  respects (keeps amounts_ok) (on_message env msg).
Proof.
  unfold on_message. repeat keeps_step; try keeps_leaf.
  all: try apply handleBuyCustomAmount_amounts.
  all: try (intros st; apply handleSellCustomAmount_amounts).
  all: keeps_auto.
Qed.

Lemma handler_amounts env ev : respects (keeps amounts_ok) (handler env ev).
Proof.
  destruct ev as [[] msg|msg|query]; cbn [handler];
    auto using on_message_amounts, on_callback_query_amounts; keeps_auto.
Qed.

Lemma reachable_amounts_ok st :
  reachable st -> map_Forall (fun _ s => amounts_ok s) (userSessions st).
Proof.
  induction 1 as [wallets|env ev st _ IH].
  - apply map_Forall_empty.
  - rewrite step_state_after. by apply handler_amounts.
Qed.

Lemma not_gtb_leb x y :
  JsNumber.isNaN x = false -> JsNumber.isNaN y = false ->
  JsNumber.gtb x y = false -> JsNumber.leb x y = true.
Proof.
  unfold JsNumber.leb, JsNumber.gtb, SFleb, SFltb.
  rewrite (NumberFacts.SFcompare_antisym x y).
  intros Hx Hy.
  assert (is_Some (SFcompare x y)) as [c Hc].
  { destruct x as [s|s| |s m e], y as [s'|s'| |s' m' e']; cbn in *;
      try done; try (by destruct s); try (by destruct s');
      try (by destruct s, s').
    all: destruct s, s'; try done; destruct (e ?= e'); cbn; eauto. }
  rewrite Hc. by destruct c.
Qed.



(** *** The amount buttons never fail *)



(** *** The token data belongs to the session's token *)

Lemma getTokenInfo_address env token info :
  getTokenInfo env token = Ok info -> ti_address info = token.
Proof.
  unfold getTokenInfo. intros H.
  destruct (erc20_decimals env token), (erc20_symbol env token),
    (erc20_name env token); by simplify_eq/=.
Qed.

Lemma token_matches_fresh q :
  token_matches {| state := q; tokenAddress := None; tokenInfo := None;
                   tokenBalance := None; monAmount := None;
                   tokenAmount := None |}.
Proof. intros info. discriminate. Qed.

Lemma token_matches_info env token info q b :
  getTokenInfo env token = Ok info ->
  token_matches {| state := q; tokenAddress := Some token;
                   tokenInfo := Some info; tokenBalance := b;
                   monAmount := None; tokenAmount := None |}.
Proof.
  intros H info' [= <-]. cbn. by rewrite (getTokenInfo_address _ _ _ H).
Qed.

Ltac token_leaf :=
  first [ apply keeps_delete
        | apply keeps_update_wallets
        | apply keeps_insert;
            first [apply token_matches_fresh | by eapply token_matches_info]
        | match goal with
          | H : token_matches _ |- token_matches _ => exact H
          end ].

Lemma handler_token_matches env ev :
  respects (keeps token_matches) (handler env ev).
Proof.
  destruct ev as [[] msg|msg|query];
    do 2 (unfold_handlers; unfold new_session; repeat keeps_step);
    token_leaf.
Qed.

(** X13. In every reachable state the token data of a session was fetched
    for the session's own token address. *)
Theorem token_data_belongs_to_the_session_token st u s info :
  reachable st ->
  userSessions st !! u = Some s ->
  tokenInfo s = Some info ->
  tokenAddress s = Some (ti_address info).
Proof.
  intros Hr.
  assert (map_Forall (fun _ s => token_matches s) (userSessions st)) as H.
  { induction Hr as [wallets|env ev st _ IH]; [apply map_Forall_empty|].
    rewrite step_state_after. by apply handler_token_matches. }
  intros Hs. by apply (H u s Hs).
Qed.

Lemma token_data_belongs_to_the_session_token_witness :
  tokenAddress (set_monAmount (Some "5") Example.buy_session)
  = Some (ti_address Example.info).
Proof.
  apply (token_data_belongs_to_the_session_token Example.buying_5 Example.alice
           _ Example.info reachable_buying_5).
  - vm_compute. reflexivity.
  - reflexivity.
Defined.

(** *** How a session comes to await a typed amount *)

Lemma still_awaiting_same st v s :
  userSessions st !! v = Some s ->
  exists s0,
    userSessions st !! v = Some s0 /\ state s0 = state s /\ same_token s0 s.
Proof. intros H. exists s. split; [done|]. split; [done|]. by unfold same_token. Qed.

Global Instance still_awaiting_preorder : PreOrder still_awaiting.
Proof.
  split.
  - intros st u s Hs _. by apply still_awaiting_same.
  - intros a b c H1 H2 u s'' Hs'' Hq''.
    destruct (H2 u s'' Hs'' Hq'') as (s' & Hs' & E' & T1 & T2 & T3).
    destruct (H1 u s' Hs') as (s & Hs & E & U1 & U2 & U3).
    { unfold awaits_amount in *. by rewrite E'. }
    exists s. split; [done|]. split; [congruence|].
    unfold same_token. repeat split; congruence.
Qed.

Lemma still_awaiting_insert u s :
  ~ awaits_amount s ->
  respects still_awaiting (update_sessions (insert u s)).
Proof.
  intros Hn st v s' Hs' Hq'. cbn in Hs'.
  destruct (decide (v = u)) as [->|Hv].
  - rewrite lookup_insert_eq in Hs'. by simplify_eq.
  - rewrite lookup_insert_ne in Hs' by done. by apply still_awaiting_same.
Qed.

Lemma still_awaiting_delete u :
  respects still_awaiting (update_sessions (delete u)).
Proof.
  intros st v s' Hs' _. cbn in Hs'.
  apply lookup_delete_Some in Hs' as [_ Hs']. by apply still_awaiting_same.
Qed.

Lemma still_awaiting_update_wallets f :
  respects still_awaiting (update_wallets f).
Proof. intros st v s' Hs' _. by apply still_awaiting_same. Qed.

Lemma still_awaiting_assign u f name :
  (forall s, awaits_amount (f s) -> state (f s) = state s /\ same_token s (f s)) ->
  respects still_awaiting (assign u f name).
Proof.
  intros Hf st v s' Hs' Hq'.
  unfold state_after, assign, mbind, Bot_bind, read in Hs'.
  destruct (userSessions st !! u) as [s|] eqn:Hs; cbn in Hs';
    [|by apply still_awaiting_same].
  destruct (decide (v = u)) as [->|Hv].
  - rewrite lookup_insert_eq in Hs'. simplify_eq.
    exists s. destruct (Hf s Hq') as [E T]. by split.
  - rewrite lookup_insert_ne in Hs' by done. by apply still_awaiting_same.
Qed.

Ltac awaiting_step :=
  first [ apply still_awaiting_delete
        | apply still_awaiting_update_wallets
        | apply still_awaiting_insert; intros [?|?]; discriminate
        | apply still_awaiting_assign; intros ? [?|?];
            first [discriminate | by unfold same_token]
        | respects_step ].

Ltac awaiting_auto :=
  do 2 (unfold_handlers; unfold new_session; repeat awaiting_step);
  try congruence.

Lemma on_callback_query_still_awaiting env query :
  String.eqb (data query) "buy_custom" = false ->
  String.eqb (data query) "sell_custom" = false ->
  respects still_awaiting (on_callback_query env query).
Proof. intros E1 E2. awaiting_auto. Qed.

Lemma handler_still_awaiting env ev :
  match ev with
  | CallbackQuery query =>
      String.eqb (data query) "buy_custom" = false
      /\ String.eqb (data query) "sell_custom" = false
  | _ => True
  end ->
  respects still_awaiting (handler env ev).
Proof.
  destruct ev as [[] msg|msg|query]; cbn [handler]; intros H;
    try (destruct H; by apply on_callback_query_still_awaiting);
    awaiting_auto.
Qed.

Lemma custom_button_step env chat v st d q q' :
  (d, q, q') = ("buy_custom", BUY_AMOUNT, BUY_CUSTOM_AMOUNT)
  \/ (d, q, q') = ("sell_custom", SELL_AMOUNT, SELL_CUSTOM_AMOUNT) ->
  step env (press chat v d) st = st
  \/ exists s0,
       userSessions st !! v = Some s0 /\ state s0 = Some q
       /\ userSessions (step env (press chat v d) st)
          = <[v := set_state q' s0]> (userSessions st).
Proof.
  intros Hd.
  destruct (in_state (userSessions st !! v) q) eqn:Eq.
  - right. unfold in_state, state_is in Eq.
    destruct (userSessions st !! v) as [s0|] eqn:Hs; [|done].
    destruct (state s0) as [q0|] eqn:Hq; [|done].
    exists s0.
    destruct Hd as [[= -> -> ->]|[= -> -> ->]]; destruct q0; try done;
      (split; [done|]); (split; [done|]); exec;
      by destruct (tokenInfo s0).
  - left. destruct Hd as [[= -> -> ->]|[= -> -> ->]].
    + apply buy_choice_ignored; [cbn; tauto|done].
    + apply sell_choice_ignored; [cbn; tauto|done].
Qed.

(** X14. A session that awaits a typed amount after an update existed before
    it, for the same token and balance snapshot, and was either in the same
    state already or in [BUY_AMOUNT] (resp. [SELL_AMOUNT]) with the update
    being its owner's press of [buy_custom] (resp. [sell_custom]). *)
Theorem typed_amount_states_are_entered_by_their_button env ev st u s' :
  userSessions (step env ev st) !! u = Some s' ->
  awaits_amount s' ->
  exists s,
    userSessions st !! u = Some s
    /\ same_token s s'
    /\ (state s = state s'
        \/ (exists chat, ev = press chat u "buy_custom")
           /\ state s = Some BUY_AMOUNT /\ state s' = Some BUY_CUSTOM_AMOUNT
        \/ (exists chat, ev = press chat u "sell_custom")
           /\ state s = Some SELL_AMOUNT /\ state s' = Some SELL_CUSTOM_AMOUNT).
Proof.
  intros Hs' Hq'.
  assert (forall chat v d q q',
            ev = press chat v d ->
            (d, q, q') = ("buy_custom", BUY_AMOUNT, BUY_CUSTOM_AMOUNT)
            \/ (d, q, q') = ("sell_custom", SELL_AMOUNT, SELL_CUSTOM_AMOUNT) ->
            exists s,
              userSessions st !! u = Some s /\ same_token s s'
              /\ (state s = state s'
                  \/ (v = u /\ state s = Some q /\ state s' = Some q')))
    as Hbutton.
  { intros chat v d q q' -> Hd.
    destruct (custom_button_step env chat v st d q q' Hd)
      as [E|(s0 & Hs0 & Hq0 & E)]; rewrite E in Hs'.
    - exists s'. split; [done|]. split; [by unfold same_token|by left].
    - destruct (decide (u = v)) as [->|Hv].
      + rewrite lookup_insert_eq in Hs'. injection Hs' as <-.
        exists s0. split; [done|]. split; [by unfold same_token|].
        right. by repeat split.
      + rewrite lookup_insert_ne in Hs' by done.
        exists s'. split; [done|]. split; [by unfold same_token|by left]. }
  destruct ev as [c msg|msg|[chat v d]].
  - rewrite step_state_after in Hs'.
    destruct (handler_still_awaiting env (TextMatches c msg) I st u s' Hs' Hq')
      as (s & Hs & E & T).
    exists s. by auto.
  - rewrite step_state_after in Hs'.
    destruct (handler_still_awaiting env (MessageEvent msg) I st u s' Hs' Hq')
      as (s & Hs & E & T).
    exists s. by auto.
  - destruct (String.eqb d "buy_custom") eqn:E1.
  { apply String.eqb_eq in E1 as ->.
    destruct (Hbutton chat v "buy_custom" BUY_AMOUNT BUY_CUSTOM_AMOUNT eq_refl
                (or_introl eq_refl)) as (s & Hs & T & [E|(-> & E2 & E3)]);
      exists s; repeat split; try apply T; try done; auto.
    right. left. split; [by exists chat|done]. }
    destruct (String.eqb d "sell_custom") eqn:E2.
    { apply String.eqb_eq in E2 as ->.
    destruct (Hbutton chat v "sell_custom" SELL_AMOUNT SELL_CUSTOM_AMOUNT eq_refl
                (or_intror eq_refl)) as (s & Hs & T & [E|(-> & E3 & E4)]);
      exists s; repeat split; try apply T; try done; auto.
    right. right. split; [by exists chat|done]. }
    rewrite step_state_after in Hs'.
    destruct (handler_still_awaiting env
                (CallbackQuery {| q_chat_id := chat; q_from_id := v; data := d |})
                (conj E1 E2) st u s' Hs' Hq') as (s & Hs & E & T).
    exists s. by auto.
Qed.

Lemma typed_amount_states_are_entered_by_their_button_witness :
  exists s,
    userSessions Example.buying !! Example.alice = Some s
    /\ same_token s (set_state BUY_CUSTOM_AMOUNT Example.buy_session)
    /\ (state s = state (set_state BUY_CUSTOM_AMOUNT Example.buy_session)
        \/ (exists chat,
              press Example.chat Example.alice "buy_custom"
              = press chat Example.alice "buy_custom")
           /\ state s = Some BUY_AMOUNT
           /\ state (set_state BUY_CUSTOM_AMOUNT Example.buy_session)
              = Some BUY_CUSTOM_AMOUNT
        \/ (exists chat,
              press Example.chat Example.alice "buy_custom"
              = press chat Example.alice "sell_custom")
           /\ state s = Some SELL_AMOUNT
           /\ state (set_state BUY_CUSTOM_AMOUNT Example.buy_session)
              = Some SELL_CUSTOM_AMOUNT).
Proof.
  apply (typed_amount_states_are_entered_by_their_button Example.env
           (press Example.chat Example.alice "buy_custom") Example.buying
           Example.alice (set_state BUY_CUSTOM_AMOUNT Example.buy_session)).
  - vm_compute. reflexivity.
  - left. reflexivity.
Defined.

(** *** The flows from command to swap *)

Lemma run_buy_command env chat u t st w b :
  userWallets st !! u = Some w ->
  getBalance env (address w) = Ok b ->
  JsNumber.leb (JsNumber.parseFloat b) JsNumber.zero = false ->
  run (handler env (TextMatches cmd_buy (says chat u t))) st
  = ({| userWallets := userWallets st;
        userSessions := <[u := new_session BUY_TOKEN]> (userSessions st) |},
     [sendMessage chat (EnterBuyTokenAddress b) no_keyboard]).
Proof. intros Hw Hb Hle. by exec. Qed.

Lemma run_sell_command env chat u t st w :
  userWallets st !! u = Some w ->
  run (handler env (TextMatches cmd_sell (says chat u t))) st
  = ({| userWallets := userWallets st;
        userSessions := <[u := new_session SELL_TOKEN]> (userSessions st) |},
     [sendMessage chat EnterSellTokenAddress no_keyboard]).
Proof. intros Hw. by exec. Qed.

Lemma run_buy_address env chat u t st w s info :
  is_address (trim t) = true ->
  userWallets st !! u = Some w ->
  userSessions st !! u = Some s ->
  state s = Some BUY_TOKEN ->
  getTokenInfo env (trim t) = Ok info ->
  run (handler env (MessageEvent (says chat u t))) st
  = ({| userWallets := userWallets st;
        userSessions :=
          <[u := {| state := Some BUY_AMOUNT; tokenAddress := Some (trim t);
                    tokenInfo := Some info; tokenBalance := None;
                    monAmount := None; tokenAmount := None |}]>
            (userSessions st) |},
     [sendMessage chat FetchingTokenInfo no_keyboard;
      editMessageText chat (HowMuchMON info (trim t)) buyAmountKeyboard]).
Proof.
  intros Ha Hw Hs Hq Hi. destruct (address_is_not_command t Ha) as [E1 E2].
  by exec.
Qed.

Lemma run_sell_address env chat u t st w s info balance :
  is_address (trim t) = true ->
  userWallets st !! u = Some w ->
  userSessions st !! u = Some s ->
  state s = Some SELL_TOKEN ->
  getTokenInfo env (trim t) = Ok info ->
  getTokenBalance env (address w) (trim t) = Ok balance ->
  JsNumber.leb (JsNumber.parseFloat (tb_balance balance)) JsNumber.zero = false ->
  run (handler env (MessageEvent (says chat u t))) st
  = ({| userWallets := userWallets st;
        userSessions :=
          <[u := {| state := Some SELL_AMOUNT; tokenAddress := Some (trim t);
                    tokenInfo := Some info;
                    tokenBalance := Some (tb_balance balance);
                    monAmount := None; tokenAmount := None |}]>
            (userSessions st) |},
     [sendMessage chat FetchingTokenInfo no_keyboard;
      editMessageText chat (HowMuchToSell info (tb_balance balance))
        sellAmountKeyboard]).
Proof.
  intros Ha Hw Hs Hq Hi Hb Hle.
  destruct (address_is_not_command t Ha) as [E1 E2]. by exec.
Qed.

Lemma run_buy_amount env chat u st s info d a :
  userSessions st !! u = Some s ->
  state s = Some BUY_AMOUNT ->
  tokenInfo s = Some info ->
  In (d, a) [("buy_1", "1"); ("buy_2", "2"); ("buy_5", "5");
             ("buy_10", "10"); ("buy_50", "50")] ->
  run (handler env (press chat u d)) st
  = ({| userWallets := userWallets st;
        userSessions := <[u := set_monAmount (Some a) s]> (userSessions st) |},
     [answerCallbackQuery;
      sendMessage chat (AboutToBuy (ti_symbol info) (Some a)) confirmBuyKeyboard]).
Proof.
  intros Hs Hq Hi Hd. cbn [In] in Hd.
  destruct Hd as [E|[E|[E|[E|[E|[]]]]]]; injection E as <- <-; by exec.
Qed.

Lemma run_sell_percentage env chat u st s info b d pct :
  userSessions st !! u = Some s ->
  state s = Some SELL_AMOUNT ->
  tokenInfo s = Some info ->
  tokenBalance s = Some b ->
  In (d, pct) [("sell_25", 25); ("sell_50", 50); ("sell_75", 75);
               ("sell_100", 100)] ->
  let amount := percent_amount (JsNumber.parseFloat b) (JsNumber.of_Z pct) in
  run (handler env (press chat u d)) st
  = ({| userWallets := userWallets st;
        userSessions := <[u := set_tokenAmount (Some amount) s]> (userSessions st) |},
     [answerCallbackQuery;
      sendMessage chat
        (AboutToSellPercent amount (ti_symbol info) (JsNumber.of_Z pct))
        confirmSellKeyboard]).
Proof.
  intros Hs Hq Hi Hb Hd amount. subst amount.
  destruct (percentage_of_choice d pct Hd) as [Hp _]. cbn [In] in Hd.
  destruct Hd as [E|[E|[E|[E|[]]]]]; injection E as <- <-; by exec.
Qed.

Lemma run_confirm_buy env chat u st w s info token a hash :
  userWallets st !! u = Some w ->
  userSessions st !! u = Some s ->
  tokenInfo s = Some info ->
  tokenAddress s = Some token ->
  monAmount s = Some a ->
  router_swapExactETHForTokens env (privateKey w) token a = Ok hash ->
  run (handler env (press chat u "confirm_buy")) st
  = ({| userWallets := userWallets st;
        userSessions := delete u (userSessions st) |},
     [answerCallbackQuery;
      sendMessage chat (ProcessingPurchase (ti_symbol info) (Some a)) no_keyboard;
      editMessageText chat (PurchaseSuccessful (ti_symbol info) (Some a) hash)
        no_keyboard;
      setTimeout_tokenDetails chat (Some token) info]).
Proof.
  intros Hw Hs Hi Ht Ha Hr. by exec.
Qed.

Lemma run_confirm_sell env chat u st w s info token a hash :
  userWallets st !! u = Some w ->
  userSessions st !! u = Some s ->
  tokenInfo s = Some info ->
  tokenAddress s = Some token ->
  tokenAmount s = Some a ->
  router_swapExactTokensForETH env (privateKey w) token a = Ok hash ->
  run (handler env (press chat u "confirm_sell")) st
  = ({| userWallets := userWallets st;
        userSessions := delete u (userSessions st) |},
     [answerCallbackQuery;
      sendMessage chat (ProcessingSale (Some a) (ti_symbol info)) no_keyboard;
      editMessageText chat (SaleSuccessful (Some a) (ti_symbol info) hash)
        no_keyboard]).
Proof.
  intros Hw Hs Hi Ht Ha Hr. by exec.
Qed.

(** X15. The buy flow from end to end, in a world where the wallet holds
    funds, the token lookup returns and the router accepts the swap: [/buy],
    the address, a fixed amount and [confirm_buy] send the swap of that
    amount of MON for that token, signed with the user's key, produce the
    messages below, and leave the wallet store as it was and the session
    store without a session for the user. *)
Theorem buy_flow_reaches_the_router env chat u st w t info monBalance d a hash :
  userWallets st !! u = Some w ->
  is_address (trim t) = true ->
  getBalance env (address w) = Ok monBalance ->
  JsNumber.leb (JsNumber.parseFloat monBalance) JsNumber.zero = false ->
  getTokenInfo env (trim t) = Ok info ->
  In (d, a) [("buy_1", "1"); ("buy_2", "2"); ("buy_5", "5");
             ("buy_10", "10"); ("buy_50", "50")] ->
  router_swapExactETHForTokens env (privateKey w) (trim t) a = Ok hash ->
  trace env
    [TextMatches cmd_buy (says chat u "/buy");
     MessageEvent (says chat u t);
     press chat u d;
     press chat u "confirm_buy"] st
  = ({| userWallets := userWallets st;
        userSessions := delete u (userSessions st) |},
     [sendMessage chat (EnterBuyTokenAddress monBalance) no_keyboard;
      sendMessage chat FetchingTokenInfo no_keyboard;
      editMessageText chat (HowMuchMON info (trim t)) buyAmountKeyboard;
      answerCallbackQuery;
      sendMessage chat (AboutToBuy (ti_symbol info) (Some a)) confirmBuyKeyboard;
      answerCallbackQuery;
      sendMessage chat (ProcessingPurchase (ti_symbol info) (Some a)) no_keyboard;
      editMessageText chat (PurchaseSuccessful (ti_symbol info) (Some a) hash)
        no_keyboard;
      setTimeout_tokenDetails chat (Some (trim t)) info]).
Proof.
  intros Hw Ha Hb Hle Hi Hd Hr. unfold trace.
  rewrite (run_buy_command env chat u "/buy" st w monBalance Hw Hb Hle).
  erewrite (run_buy_address env chat u t _ w _ info Ha);
    [|exact Hw|apply lookup_insert_eq|reflexivity|exact Hi].
  erewrite (run_buy_amount env chat u _ _ info d a);
    [|apply lookup_insert_eq|reflexivity|reflexivity|exact Hd].
  erewrite (run_confirm_buy env chat u _ w _ info (trim t) a hash);
    [|exact Hw|apply lookup_insert_eq|reflexivity|reflexivity|reflexivity
     |exact Hr].
  cbn. by rewrite !delete_insert_eq.
Qed.

Lemma buy_flow_reaches_the_router_witness :
  trace Example.env
    [TextMatches cmd_buy (says Example.chat Example.alice "/buy");
     MessageEvent (says Example.chat Example.alice Example.token);
     press Example.chat Example.alice "buy_5";
     press Example.chat Example.alice "confirm_buy"] (initial Example.wallets)
  = ({| userWallets := userWallets (initial Example.wallets);
        userSessions := delete Example.alice (userSessions (initial Example.wallets)) |},
     [sendMessage Example.chat (EnterBuyTokenAddress "10.0") no_keyboard;
      sendMessage Example.chat FetchingTokenInfo no_keyboard;
      editMessageText Example.chat
        (HowMuchMON Example.info (trim Example.token)) buyAmountKeyboard;
      answerCallbackQuery;
      sendMessage Example.chat (AboutToBuy (ti_symbol Example.info) (Some "5"))
        confirmBuyKeyboard;
      answerCallbackQuery;
      sendMessage Example.chat
        (ProcessingPurchase (ti_symbol Example.info) (Some "5")) no_keyboard;
      editMessageText Example.chat
        (PurchaseSuccessful (ti_symbol Example.info) (Some "5") "0xhash")
        no_keyboard;
      setTimeout_tokenDetails Example.chat (Some (trim Example.token))
        Example.info]).
Proof.
  apply (buy_flow_reaches_the_router Example.env Example.chat Example.alice
           (initial Example.wallets) Example.alice_wallet Example.token
           Example.info "10.0" "buy_5" "5" "0xhash").
  - vm_compute. reflexivity.
  - vm_compute. reflexivity.
  - vm_compute. reflexivity.
  - vm_compute. reflexivity.
  - vm_compute. reflexivity.
  - cbn. tauto.
  - reflexivity.
Defined.

(** X16. The sell flow from end to end, in a world where the token balance
    is above zero and the router accepts the swap: [/sell], the address, a
    percentage and [confirm_sell] send the swap of that share of the balance
    read when the address was entered, produce the messages below, and leave
    the wallet store as it was and the session store without a session for
    the user. *)
Theorem sell_flow_reaches_the_router env chat u st w t info balance d pct hash :
  userWallets st !! u = Some w ->
  is_address (trim t) = true ->
  getTokenInfo env (trim t) = Ok info ->
  getTokenBalance env (address w) (trim t) = Ok balance ->
  JsNumber.leb (JsNumber.parseFloat (tb_balance balance)) JsNumber.zero = false ->
  In (d, pct) [("sell_25", 25); ("sell_50", 50); ("sell_75", 75);
               ("sell_100", 100)] ->
  let amount :=
    percent_amount (JsNumber.parseFloat (tb_balance balance)) (JsNumber.of_Z pct) in
  router_swapExactTokensForETH env (privateKey w) (trim t) amount = Ok hash ->
  trace env
    [TextMatches cmd_sell (says chat u "/sell");
     MessageEvent (says chat u t);
     press chat u d;
     press chat u "confirm_sell"] st
  = ({| userWallets := userWallets st;
        userSessions := delete u (userSessions st) |},
     [sendMessage chat EnterSellTokenAddress no_keyboard;
      sendMessage chat FetchingTokenInfo no_keyboard;
      editMessageText chat (HowMuchToSell info (tb_balance balance))
        sellAmountKeyboard;
      answerCallbackQuery;
      sendMessage chat
        (AboutToSellPercent amount (ti_symbol info) (JsNumber.of_Z pct))
        confirmSellKeyboard;
      answerCallbackQuery;
      sendMessage chat (ProcessingSale (Some amount) (ti_symbol info))
        no_keyboard;
      editMessageText chat (SaleSuccessful (Some amount) (ti_symbol info) hash)
        no_keyboard]).
Proof.
  intros Hw Ha Hi Hb Hle Hd amount Hr. unfold trace.
  rewrite (run_sell_command env chat u "/sell" st w Hw).
  erewrite (run_sell_address env chat u t _ w _ info balance Ha);
    [|exact Hw|apply lookup_insert_eq|reflexivity|exact Hi|exact Hb|exact Hle].
  erewrite (run_sell_percentage env chat u _ _ info (tb_balance balance) d pct);
    [|apply lookup_insert_eq|reflexivity|reflexivity|reflexivity|exact Hd].
  erewrite (run_confirm_sell env chat u _ w _ info (trim t) amount hash);
    [|exact Hw|apply lookup_insert_eq|reflexivity|reflexivity|reflexivity
     |exact Hr].
  cbn. by rewrite !delete_insert_eq.
Qed.

Lemma sell_flow_reaches_the_router_witness :
  trace Example.env
    [TextMatches cmd_sell (says Example.chat Example.alice "/sell");
     MessageEvent (says Example.chat Example.alice Example.token);
     press Example.chat Example.alice "sell_50";
     press Example.chat Example.alice "confirm_sell"] (initial Example.wallets)
  = ({| userWallets := userWallets (initial Example.wallets);
        userSessions := delete Example.alice (userSessions (initial Example.wallets)) |},
     [sendMessage Example.chat EnterSellTokenAddress no_keyboard;
      sendMessage Example.chat FetchingTokenInfo no_keyboard;
      editMessageText Example.chat (HowMuchToSell Example.info "10.0")
        sellAmountKeyboard;
      answerCallbackQuery;
      sendMessage Example.chat
        (AboutToSellPercent
           (percent_amount (JsNumber.parseFloat "10.0") (JsNumber.of_Z 50))
           (ti_symbol Example.info) (JsNumber.of_Z 50))
        confirmSellKeyboard;
      answerCallbackQuery;
      sendMessage Example.chat
        (ProcessingSale
           (Some (percent_amount (JsNumber.parseFloat "10.0") (JsNumber.of_Z 50)))
           (ti_symbol Example.info))
        no_keyboard;
      editMessageText Example.chat
        (SaleSuccessful
           (Some (percent_amount (JsNumber.parseFloat "10.0") (JsNumber.of_Z 50)))
           (ti_symbol Example.info) "0xhash")
        no_keyboard]).
Proof.
  apply (sell_flow_reaches_the_router Example.env Example.chat Example.alice
           (initial Example.wallets) Example.alice_wallet Example.token
           Example.info
           {| tb_address := Example.token; tb_balance := "10.0";
              tb_decimals := 18; tb_symbol := "TKN"; tb_name := "Token" |}
           "sell_50" 50 "0xhash").
  - vm_compute. reflexivity.
  - vm_compute. reflexivity.
  - vm_compute. reflexivity.
  - vm_compute. reflexivity.
  - vm_compute. reflexivity.
  - cbn. tauto.
  - reflexivity.
Defined.

(** *** Balances as the chain reports them *)

(** X17. A balance string returned by [getBalance] or [getTokenBalance] is a
    decimal numeral that stands for exactly the integer the chain reported
    divided by 10^decimals (18 for MON); [getTokenBalance] returns only for
    at most 256 decimals. *)
Theorem balances_are_printed_exactly env addr token :
  (forall b,
     getBalance env addr = Ok b ->
     exists wei, provider_getBalance env addr = Ok wei /\ denotes b wei 18)
  /\ (forall tb,
        getTokenBalance env addr token = Ok tb ->
        exists v,
          erc20_balanceOf env token addr = Ok v
          /\ erc20_decimals env token = Ok (tb_decimals tb)
          /\ (tb_decimals tb <= 256)%N
          /\ denotes (tb_balance tb) v (tb_decimals tb)).
Proof.
  split.
  - intros b. unfold getBalance.
    destruct (provider_getBalance env addr) as [wei|m]; [|discriminate].
    intros [= <-]. exists wei. split; [done|].
    apply UnitsFacts.formatUnits_denotes.
  - intros tb. unfold getTokenBalance.
    destruct (erc20_balanceOf env token addr) as [v|m];
      destruct (erc20_decimals env token) as [d|m'];
      destruct (erc20_symbol env token) as [sy|m''];
      destruct (erc20_name env token) as [na|m''']; try discriminate.
    destruct (256 <? d)%N eqn:Ed; [discriminate|]. intros [= <-].
    exists v. cbn [tb_decimals tb_balance]. apply N.ltb_ge in Ed.
    repeat split; try done. apply UnitsFacts.formatUnits_denotes.
Qed.

Lemma getBalance_denotes env addr b wei :
  getBalance env addr = Ok b -> provider_getBalance env addr = Ok wei ->
  denotes b wei 18.
Proof.
  unfold getBalance. intros Hb Hw. rewrite Hw in Hb. injection Hb as <-.
  apply UnitsFacts.formatUnits_denotes.
Qed.

Lemma getTokenBalance_denotes env addr token tb v :
  getTokenBalance env addr token = Ok tb ->
  erc20_balanceOf env token addr = Ok v ->
  denotes (tb_balance tb) v (tb_decimals tb) /\ (tb_decimals tb <= 256)%N.
Proof.
  unfold getTokenBalance. intros Hb Hv. rewrite Hv in Hb.
  destruct (erc20_decimals env token) as [d|m'];
    destruct (erc20_symbol env token) as [sy|m''];
    destruct (erc20_name env token) as [na|m''']; try discriminate.
  destruct (256 <? d)%N eqn:Ed; [discriminate|]. injection Hb as <-.
  apply N.ltb_ge in Ed. split; [|done].
  apply UnitsFacts.formatUnits_denotes.
Qed.

Lemma guard_of_denotes s v d :
  denotes s v d -> (d <= 323)%N ->
  JsNumber.leb (JsNumber.parseFloat s) JsNumber.zero = true <-> v = 0%N.
Proof.
  intros Hs Hd.
  destruct (UnitsFacts.parseFloat_of_denotes s v d Hs Hd) as [H0 Hpos].
  split.
  - intros Hle. destruct (N.eq_dec v 0%N) as [|Hv]; [done|].
    destruct (positive_is_valid _ (Hpos ltac:(lia))) as [_ E]. congruence.
  - intros ->. by rewrite H0.
Qed.

(** X18. The guard [parseFloat(balance) <= 0] of [/buy] and of the two ways
    into the sell flow holds exactly when the chain reported a balance of
    zero: rounding to a double never turns a balance of one base unit or more
    into zero. *)
Theorem balance_guards_test_for_zero env addr token :
  (forall b wei,
     getBalance env addr = Ok b ->
     provider_getBalance env addr = Ok wei ->
     JsNumber.leb (JsNumber.parseFloat b) JsNumber.zero = true <-> wei = 0%N)
  /\ (forall tb v,
        getTokenBalance env addr token = Ok tb ->
        erc20_balanceOf env token addr = Ok v ->
        JsNumber.leb (JsNumber.parseFloat (tb_balance tb)) JsNumber.zero = true
        <-> v = 0%N).
Proof.
  split.
  - intros b wei Hb Hw. apply (guard_of_denotes b wei 18); [|lia].
    by eapply getBalance_denotes.
  - intros tb v Hb Hv.
    destruct (getTokenBalance_denotes env addr token tb v Hb Hv) as [Hd Hle].
    apply (guard_of_denotes _ v (tb_decimals tb)); [done|lia].
Qed.

(** *** /buy *)

(** X19. [/buy] for a user with a wallet.  If the balance query throws, the
    error is logged and reported to the chat and nothing changes; if the
    wallet holds nothing, the insufficient-balance message with ["0.0"] is
    sent and nothing changes; if it holds one wei or more, the user's session
    is replaced by a fresh one in [BUY_TOKEN] and the balance is shown. *)
Theorem buy_command_requires_funds env msg st w :
  userWallets st !! from_id msg = Some w ->
  let ev := TextMatches cmd_buy msg in
  (forall m,
     provider_getBalance env (address w) = Error m ->
     step env ev st = st
     /\ output env ev st
        = [logger_error ("Failed to get balance: " +:+ m);
           sendMessage (chat_id msg)
             (ErrorNotice ("Failed to get balance: " +:+ m)) no_keyboard])
  /\ (provider_getBalance env (address w) = Ok 0%N ->
        step env ev st = st
        /\ output env ev st
           = [sendMessage (chat_id msg) (INSUFFICIENT_BALANCE_MON "0.0")
                no_keyboard])
  /\ (forall wei,
        provider_getBalance env (address w) = Ok wei ->
        (0 < wei)%N ->
        step env ev st
        = {| userWallets := userWallets st;
             userSessions :=
               <[from_id msg := new_session BUY_TOKEN]> (userSessions st) |}
        /\ output env ev st
           = [sendMessage (chat_id msg)
                (EnterBuyTokenAddress (formatUnits wei 18)) no_keyboard]).
Proof.
  intros Hw ev. subst ev. split; [|split].
  - intros m Hm.
    assert (getBalance env (address w) = Error ("Failed to get balance: " +:+ m))
      as Hb by (unfold getBalance; by rewrite Hm).
    clear Hm. exec. by destruct st.
  - intros H0.
    assert (getBalance env (address w) = Ok "0.0") as Hb
      by (unfold getBalance; by rewrite H0).
    assert (JsNumber.leb (JsNumber.parseFloat "0.0") JsNumber.zero = true) as Hle
      by (vm_compute; reflexivity).
    clear H0. exec. by destruct st.
  - intros wei Hwei Hpos.
    assert (getBalance env (address w) = Ok (formatUnits wei 18)) as Hb
      by (unfold getBalance; by rewrite Hwei).
    assert (JsNumber.leb (JsNumber.parseFloat (formatUnits wei 18)) JsNumber.zero
            = false) as Hle.
    { destruct (JsNumber.leb _ _) eqn:E; [|done].
      apply (guard_of_denotes _ wei 18) in E; [lia| |lia].
      apply UnitsFacts.formatUnits_denotes. }
    clear Hwei. by exec.
Qed.

Lemma buy_command_requires_funds_witness :
  step Example.env (TextMatches cmd_buy (says Example.chat Example.alice "/buy"))
    (initial Example.wallets)
  = {| userWallets := userWallets (initial Example.wallets);
       userSessions :=
         <[Example.alice := new_session BUY_TOKEN]>
           (userSessions (initial Example.wallets)) |}
  /\ output Example.env
       (TextMatches cmd_buy (says Example.chat Example.alice "/buy"))
       (initial Example.wallets)
     = [sendMessage Example.chat
          (EnterBuyTokenAddress (formatUnits (10 * 10 ^ 18) 18)) no_keyboard].
Proof.
  refine (proj2 (proj2 (buy_command_requires_funds Example.env
            (says Example.chat Example.alice "/buy") (initial Example.wallets)
            Example.alice_wallet _)) (10 * 10 ^ 18)%N _ _).
  - vm_compute. reflexivity.
  - reflexivity.
  - reflexivity.
Defined.

(** *** Wallet management *)

(** X20. [/create_wallet] and the [create_wallet] button store the newly
    generated wallet for the user without looking at the wallet store: a
    wallet already on record is replaced.  The session store is untouched,
    and [show_private_key] then shows the new key. *)
Theorem create_wallet_overwrites env env' msg st :
  let u := from_id msg in
  let st' :=
    {| userWallets := <[u := createWallet env]> (userWallets st);
       userSessions := userSessions st |} in
  step env (TextMatches cmd_create_wallet msg) st = st'
  /\ step env (press (chat_id msg) u "create_wallet") st = st'
  /\ output env (TextMatches cmd_create_wallet msg) st
     = [saveWallets;
        sendMessage (chat_id msg) (NewWalletCreated (createWallet env))
          no_keyboard]
  /\ output env' (press (chat_id msg) u "show_private_key") st'
     = [answerCallbackQuery;
        sendMessage (chat_id msg)
          (YourPrivateKey (privateKey (createWallet env))) no_keyboard].
Proof.
  intros u st'. subst u st'. repeat split; exec; try done.
  rewrite lookup_insert_eq. done.
Qed.

(** *** Buttons after the session is gone *)

(** X21. Once a [cancel] has been handled, the amount and confirmation
    buttons still on screen do nothing: each press is acknowledged and
    changes nothing. *)
Theorem cancel_disarms_the_buttons env env' chat u st d :
  In d ["buy_1"; "buy_2"; "buy_5"; "buy_10"; "buy_50"; "buy_custom";
        "sell_25"; "sell_50"; "sell_75"; "sell_100"; "sell_custom";
        "confirm_buy"; "confirm_sell"] ->
  let st1 := step env (press chat u "cancel") st in
  step env' (press chat u d) st1 = st1
  /\ output env' (press chat u d) st1 = [answerCallbackQuery].
Proof.
  intros Hd st1.
  assert (userSessions st1 !! u = None) as Hs.
  { subst st1. exec. apply lookup_delete_eq. }
  clearbody st1.
  assert (In d ["buy_1"; "buy_2"; "buy_5"; "buy_10"; "buy_50"; "buy_custom"]
          \/ In d ["sell_25"; "sell_50"; "sell_75"; "sell_100"; "sell_custom"]
          \/ (d = "confirm_buy" \/ d = "confirm_sell"))
    as [Hb|[Hl|Hc]] by (cbn [In] in *; intuition auto).
  - apply buy_choice_ignored; [done|]. by rewrite Hs.
  - apply sell_choice_ignored; [done|]. by rewrite Hs.
  - by apply confirm_ignored_without_session.
Qed.

Lemma cancel_disarms_the_buttons_witness :
  step Example.env (press Example.chat Example.alice "confirm_buy")
    (step Example.env (press Example.chat Example.alice "cancel") Example.buying_5)
  = step Example.env (press Example.chat Example.alice "cancel") Example.buying_5
  /\ output Example.env (press Example.chat Example.alice "confirm_buy")
       (step Example.env (press Example.chat Example.alice "cancel")
          Example.buying_5)
     = [answerCallbackQuery].
Proof.
  apply (cancel_disarms_the_buttons Example.env Example.env Example.chat
           Example.alice Example.buying_5 "confirm_buy").
  cbn. tauto.
Defined.

(** *** The fallback of the balance line *)

(** X22. The token card prints ['0'] when the balance string is empty; a
    balance [getTokenBalance] returned never is, so the card always prints
    the balance itself. *)
Theorem balance_fallback_is_never_used env addr token tb :
  getTokenBalance env addr token = Ok tb ->
  formattedBalance_of tb = tb_balance tb.
Proof.
  unfold getTokenBalance, formattedBalance_of.
  destruct (erc20_balanceOf env token addr) as [v|m];
    destruct (erc20_decimals env token) as [d|m'];
    destruct (erc20_symbol env token) as [sy|m''];
    destruct (erc20_name env token) as [na|m''']; try discriminate.
  destruct (256 <? d)%N; [discriminate|]. intros [= <-].
  cbn [tb_balance]. unfold formatUnits.
  destruct (FixedFacts.formatUnits_leading_digit v d) as (c & r & -> & _).
  done.
Qed.

Lemma balance_fallback_is_never_used_witness :
  formattedBalance_of
    {| tb_address := Example.token; tb_balance := "10.0"; tb_decimals := 18;
       tb_symbol := "TKN"; tb_name := "Token" |}
  = "10.0".
Proof.
  apply (balance_fallback_is_never_used Example.env
           (address Example.alice_wallet) Example.token).
  vm_compute. reflexivity.
Defined.
